(** * AC mesh controller: packet codec, node health monitor and controller loop

    A shallow embedding of [pi_controller/controller.py] (the mesh
    controller, node 0) together with the properties its specification
    states about it.

    Conventions of the embedding.
    - A Python [str] is a Rocq [string]; a character is a code point below
      256 (the Latin-1 range), classified as CPython classifies it.
    - [time.time()] and [datetime.now()] are integers counting
      microseconds.
    - The radio, the database connection, the sockets of the clients and
      the two clocks are the environment: an [Env] gives the outcome of
      the k-th radio write, of the k-th database transaction, of the k-th
      [sendall] to a client and the k-th reading of each clock; the state
      counts how many of each have been consumed.
    - Everything the program prints or transmits is recorded as a trace of
      [effect]s; an exception that leaves a function is the outcome
      [Raised]. *)

From Stdlib Require Import List ZArith NArith Bool Lia String Ascii DecimalString.
Import ListNotations.

Local Open Scope string_scope.
Local Open Scope Z_scope.

(* ====================================================================== *)
(** * Python built-ins used by the controller *)
(* ====================================================================== *)

Module Py.

Definition code (c : ascii) : N := N_of_ascii c.

Definition between (lo hi : N) (c : ascii) : bool :=
  ((lo <=? code c) && (code c <=? hi))%N.

(** [str.isalpha] on one character: the letters. *)
Definition isalpha (c : ascii) : bool :=
  between 65 90 c || between 97 122 c
  || (code c =? 170)%N || (code c =? 181)%N || (code c =? 186)%N
  || between 192 214 c || between 216 246 c || between 248 255 c.

(** [str.isdigit] on one character: the decimal digits and the
    superscripts 1, 2 and 3. *)
Definition isdigit (c : ascii) : bool :=
  between 48 57 c
  || (code c =? 178)%N || (code c =? 179)%N || (code c =? 185)%N.

(** [str.isspace] on one character. *)
Definition isspace (c : ascii) : bool :=
  between 9 13 c || between 28 31 c
  || (code c =? 32)%N || (code c =? 133)%N || (code c =? 160)%N.

(** The white space that [int(str)] skips at both ends. *)
Definition int_space (c : ascii) : bool :=
  between 9 13 c || (code c =? 32)%N || (code c =? 133)%N || (code c =? 160)%N.

Fixpoint drop_while (p : ascii -> bool) (s : string) : string :=
  match s with
  | EmptyString => EmptyString
  | String c r => if p c then drop_while p r else s
  end.

Definition rev_string (s : string) : string :=
  string_of_list_ascii (rev (list_ascii_of_string s)).

Definition strip_with (p : ascii -> bool) (s : string) : string :=
  rev_string (drop_while p (rev_string (drop_while p s))).

(** [s.strip()] *)
Definition strip (s : string) : string := strip_with isspace s.

(** [s.split(sep)] for a one-character separator: never the empty list. *)
Fixpoint split (sep : ascii) (s : string) : list string :=
  match s with
  | EmptyString => [EmptyString]
  | String c r =>
      if Ascii.eqb c sep then EmptyString :: split sep r
      else match split sep r with
           | seg :: segs => String c seg :: segs
           | [] => [String c EmptyString]
           end
  end.

(** [sep.join(parts)] *)
Fixpoint join (sep : string) (parts : list string) : string :=
  match parts with
  | [] => EmptyString
  | [p] => p
  | p :: rest => p ++ sep ++ join sep rest
  end.

(** [s.startswith(p)] *)
Definition startswith (p s : string) : bool := String.prefix p s.

(** [str(n)] for an [int]. *)
Definition str_int (n : Z) : string := NilZero.string_of_int (Z.to_int n).

Definition digit_val (c : ascii) : option Z :=
  if between 48 57 c then Some (Z.of_N (code c) - 48) else None.

(** CPython refuses to convert more than this many digits
    ([sys.int_info.default_max_str_digits]). *)
Definition MAX_STR_DIGITS : Z := 4300.

(** The digits of an integer literal: decimal digits, with single
    underscores allowed between two digits.  [acc] is the value read so
    far, [ndig] the number of digits, [prev] whether the previous
    character was a digit. *)
Fixpoint int_digits (s : string) (acc ndig : Z) (prev : bool) : option (Z * Z) :=
  match s with
  | EmptyString => if prev then Some (acc, ndig) else None
  | String c r =>
      match digit_val c with
      | Some d => int_digits r (10 * acc + d) (ndig + 1) true
      | None =>
          if Ascii.eqb c "_" && prev then int_digits r acc ndig false else None
      end
  end.

Definition int_unsigned (s : string) : option Z :=
  match int_digits s 0 0 false with
  | Some (v, ndig) => if ndig <=? MAX_STR_DIGITS then Some v else None
  | None => None
  end.

(** [int(s)]; [None] stands for [ValueError]. *)
Definition int (s : string) : option Z :=
  match strip_with int_space s with
  | EmptyString => None
  | String c r =>
      if Ascii.eqb c "-" then option_map Z.opp (int_unsigned r)
      else if Ascii.eqb c "+" then int_unsigned r
      else int_unsigned (String c r)
  end.

(** [str.isprintable] on one character. *)
Definition isprintable (c : ascii) : bool :=
  between 32 126 c || between 161 172 c || between 174 255 c.

Definition hex_digit (n : N) : ascii :=
  nth (N.to_nat n) (list_ascii_of_string "0123456789abcdef") "0"%char.

Definition quote1 : ascii := "'"%char.
Definition quote2 : ascii := ascii_of_nat 34.
Definition backslash : ascii := ascii_of_nat 92.

Definition has_char (c : ascii) (s : string) : bool :=
  existsb (Ascii.eqb c) (list_ascii_of_string s).

(** One character of [repr(s)] between the quotes [quote]. *)
Definition repr_char (quote c : ascii) : string :=
  if Ascii.eqb c quote || Ascii.eqb c backslash then String backslash (String c EmptyString)
  else if (code c =? 9)%N then String backslash "t"
  else if (code c =? 10)%N then String backslash "n"
  else if (code c =? 13)%N then String backslash "r"
  else if isprintable c then String c EmptyString
  else String backslash
         (String "x" (String (hex_digit (code c / 16)) (String (hex_digit (code c mod 16)) EmptyString))).

(** [repr(s)] for a [str]: in single quotes, unless [s] holds a single
    quote and no double quote. *)
Definition repr_str (s : string) : string :=
  let quote := if has_char quote1 s && negb (has_char quote2 s) then quote2 else quote1 in
  String quote (String.concat "" (map (repr_char quote) (list_ascii_of_string s)))
  ++ String quote EmptyString.

(** [l.remove(x)] when [x in l]: the first occurrence goes. *)
Fixpoint remove_first (x : Z) (l : list Z) : list Z :=
  match l with
  | [] => []
  | y :: r => if y =? x then r else y :: remove_first x r
  end.

(** [x in l] *)
Definition mem (x : Z) (l : list Z) : bool := existsb (Z.eqb x) l.

(** A [dict]: key/value pairs in insertion order, keys unique. *)
Section Dict.
Context {K V : Type} (eqb : K -> K -> bool).

Fixpoint dict_get (k : K) (d : list (K * V)) : option V :=
  match d with
  | [] => None
  | (k', v) :: r => if eqb k' k then Some v else dict_get k r
  end.

(** [d[k] = v]: an existing key keeps its place. *)
Fixpoint dict_set (k : K) (v : V) (d : list (K * V)) : list (K * V) :=
  match d with
  | [] => [(k, v)]
  | (k', v') :: r =>
      if eqb k' k then (k, v) :: r else (k', v') :: dict_set k v r
  end.

(** [k in d] *)
Definition dict_has (k : K) (d : list (K * V)) : bool :=
  match dict_get k d with Some _ => true | None => false end.
End Dict.

End Py.

(* ====================================================================== *)
(** * Packet protocol functions *)
(* ====================================================================== *)

Module Codec.

(** A frame: one-character keys to string values. *)
Definition packet := list (string * string).

Definition get (k : string) (p : packet) : option string :=
  Py.dict_get String.eqb k p.
Definition has (k : string) (p : packet) : bool :=
  Py.dict_has String.eqb k p.

(** [build_packet]: the keyword arguments in order, each value already
    formatted as the f-string formats it. *)
Definition build_packet (kwargs : packet) : string :=
  Py.join "," (map (fun kv => fst kv ++ snd kv) kwargs).

Definition is_packet (message : string) : bool :=
  match message with
  | String c0 (String c1 _) =>
      Py.isalpha c0 && (Py.isdigit c1 || Ascii.eqb c1 "-")
  | _ => false
  end.

(** One turn of the loop of [parse_packet]. *)
Definition parse_pair (result : packet) (pair : string) : packet :=
  match pair with
  | String key (String v0 v) =>
      Py.dict_set String.eqb (String key EmptyString) (String v0 v) result
  | _ => result
  end.

Definition parse_packet (message : string) : option packet :=
  if negb (is_packet message) then None
  else Some (fold_left parse_pair (Py.split "," message) []).

Definition degree : string := String (ascii_of_nat 176) EmptyString.

Definition part (k : string) (p : packet) (f : string -> string) : list string :=
  match get k p with Some v => [f v] | None => [] end.

Definition describe_packet (p : packet) : string :=
  let parts := List.concat [
    part "s" p (fun _ => "Sync");
    part "t" p (fun v => "Temp " ++ v ++ degree ++ "F");
    part "h" p (fun v => "Humidity " ++ v ++ "%");
    part "x" p (fun v => "Max " ++ v);
    part "n" p (fun v => "Min " ++ v);
    part "a" p (fun v => "AC " ++ (if String.eqb v "1" then "ON" else "OFF"));
    part "l" p (fun v => "Allow " ++ (if String.eqb v "1" then "Yes" else "No"));
    part "b" p (fun v => "Brightness " ++ v ++ "%");
    part "k" p (fun _ => "Heartbeat");
    part "q" p (fun _ => "Query State");
    part "r" p (fun _ => "Reset");
    part "g" p (fun _ => "Toggle Perm") ] in
  match parts with
  | [] => "Unknown"
  | _ => Py.join ", " parts
  end.

(** A dict is true when it is not empty. *)
Definition truthy (p : packet) : bool :=
  match p with [] => false | _ => true end.

Definition describe_message (message : string) : string :=
  if is_packet message then
    match parse_packet message with
    | Some p =>
        if truthy p then message ++ " (" ++ describe_packet p ++ ")"
        else message
    | None => message
    end
  else message.

End Codec.

(* ====================================================================== *)
(** * The controller: constants, environment, state *)
(* ====================================================================== *)

Definition SECOND : Z := 1000000.
Definition DAY : Z := 86400 * SECOND.

Definition MESH_NODE_ID : Z := 0.
Definition TEMP_WARNING_TIMEOUT : Z := 90 * SECOND.
Definition TEMP_SAFETY_TIMEOUT : Z := 180 * SECOND.
Definition PING_INTERVAL : Z := 60 * SECOND.
(** [timedelta(minutes=DB_STALE_THRESHOLD)] *)
Definition DB_STALE_THRESHOLD : Z := 40 * 60 * SECOND.
Definition NODE_AC_RELAY : Z := 1.
Definition NODE_TEMP_LCD : Z := 2.
Definition NODE_STATUS_DB_INTERVAL : Z := 30 * SECOND.
(** The default [timeout] of [start_waiting_for_ack]. *)
Definition ACK_TIMEOUT : Z := 15 * SECOND.

(** The exceptions that the code of the main loop can raise. *)
Inductive exn := ValueError | OverflowError | IndexError.

(** What the controller does not decide: Python's [float] (its parser,
    truth value, conversion to [int] and printing), the radio, the
    database connection, the sockets of the clients and the clocks. *)
Record Env := {
  PyFloat : Type;
  float_of_str : string -> option PyFloat;
  float_truthy : PyFloat -> bool;
  float_to_int : PyFloat -> exn + Z;
  float_str : PyFloat -> string;
  float_78 : PyFloat;
  float_72 : PyFloat;
  (** the k-th [mesh.write] is acknowledged *)
  mesh_write : nat -> bool;
  (** the k-th database transaction goes through *)
  db_up : nat -> bool;
  (** which of the rows that share the greatest date and time the k-th
      transaction gets: ORDER BY ... LIMIT 1 promises no order among
      them *)
  db_tie : nat -> nat;
  (** the k-th [sendall] to a client goes through *)
  client_write : nat -> bool;
  (** the k-th reading of [time.time()] *)
  time_time : nat -> Z;
  (** the k-th reading of [datetime.now()], [datetime.today()] or SQL NOW() *)
  datetime_now : nat -> Z
}.

Inductive level := Lrx | Ltx | Ldb | Linfo | Lwarn | Lerror.

Inductive effect :=
| Log (lv : level) (message : string) (node : option string)
| MeshUpdate
| MeshDhcp
| MeshWrite (node : Z) (payload : string) (ok : bool)
| Sleep
| DbInsert (timestamp : Z) (state : bool)
| ClientSend (client : nat) (text : string)
| Print (text : string)
| ImportController.

Record AckWait := {
  aw_node_id : Z;
  aw_start_time : Z;
  aw_timeout : Z
}.

(** A row of the table mesh_nodes. *)
Record MeshNode := {
  mn_node_id : Z;
  mn_name : string;
  mn_last_seen : option Z;
  mn_status : string;
  mn_last_message : option string
}.

(** The three tables the controller uses.  [ac_data] keeps its rows in
    the order of insertion, each with its date and time as one number. *)
Record Database := {
  ac_data : list (Z * bool);
  ac_settings : list (string * string);
  mesh_nodes : list MeshNode
}.

Record State := {
  (* globals of the module *)
  ac_allowed : bool;
  connected_clients : list Z;
  connect_fail_clients : list Z;
  last_known_temp : option string;
  node_status_last_update : list (Z * Z);
  node_last_heard : list (Z * Z);
  waiting_for_ack_state : option AckWait;
  (* locals of main *)
  last_ping_time : Z;
  last_temp_received_time : Z;
  warning_printed : bool;
  shutdown_executed : bool;
  (* the database and how much of the environment has been consumed *)
  db : Database;
  n_write : nat;
  n_db : nat;
  n_send : nat;
  n_time : nat;
  n_now : nat
}.

Definition set_ac_allowed (v : bool) (s : State) : State :=
  Build_State v (connected_clients s) (connect_fail_clients s) (last_known_temp s)
    (node_status_last_update s) (node_last_heard s) (waiting_for_ack_state s)
    (last_ping_time s) (last_temp_received_time s) (warning_printed s) (shutdown_executed s)
    (db s) (n_write s) (n_db s) (n_send s) (n_time s) (n_now s).
Definition set_connected_clients (v : list Z) (s : State) : State :=
  Build_State (ac_allowed s) v (connect_fail_clients s) (last_known_temp s)
    (node_status_last_update s) (node_last_heard s) (waiting_for_ack_state s)
    (last_ping_time s) (last_temp_received_time s) (warning_printed s) (shutdown_executed s)
    (db s) (n_write s) (n_db s) (n_send s) (n_time s) (n_now s).
Definition set_connect_fail_clients (v : list Z) (s : State) : State :=
  Build_State (ac_allowed s) (connected_clients s) v (last_known_temp s)
    (node_status_last_update s) (node_last_heard s) (waiting_for_ack_state s)
    (last_ping_time s) (last_temp_received_time s) (warning_printed s) (shutdown_executed s)
    (db s) (n_write s) (n_db s) (n_send s) (n_time s) (n_now s).
Definition set_last_known_temp (v : option string) (s : State) : State :=
  Build_State (ac_allowed s) (connected_clients s) (connect_fail_clients s) v
    (node_status_last_update s) (node_last_heard s) (waiting_for_ack_state s)
    (last_ping_time s) (last_temp_received_time s) (warning_printed s) (shutdown_executed s)
    (db s) (n_write s) (n_db s) (n_send s) (n_time s) (n_now s).
Definition set_node_status_last_update (v : list (Z * Z)) (s : State) : State :=
  Build_State (ac_allowed s) (connected_clients s) (connect_fail_clients s)
    (last_known_temp s) v (node_last_heard s) (waiting_for_ack_state s) (last_ping_time s)
    (last_temp_received_time s) (warning_printed s) (shutdown_executed s) (db s) (n_write s)
    (n_db s) (n_send s) (n_time s) (n_now s).
Definition set_node_last_heard (v : list (Z * Z)) (s : State) : State :=
  Build_State (ac_allowed s) (connected_clients s) (connect_fail_clients s)
    (last_known_temp s) (node_status_last_update s) v (waiting_for_ack_state s)
    (last_ping_time s) (last_temp_received_time s) (warning_printed s) (shutdown_executed s)
    (db s) (n_write s) (n_db s) (n_send s) (n_time s) (n_now s).
Definition set_waiting_for_ack_state (v : option AckWait) (s : State) : State :=
  Build_State (ac_allowed s) (connected_clients s) (connect_fail_clients s)
    (last_known_temp s) (node_status_last_update s) (node_last_heard s) v (last_ping_time s)
    (last_temp_received_time s) (warning_printed s) (shutdown_executed s) (db s) (n_write s)
    (n_db s) (n_send s) (n_time s) (n_now s).
Definition set_last_ping_time (v : Z) (s : State) : State :=
  Build_State (ac_allowed s) (connected_clients s) (connect_fail_clients s)
    (last_known_temp s) (node_status_last_update s) (node_last_heard s)
    (waiting_for_ack_state s) v (last_temp_received_time s) (warning_printed s)
    (shutdown_executed s) (db s) (n_write s) (n_db s) (n_send s) (n_time s) (n_now s).
Definition set_last_temp_received_time (v : Z) (s : State) : State :=
  Build_State (ac_allowed s) (connected_clients s) (connect_fail_clients s)
    (last_known_temp s) (node_status_last_update s) (node_last_heard s)
    (waiting_for_ack_state s) (last_ping_time s) v (warning_printed s) (shutdown_executed s)
    (db s) (n_write s) (n_db s) (n_send s) (n_time s) (n_now s).
Definition set_warning_printed (v : bool) (s : State) : State :=
  Build_State (ac_allowed s) (connected_clients s) (connect_fail_clients s)
    (last_known_temp s) (node_status_last_update s) (node_last_heard s)
    (waiting_for_ack_state s) (last_ping_time s) (last_temp_received_time s) v
    (shutdown_executed s) (db s) (n_write s) (n_db s) (n_send s) (n_time s) (n_now s).
Definition set_shutdown_executed (v : bool) (s : State) : State :=
  Build_State (ac_allowed s) (connected_clients s) (connect_fail_clients s)
    (last_known_temp s) (node_status_last_update s) (node_last_heard s)
    (waiting_for_ack_state s) (last_ping_time s) (last_temp_received_time s)
    (warning_printed s) v (db s) (n_write s) (n_db s) (n_send s) (n_time s) (n_now s).
Definition set_db (v : Database) (s : State) : State :=
  Build_State (ac_allowed s) (connected_clients s) (connect_fail_clients s)
    (last_known_temp s) (node_status_last_update s) (node_last_heard s)
    (waiting_for_ack_state s) (last_ping_time s) (last_temp_received_time s)
    (warning_printed s) (shutdown_executed s) v (n_write s) (n_db s) (n_send s) (n_time s)
    (n_now s).
Definition set_n_write (v : nat) (s : State) : State :=
  Build_State (ac_allowed s) (connected_clients s) (connect_fail_clients s)
    (last_known_temp s) (node_status_last_update s) (node_last_heard s)
    (waiting_for_ack_state s) (last_ping_time s) (last_temp_received_time s)
    (warning_printed s) (shutdown_executed s) (db s) v (n_db s) (n_send s) (n_time s)
    (n_now s).
Definition set_n_db (v : nat) (s : State) : State :=
  Build_State (ac_allowed s) (connected_clients s) (connect_fail_clients s)
    (last_known_temp s) (node_status_last_update s) (node_last_heard s)
    (waiting_for_ack_state s) (last_ping_time s) (last_temp_received_time s)
    (warning_printed s) (shutdown_executed s) (db s) (n_write s) v (n_send s) (n_time s)
    (n_now s).
Definition set_n_send (v : nat) (s : State) : State :=
  Build_State (ac_allowed s) (connected_clients s) (connect_fail_clients s)
    (last_known_temp s) (node_status_last_update s) (node_last_heard s)
    (waiting_for_ack_state s) (last_ping_time s) (last_temp_received_time s)
    (warning_printed s) (shutdown_executed s) (db s) (n_write s) (n_db s) v (n_time s)
    (n_now s).
Definition set_n_time (v : nat) (s : State) : State :=
  Build_State (ac_allowed s) (connected_clients s) (connect_fail_clients s)
    (last_known_temp s) (node_status_last_update s) (node_last_heard s)
    (waiting_for_ack_state s) (last_ping_time s) (last_temp_received_time s)
    (warning_printed s) (shutdown_executed s) (db s) (n_write s) (n_db s) (n_send s) v
    (n_now s).
Definition set_n_now (v : nat) (s : State) : State :=
  Build_State (ac_allowed s) (connected_clients s) (connect_fail_clients s)
    (last_known_temp s) (node_status_last_update s) (node_last_heard s)
    (waiting_for_ack_state s) (last_ping_time s) (last_temp_received_time s)
    (warning_printed s) (shutdown_executed s) (db s) (n_write s) (n_db s) (n_send s)
    (n_time s) v.

Definition set_ac_data (v : list (Z * bool)) (d : Database) : Database :=
  Build_Database v (ac_settings d) (mesh_nodes d).
Definition set_ac_settings (v : list (string * string)) (d : Database) : Database :=
  Build_Database (ac_data d) v (mesh_nodes d).
Definition set_mesh_nodes (v : list MeshNode) (d : Database) : Database :=
  Build_Database (ac_data d) (ac_settings d) v.

(* ====================================================================== *)
(** * A monad for state, trace and exceptions *)
(* ====================================================================== *)

(** A call either returns [a] or raises [e]; either way it leaves a state
    and the trace of what it did. *)
Inductive Outcome (T A : Type) :=
| Ok (a : A) (s : State) (tr : list T)
| Raised (e : exn) (s : State) (tr : list T).
Arguments Ok {T A} a s tr.
Arguments Raised {T A} e s tr.

Definition M (T A : Type) : Type := State -> Outcome T A.

Definition ret {T A} (a : A) : M T A := fun s => Ok a s [].

Definition bind {T A B} (m : M T A) (f : A -> M T B) : M T B :=
  fun s =>
    match m s with
    | Ok a s1 tr1 =>
        match f a s1 with
        | Ok b s2 tr2 => Ok b s2 (tr1 ++ tr2)%list
        | Raised e s2 tr2 => Raised e s2 (tr1 ++ tr2)%list
        end
    | Raised e s1 tr1 => Raised e s1 tr1
    end.

Definition raise {T A} (e : exn) : M T A := fun s => Raised e s [].

(** [try: m  except e: handler] for the exceptions selected by [catches]. *)
Definition try_except {T A} (m : M T A) (catches : exn -> bool) (handler : M T A) : M T A :=
  fun s =>
    match m s with
    | Ok a s1 tr1 => Ok a s1 tr1
    | Raised e s1 tr1 =>
        if catches e then
          match handler s1 with
          | Ok b s2 tr2 => Ok b s2 (tr1 ++ tr2)%list
          | Raised e2 s2 tr2 => Raised e2 s2 (tr1 ++ tr2)%list
          end
        else Raised e s1 tr1
    end.

Definition emit {T} (e : T) : M T unit := fun s => Ok tt s [e].
Definition gets {T A} (f : State -> A) : M T A := fun s => Ok (f s) s [].
Definition modify {T} (f : State -> State) : M T unit := fun s => Ok tt (f s) [].

(** The trace of [m] with every effect marked by [f]. *)
Definition relabel {T U A} (f : T -> U) (m : M T A) : M U A :=
  fun s =>
    match m s with
    | Ok a s1 tr => Ok a s1 (map f tr)
    | Raised e s1 tr => Raised e s1 (map f tr)
    end.

Definition when {T} (b : bool) (m : M T unit) : M T unit :=
  if b then m else ret tt.

(** [for x in xs: body(x)] over a list that the body does not change. *)
Fixpoint for_each {T X} (xs : list X) (body : X -> M T unit) : M T unit :=
  match xs with
  | [] => ret tt
  | x :: rest => bind (body x) (fun _ => for_each rest body)
  end.

Declare Scope m_scope.
Delimit Scope m_scope with m.
Notation "x <- m1 ;; m2" := (bind m1 (fun x => m2))
  (at level 61, m1 at next level, right associativity) : m_scope.
Notation "m1 ;; m2" := (bind m1 (fun _ => m2))
  (at level 61, right associativity) : m_scope.
Open Scope m_scope.

Definition trace_of {T A} (o : Outcome T A) : list T :=
  match o with Ok _ _ tr => tr | Raised _ _ tr => tr end.
Definition state_of {T A} (o : Outcome T A) : State :=
  match o with Ok _ s _ => s | Raised _ s _ => s end.

(* ====================================================================== *)
(** * The database, the radio and the node health monitor *)
(* ====================================================================== *)

(** The greatest timestamp of the event log. *)
Definition later (best : option Z) (r : Z * bool) : option Z :=
  match best with
  | None => Some (fst r)
  | Some t => Some (Z.max t (fst r))
  end.
Definition greatest (rows : list (Z * bool)) : option Z :=
  fold_left later rows None.

(** The rows that ORDER BY date DESC, time DESC puts first: those with
    the greatest timestamp. *)
Definition latest_rows (rows : list (Z * bool)) : list (Z * bool) :=
  match greatest rows with
  | Some t => filter (fun r => fst r =? t) rows
  | None => []
  end.

(** The row that LIMIT 1 selects of them: the order among rows of equal
    date and time is the database's [choice]. *)
Definition latest_row (choice : nat) (rows : list (Z * bool)) : option (Z * bool) :=
  nth_error (latest_rows rows) (Nat.modulo choice (List.length (latest_rows rows))).

(** [datetime.strptime(f"{date} {time}", '%Y-%m-%d %H:%M:%S.%f')] on the
    date and the time of a row: the text of a [datetime.time] has no
    fraction when its microseconds are zero, the format then does not
    match and [None] stands for the [ValueError]. *)
Definition strptime (timestamp : Z) : option Z :=
  if timestamp mod SECOND =? 0 then None else Some timestamp.

(** The text of an exception ([str(error)]) comes from the library that
    raises it (psycopg2, [strptime], the socket), not from the
    controller; this stands for it. *)
Definition db_error : string := "<error>".
Definition socket_error : string := "<error>".

Definition bool_str (b : bool) : string := if b then "True" else "False".
Definition bit (b : bool) : string := Py.str_int (if b then 1 else 0).
Definition node_str (n : Z) : string := "Node " ++ Py.str_int n.
Definition repr_list (l : list Z) : string :=
  "[" ++ Py.join ", " (map Py.str_int l) ++ "]".

Definition opt_bool_eqb (o : option bool) (b : bool) : bool :=
  match o with Some x => Bool.eqb x b | None => false end.

(** ORDER BY node_id *)
Fixpoint insert_node (r : MeshNode) (l : list MeshNode) : list MeshNode :=
  match l with
  | [] => [r]
  | r' :: rest =>
      if mn_node_id r <? mn_node_id r' then r :: l else r' :: insert_node r rest
  end.
Definition order_by_node_id (l : list MeshNode) : list MeshNode :=
  fold_left (fun acc r => insert_node r acc) l [].

Definition touch_node (node_id sqlnow : Z) (message : option string) (r : MeshNode) : MeshNode :=
  if mn_node_id r =? node_id then
    Build_MeshNode (mn_node_id r) (mn_name r) (Some sqlnow) "online"
      (match message with Some m => Some m | None => mn_last_message r end)
  else r.

Definition offline_node (node_id : Z) (r : MeshNode) : MeshNode :=
  if mn_node_id r =? node_id then
    Build_MeshNode (mn_node_id r) (mn_name r) (mn_last_seen r) "offline" (mn_last_message r)
  else r.

Section Controller.
Context (E : Env).

Definition log (lv : level) (message : string) : M effect unit :=
  emit (Log lv message None).
Definition log_node (lv : level) (message : string) (node : Z) : M effect unit :=
  emit (Log lv message (Some (node_str node))).

(** [time.time()] *)
Definition read_time : M effect Z :=
  fun s => Ok (time_time E (n_time s)) (set_n_time (S (n_time s)) s) [].
(** [datetime.now()] *)
Definition read_now : M effect Z :=
  fun s => Ok (datetime_now E (n_now s)) (set_n_now (S (n_now s)) s) [].
(** Connect, execute, commit: [false] when psycopg2 raises. *)
Definition db_transaction : M effect bool :=
  fun s => Ok (db_up E (n_db s)) (set_n_db (S (n_db s)) s) [].
(** [client_socket.sendall(text.encode('utf-8'))]: [false] when it
    raises. *)
Definition sendall (client : nat) (text : string) : M effect bool :=
  fun s =>
    Ok (client_write E (n_send s)) (set_n_send (S (n_send s)) s) [ClientSend client text].
(** [mesh.write(payload, ord('M'), node)] *)
Definition radio_write (node : Z) (payload : string) : M effect bool :=
  fun s =>
    let ok := mesh_write E (n_write s) in
    Ok ok (set_n_write (S (n_write s)) s) [MeshWrite node payload ok].

(** Connect, [SELECT ... FROM ac_data ORDER BY date DESC, time DESC
    LIMIT 1] and [fetchone]: the outer [None] when psycopg2 raises, the
    inner one when the table is empty. *)
Definition select_last : M effect (option (option (Z * bool))) :=
  fun s =>
    Ok (if db_up E (n_db s)
        then Some (latest_row (db_tie E (n_db s)) (ac_data (db s)))
        else None)
       (set_n_db (S (n_db s)) s) [].

Definition get_last_ac_state : M effect (option bool * option Z) :=
  result <- select_last ;;
  match result with
  | Some (Some (timestamp, state)) =>
      match strptime timestamp with
      | Some parsed => ret (Some state, Some parsed)
      | None =>
          log Lerror ("DB read error: " ++ db_error) ;;
          ret (None, None)
      end
  | Some None => ret (None, None)
  | None =>
      log Lerror ("DB read error: " ++ db_error) ;;
      ret (None, None)
  end.

Definition get_ac_state : M effect bool :=
  result <- select_last ;;
  match result with
  | Some (Some (_, state)) => ret state
  | Some None => ret false
  | None =>
      log Lerror ("DB get AC state error: " ++ db_error) ;;
      ret false
  end.

Definition database_log (state : bool) : M effect unit :=
  last <- get_last_ac_state ;;
  if opt_bool_eqb (fst last) state then ret tt
  else
    ok <- db_transaction ;;
    if ok then
      today <- read_now ;;
      now <- read_now ;;
      let timestamp := (today / DAY) * DAY + now mod DAY in
      modify (fun s => set_db (set_ac_data (ac_data (db s) ++ [(timestamp, state)])%list (db s)) s) ;;
      emit (DbInsert timestamp state) ;;
      log Ldb ("AC state logged: " ++ (if state then "ON" else "OFF"))
    else
      log Lerror ("DB write error: " ++ db_error).

Definition upsert (key value : string) (d : Database) : Database :=
  set_ac_settings (Py.dict_set String.eqb key value (ac_settings d)) d.

Definition save_temps (max_temp min_temp : string) : M effect bool :=
  ok <- db_transaction ;;
  if ok then
    modify (fun s => set_db (upsert "min_temp" min_temp (upsert "max_temp" max_temp (db s))) s) ;;
    log Ldb ("Temps saved: max=" ++ max_temp ++ ", min=" ++ min_temp) ;;
    ret true
  else
    log Lerror ("DB save temps error: " ++ db_error) ;;
    ret false.

(** [float(row['value'])] for a row that may be missing; the outer
    [None] is the [ValueError]. *)
Definition float_of_row (row : option string) : option (option (PyFloat E)) :=
  match row with
  | None => Some None
  | Some v =>
      match float_of_str E v with
      | Some f => Some (Some f)
      | None => None
      end
  end.

Definition get_temps : M effect (PyFloat E * PyFloat E) :=
  ok <- db_transaction ;;
  if ok then
    settings <- gets (fun s => ac_settings (db s)) ;;
    match float_of_row (Py.dict_get String.eqb "max_temp" settings),
          float_of_row (Py.dict_get String.eqb "min_temp" settings) with
    | Some (Some max_temp), Some (Some min_temp) => ret (max_temp, min_temp)
    | Some _, Some _ =>
        log Lwarn "Temps not in database, using defaults (78/72)" ;;
        ret (float_78 E, float_72 E)
    | _, _ =>
        log Lerror ("DB read temps error: " ++ db_error) ;;
        ret (float_78 E, float_72 E)
    end
  else
    log Lerror ("DB read temps error: " ++ db_error) ;;
    ret (float_78 E, float_72 E).

Definition save_ac_allowed (allowed : bool) : M effect bool :=
  ok <- db_transaction ;;
  if ok then
    modify (fun s => set_db (upsert "ac_allowed" (bool_str allowed) (db s)) s) ;;
    log Ldb ("AC allowed saved: " ++ bool_str allowed) ;;
    ret true
  else
    log Lerror ("DB save ac_allowed error: " ++ db_error) ;;
    ret false.

Definition get_ac_allowed : M effect bool :=
  ok <- db_transaction ;;
  if ok then
    settings <- gets (fun s => ac_settings (db s)) ;;
    match Py.dict_get String.eqb "ac_allowed" settings with
    | Some v => ret (String.eqb v "True")
    | None =>
        log Linfo "ac_allowed not in database, defaulting to False" ;;
        ret false
    end
  else
    log Lerror ("DB read ac_allowed error: " ++ db_error) ;;
    ret false.

Definition update_node_status (node_id : Z) (message : option string) : M effect unit :=
  now <- read_time ;;
  last_update <- gets (fun s =>
    match Py.dict_get Z.eqb node_id (node_status_last_update s) with
    | Some t => t
    | None => 0
    end) ;;
  if now - last_update <? NODE_STATUS_DB_INTERVAL then ret tt
  else
    ok <- db_transaction ;;
    if ok then
      sqlnow <- read_now ;;
      modify (fun s => set_db (set_mesh_nodes
                (map (touch_node node_id sqlnow message) (mesh_nodes (db s))) (db s)) s) ;;
      modify (fun s => set_node_status_last_update
                (Py.dict_set Z.eqb node_id now (node_status_last_update s)) s)
    else
      log Lerror ("DB update node status error: " ++ db_error).

Definition mark_node_offline (node_id : Z) : M effect unit :=
  ok <- db_transaction ;;
  if ok then
    modify (fun s => set_db (set_mesh_nodes
              (map (offline_node node_id) (mesh_nodes (db s))) (db s)) s)
  else
    log Lerror ("DB mark node offline error: " ++ db_error).

Definition get_known_nodes : M effect (list MeshNode) :=
  ok <- db_transaction ;;
  if ok then gets (fun s => order_by_node_id (mesh_nodes (db s)))
  else
    log Lerror ("DB get known nodes error: " ++ db_error) ;;
    ret [].

(** The body of [for attempt in range(3)] and what follows the loop. *)
Fixpoint send_attempts (attempts : list Z) (node_id : Z) (message : string) : M effect bool :=
  match attempts with
  | [] =>
      emit (Log Lerror ("Failed to send '" ++ Codec.describe_message message ++ "' after 3 attempts")
              (Some (node_str node_id))) ;;
      ret false
  | attempt :: rest =>
      emit MeshUpdate ;;
      when (MESH_NODE_ID =? 0) (emit MeshDhcp) ;;
      ok <- radio_write node_id message ;;
      if ok then
        emit (Log Ltx (Codec.describe_message message) (Some (node_str node_id))) ;;
        ret true
      else
        when (attempt <? 2) (emit Sleep) ;;
        send_attempts rest node_id message
  end.

Definition send_message_to_node (node_id : Z) (message : string) : M effect bool :=
  send_attempts [0; 1; 2] node_id message.

(** [int(x)] for a float [x]. *)
Definition int_of_float (x : PyFloat E) : M effect Z :=
  match float_to_int E x with
  | inl e => raise e
  | inr n => ret n
  end.

Definition send_settings_to_node : M effect string :=
  temps <- get_temps ;;
  x <- int_of_float (fst temps) ;;
  n <- int_of_float (snd temps) ;;
  l <- gets ac_allowed ;;
  a <- get_ac_state ;;
  let packet := Codec.build_packet
    [("x", Py.str_int x); ("n", Py.str_int n); ("l", bit l); ("a", bit a)] in
  send_message_to_node NODE_TEMP_LCD packet ;;
  ret packet.

Definition toggle_ac_allowed : M effect unit :=
  modify (fun s => set_ac_allowed (negb (ac_allowed s)) s) ;;
  allowed <- gets ac_allowed ;;
  save_ac_allowed allowed ;;
  log Linfo ("AC permission " ++ (if allowed then "enabled" else "disabled")) ;;
  send_message_to_node NODE_TEMP_LCD (Codec.build_packet [("l", bit allowed)]) ;;
  ret tt.

Definition ping_node (node_id : Z) : M effect unit :=
  last_heard <- gets (fun s =>
    match Py.dict_get Z.eqb node_id (node_last_heard s) with
    | Some t => t
    | None => 0
    end) ;;
  now <- read_time ;;
  if now - last_heard <? PING_INTERVAL then ret tt
  else
    sent <- send_message_to_node node_id (Codec.build_packet [("k", Py.str_int 1)]) ;;
    if negb sent then
      modify (fun s => set_connect_fail_clients (connect_fail_clients s ++ [node_id])%list s) ;;
      modify (fun s =>
        if Py.mem node_id (connected_clients s)
        then set_connected_clients (Py.remove_first node_id (connected_clients s)) s
        else s) ;;
      mark_node_offline node_id
    else
      modify (fun s =>
        if negb (Py.mem node_id (connected_clients s))
        then set_connected_clients (connected_clients s ++ [node_id])%list s
        else s) ;;
      modify (fun s =>
        if Py.mem node_id (connect_fail_clients s)
        then set_connect_fail_clients (Py.remove_first node_id (connect_fail_clients s)) s
        else s).

Definition start_waiting_for_ack (node_id : Z) (timeout : Z) : M effect unit :=
  now <- read_time ;;
  modify (set_waiting_for_ack_state (Some (Build_AckWait node_id now timeout))).

(** [Some true]: recovered; [Some false]: timed out; [None]: still
    waiting, or nothing to wait for. *)
Definition wait_for_ack : M effect (option bool) :=
  w <- gets waiting_for_ack_state ;;
  match w with
  | None => ret None
  | Some st =>
      now <- read_time ;;
      let elapsed := now - aw_start_time st in
      failed <- gets connect_fail_clients ;;
      if negb (Py.mem (aw_node_id st) failed) then
        modify (set_waiting_for_ack_state None) ;; ret (Some true)
      else if aw_timeout st <=? elapsed then
        modify (set_waiting_for_ack_state None) ;; ret (Some false)
      else ret None
  end.

Definition handle_failed_clients : M effect unit :=
  failed <- gets connect_fail_clients ;;
  for_each failed (fun node_id =>
    log Lwarn ("Waiting for ACK from " ++ node_str node_id) ;;
    start_waiting_for_ack node_id ACK_TIMEOUT).

(** [client] is a node id or, as main calls it, a string; a string is in
    no list of node ids. *)
Definition handle_client_disconnection (client : string + Z) : M effect unit :=
  match client with
  | inl _ => ret tt
  | inr node_id =>
      modify (fun s =>
        if Py.mem node_id (connected_clients s)
        then set_connected_clients (Py.remove_first node_id (connected_clients s)) s
        else s)
  end.

(* ====================================================================== *)
(** * The main event loop *)
(* ====================================================================== *)

(** [socket_server.send_message_to_client]: [sendall] of the text.  When
    it raises, the error is printed and [from controller import
    handle_client_disconnection] runs: [ImportController] stands for that
    statement, which executes the module level of controller.py anew the
    first time when the program runs as [__main__].  The function it
    calls then removes nothing: the list it looks in holds node ids and
    never a socket. *)
Definition send_message_to_client (client : nat) (text : string) : M effect unit :=
  ok <- sendall client text ;;
  if ok then ret tt
  else
    emit (Print ("[ERROR] Failed to send message to client: " ++ socket_error)) ;;
    emit ImportController.

Definition send_ (node_id : Z) (message : string) : M effect unit :=
  send_message_to_node node_id message ;; ret tt.

(** s: sync request (keypad boot handshake). *)
Definition rule_s (current_node : Z) (packet : Codec.packet) : M effect unit :=
  when (Codec.has "s" packet) (
    log_node Linfo "Sync request - sending settings" current_node ;;
    temps <- get_temps ;;
    x <- (if float_truthy E (fst temps) then int_of_float (fst temps) else ret 78) ;;
    n <- (if float_truthy E (snd temps) then int_of_float (snd temps) else ret 70) ;;
    l <- gets ac_allowed ;;
    a <- get_ac_state ;;
    send_ current_node (Codec.build_packet
      [("x", Py.str_int x); ("n", Py.str_int n); ("l", bit l); ("a", bit a)])).

(** t: temperature update from the keypad. *)
Definition rule_t (current_node : Z) (packet : Codec.packet) : M effect unit :=
  match Codec.get "t" packet with
  | None => ret tt
  | Some t =>
      modify (set_last_known_temp (Some t)) ;;
      modify (set_warning_printed false) ;;
      modify (set_shutdown_executed false) ;;
      now <- read_time ;;
      modify (set_last_temp_received_time now) ;;
      when (negb (Codec.has "s" packet)) (
        a <- get_ac_state ;;
        send_ current_node (Codec.build_packet [("a", bit a)]))
  end.

(** The keypad's command: forward to the relay, then echo and log. *)
Definition relay_command (ac_state : bool) : M effect unit :=
  sent <- send_message_to_node NODE_AC_RELAY (Codec.build_packet [("a", bit ac_state)]) ;;
  if sent then
    send_ NODE_TEMP_LCD (Codec.build_packet [("a", bit ac_state)]) ;;
    database_log ac_state
  else
    log Lerror (if ac_state
                then "Failed to turn ON AC - AC_Interface not responding"
                else "Failed to turn OFF AC - AC_Interface not responding").

(** a: AC state; what it means depends on the node it comes from. *)
Definition rule_a (current_node : Z) (packet : Codec.packet) : M effect unit :=
  match Codec.get "a" packet with
  | None => ret tt
  | Some v =>
      when (negb (Codec.has "s" packet) && negb (Codec.has "t" packet)) (
        match Py.int v with
        | None => raise ValueError
        | Some n =>
            let ac_state := n =? 1 in
            if current_node =? NODE_AC_RELAY then database_log ac_state
            else if current_node =? NODE_TEMP_LCD then relay_command ac_state
            else ret tt
        end)
  end.

(** g: toggle the AC permission (from the keypad). *)
Definition rule_g (packet : Codec.packet) : M effect unit :=
  when (Codec.has "g" packet) (
    toggle_ac_allowed ;;
    allowed <- gets ac_allowed ;;
    when (negb allowed) (
      send_ NODE_AC_RELAY (Codec.build_packet [("a", Py.str_int 0)]) ;;
      send_ NODE_TEMP_LCD (Codec.build_packet [("a", Py.str_int 0)]) ;;
      database_log false)).

(** x/n: thresholds from the keypad (saved, not echoed). *)
Definition rule_xn (packet : Codec.packet) : M effect unit :=
  match Codec.get "x" packet, Codec.get "n" packet with
  | Some x, Some n =>
      when (negb (Codec.has "s" packet)) (save_temps x n ;; ret tt)
  | _, _ => ret tt
  end.

(** The state the controller answers with: the last one of the
    database unless it is missing or stale, in which case an off-event
    is logged first.  [None] stands for the stale case. *)
Definition fresh_state : M effect (option bool) :=
  last <- get_last_ac_state ;;
  match last with
  | (Some last_state, Some last_timestamp) =>
      now <- read_now ;;
      if now - last_timestamp <=? DB_STALE_THRESHOLD then ret (Some last_state)
      else ret None
  | _ => ret None
  end.

(** q: state query (the relay asks for the AC state of the database). *)
Definition rule_q (current_node : Z) (packet : Codec.packet) : M effect unit :=
  when (Codec.has "q" packet) (
    log_node Linfo "State query - sending AC state" current_node ;;
    fresh <- fresh_state ;;
    match fresh with
    | Some last_state =>
        send_ current_node (Codec.build_packet [("a", bit last_state)])
    | None =>
        database_log false ;;
        send_ current_node (Codec.build_packet [("a", Py.str_int 0)])
    end).

Definition dispatch (current_node : Z) (packet : Codec.packet) : M effect unit :=
  rule_s current_node packet ;;
  rule_t current_node packet ;;
  rule_a current_node packet ;;
  rule_g packet ;;
  rule_xn packet ;;
  rule_q current_node packet.

(** Track the node in memory and in the database. *)
Definition track_node (current_node : Z) (message : string) : M effect unit :=
  now <- read_time ;;
  modify (fun s => set_node_last_heard
            (Py.dict_set Z.eqb current_node now (node_last_heard s)) s) ;;
  connected <- gets connected_clients ;;
  when (negb (Py.mem current_node connected)) (
    modify (fun s => set_connected_clients (connected_clients s ++ [current_node])%list s) ;;
    clients <- gets connected_clients ;;
    log Linfo (node_str current_node ++ " joined, clients: " ++ repr_list clients)) ;;
  modify (fun s =>
    if Py.mem current_node (connect_fail_clients s)
    then set_connect_fail_clients (Py.remove_first current_node (connect_fail_clients s)) s
    else s) ;;
  update_node_status current_node (Some message).

(** One message read from the network: the node it comes from and its
    text, decoded and stripped. *)
Definition process_frame (frame : Z * string) : M effect unit :=
  let (current_node, message) := frame in
  log_node Lrx (Codec.describe_message message) current_node ;;
  track_node current_node message ;;
  when (Codec.is_packet message) (
    match Codec.parse_packet message with
    | Some packet => when (Codec.truthy packet) (dispatch current_node packet)
    | None => ret tt
    end).

Definition is_ValueError (e : exn) : bool :=
  match e with ValueError => true | _ => false end.
Definition is_ValueError_or_IndexError (e : exn) : bool :=
  match e with ValueError | IndexError => true | OverflowError => false end.

Definition cmd_AC_Status (client : nat) : M effect unit :=
  fresh <- fresh_state ;;
  match fresh with
  | Some last_state =>
      send_message_to_client client (if last_state then "AC is ON" else "AC is OFF")
  | None =>
      database_log false ;;
      send_message_to_client client "AC is OFF"
  end.

Definition cmd_turn (client : nat) (on : bool) : M effect unit :=
  sent <- send_message_to_node NODE_AC_RELAY (Codec.build_packet [("a", bit on)]) ;;
  if sent then
    send_ NODE_TEMP_LCD (Codec.build_packet [("a", bit on)]) ;;
    database_log on ;;
    send_message_to_client client (if on then "AC is ON" else "AC is OFF")
  else
    send_message_to_client client "Failed - AC_Interface not responding".

Definition cmd_setBrightness (client : nat) (user_input : string) : M effect unit :=
  try_except
    (match nth_error (Py.split ":" user_input) 1 with
     | None => raise IndexError
     | Some v =>
         match Py.int v with
         | None => raise ValueError
         | Some n =>
             let brightness := Z.max 0 (Z.min 100 n) in
             send_ NODE_TEMP_LCD (Codec.build_packet [("b", Py.str_int brightness)]) ;;
             log Linfo ("LED brightness set to " ++ Py.str_int brightness ++ "%")
         end
     end)
    is_ValueError_or_IndexError
    (send_message_to_client client "Invalid format: use setBrightness:0-100").

Definition cmd_setTemps (client : nat) (user_input : string) : M effect unit :=
  try_except
    (match Py.split ":" user_input with
     | [_; temps] =>
         match Py.split "," temps with
         | [max_temp; min_temp] =>
             save_temps (Py.strip max_temp) (Py.strip min_temp) ;;
             send_settings_to_node ;;
             ret tt
         | _ => raise ValueError
         end
     | _ => raise ValueError
     end)
    is_ValueError
    (send_message_to_client client "Invalid format: use setTemps:max,min").

Definition or_dashes (o : option string) : string :=
  match o with
  | Some (String c r) => String c r
  | _ => "---"
  end.

Definition cmd_status (client : nat) : M effect unit :=
  temp <- gets (fun s => or_dashes (last_known_temp s)) ;;
  ac_state <- get_ac_state ;;
  temps <- get_temps ;;
  let max_str := if float_truthy E (fst temps) then float_str E (fst temps) else "---" in
  let min_str := if float_truthy E (snd temps) then float_str E (snd temps) else "---" in
  allowed <- gets ac_allowed ;;
  nodes <- get_known_nodes ;;
  let node_parts := map (fun n => mn_name n ++ "=" ++ mn_status n) nodes in
  let nodes_str := match node_parts with [] => "---" | _ => Py.join ";" node_parts end in
  send_message_to_client client
    ("status:temp=" ++ temp ++ ",ac=" ++ (if ac_state then "ON" else "OFF")
     ++ ",max=" ++ max_str ++ ",min=" ++ min_str
     ++ ",allow=" ++ bool_str allowed ++ ",nodes=" ++ nodes_str).

(** One item of the message queue: the client and what it sent. *)
Definition process_command (item : nat * string) : M effect unit :=
  let (client_socket, user_input) := item in
  emit (Log Lrx user_input (Some "Socket")) ;;
  if String.eqb user_input "AC_Status" then cmd_AC_Status client_socket
  else if String.eqb user_input "AC_Perm_Status" then
    allowed <- gets ac_allowed ;;
    send_message_to_client client_socket (bool_str allowed)
  else if String.eqb user_input "ToggleAC" then toggle_ac_allowed
  else if String.eqb user_input "TurnOnAC" then cmd_turn client_socket true
  else if String.eqb user_input "TurnOffAC" then cmd_turn client_socket false
  else if String.eqb user_input "getTemps" then
    temps <- get_temps ;;
    send_message_to_client client_socket
      ("Temps:" ++ float_str E (fst temps) ++ "," ++ float_str E (snd temps))
  else if String.eqb user_input "ResetNode" then
    success <- send_message_to_node NODE_AC_RELAY (Codec.build_packet [("r", Py.str_int 1)]) ;;
    send_message_to_client client_socket
      (if success then "ResetNode Success" else "ResetNode Failed")
  else if String.eqb user_input "current_temp" then
    temp <- gets (fun s => or_dashes (last_known_temp s)) ;;
    send_message_to_client client_socket temp
  else if String.eqb user_input "shut_down" then
    log Linfo "Socket client disconnected" ;;
    handle_client_disconnection (inl "mobile")
  else if Py.startswith "setBrightness:" user_input then
    cmd_setBrightness client_socket user_input
  else if Py.startswith "setTemps:" user_input then
    cmd_setTemps client_socket user_input
  else if String.eqb user_input "status" then cmd_status client_socket
  else send_message_to_client client_socket ("Unknown command: " ++ user_input).

Definition safety_watchdog (current_time : Z) : M effect unit :=
  warned <- gets warning_printed ;;
  last <- gets last_temp_received_time ;;
  when (negb warned && (TEMP_WARNING_TIMEOUT <? current_time - last)) (
    log Lwarn "No temperature received in 90s" ;;
    modify (set_warning_printed true)) ;;
  done <- gets shutdown_executed ;;
  when (negb done && (TEMP_SAFETY_TIMEOUT <? current_time - last)) (
    log Lerror "No temperature in 120s - safety check" ;;
    on <- get_ac_state ;;
    when on (
      log Lerror "Turning off AC due to temp timeout" ;;
      send_ NODE_AC_RELAY (Codec.build_packet [("a", Py.str_int 0)]) ;;
      database_log false) ;;
    modify (set_shutdown_executed true)).

(** [for client in connected_clients: ping_node(client)].  The loop
    walks the list by position while [ping_node] removes from the same
    list; [fuel] bounds the number of turns. *)
Fixpoint ping_sweep (fuel : nat) (i : nat) : M effect unit :=
  match fuel with
  | O => ret tt
  | S fuel' =>
      clients <- gets connected_clients ;;
      match nth_error clients i with
      | None => ret tt
      | Some client => ping_node client ;; ping_sweep fuel' (S i)
      end
  end.

Definition health_checks (current_time : Z) : M effect unit :=
  last_ping <- gets last_ping_time ;;
  when (PING_INTERVAL <=? current_time - last_ping) (
    turns <- gets (fun s => List.length (connected_clients s)) ;;
    ping_sweep turns 0 ;;
    modify (set_last_ping_time current_time) ;;
    failed <- gets connect_fail_clients ;;
    when (match failed with [] => false | _ => true end) handle_failed_clients).

Definition ack_poll : M effect unit :=
  ack_result <- wait_for_ack ;;
  match ack_result with
  | Some true => log Linfo "ACK received, node recovered"
  | Some false => log Lwarn "ACK timeout - node may be offline"
  | None => ret tt
  end.

Definition mesh_updates (inbox : list (Z * string)) : M effect unit :=
  emit MeshUpdate ;;
  when (MESH_NODE_ID =? 0) (emit MeshDhcp) ;;
  for_each inbox process_frame.

Definition socket_messages (queue : list (nat * string)) : M effect unit :=
  for_each queue process_command.

End Controller.

(** The five parts of one iteration of the loop (and what precedes the
    loop), to mark the trace with. *)
Inductive phase := PStartup | PWatchdog | PHealth | PAckWait | PMesh | PSocket.

(** What one iteration finds: the frames the network has available and
    the items waiting in the message queue. *)
Record Input := {
  inbox : list (Z * string);
  queue : list (nat * string)
}.

Definition in_phase {A} (p : phase) (m : M effect A) : M (phase * effect) A :=
  relabel (pair p) m.

Definition iteration (E : Env) (inp : Input) : M (phase * effect) unit :=
  current_time <- in_phase PWatchdog (read_time E) ;;
  in_phase PWatchdog (safety_watchdog E current_time) ;;
  in_phase PHealth (health_checks E current_time) ;;
  in_phase PAckWait (ack_poll E) ;;
  in_phase PMesh (mesh_updates E (inbox inp)) ;;
  in_phase PSocket (socket_messages E (queue inp)).

(** [repr] of a list of [str]. *)
Definition repr_names (names : list string) : string :=
  "[" ++ Py.join ", " (map Py.repr_str names) ++ "]".

(** What main does before the loop. *)
Definition startup (E : Env) : M effect unit :=
  allowed <- get_ac_allowed E ;;
  modify (set_ac_allowed allowed) ;;
  log Linfo ("AC permission loaded: " ++ (if allowed then "enabled" else "disabled")) ;;
  known_nodes <- get_known_nodes E ;;
  when (match known_nodes with [] => false | _ => true end) (
    log Linfo ("Known nodes: " ++ repr_names (map mn_name known_nodes)) ;;
    log Linfo "Waiting for nodes to check in...") ;;
  t1 <- read_time E ;;
  modify (set_last_ping_time t1) ;;
  t2 <- read_time E ;;
  modify (set_last_temp_received_time t2) ;;
  modify (set_warning_printed false) ;;
  modify (set_shutdown_executed false).

(** The loop, for as many iterations as there are inputs. *)
Definition run (E : Env) (inputs : list Input) : M (phase * effect) unit :=
  for_each inputs (iteration E).

Definition main (E : Env) (inputs : list Input) : M (phase * effect) unit :=
  in_phase PStartup (startup E) ;;
  run E inputs.

(** The state when the module has been loaded, over a given database. *)
Definition boot (d : Database) : State :=
  {| ac_allowed := false;
     connected_clients := [];
     connect_fail_clients := [];
     last_known_temp := None;
     node_status_last_update := [];
     node_last_heard := [];
     waiting_for_ack_state := None;
     last_ping_time := 0;
     last_temp_received_time := 0;
     warning_printed := false;
     shutdown_executed := false;
     db := d;
     n_write := 0;
     n_db := 0;
     n_send := 0;
     n_time := 0;
     n_now := 0 |}.

(** The states the controller can be in after some iterations, or when an
    exception ends it. *)
Definition reachable (E : Env) (s : State) : Prop :=
  exists d inputs, state_of (main E inputs (boot d)) = s.


(* ====================================================================== *)
(** * What the properties are stated with *)
(* ====================================================================== *)

(** The two in-memory lists of node ids, and the two latches of the
    watchdog. *)
Definition sets (s : State) : list Z * list Z :=
  (connected_clients s, connect_fail_clients s).
Definition latch (s : State) : bool * bool :=
  (warning_printed s, shutdown_executed s).
Definition core (s : State) : (list Z * list Z) * (bool * bool) :=
  (sets s, latch s).

(** [m] leaves the observation [f] of the state as it found it, whether
    it returns or raises. *)
Definition keeps {T A X} (f : State -> X) (m : M T A) : Prop :=
  forall s, f (state_of (m s)) = f s.

(** From a state where [P] holds, [m] returns in a state where [Q] holds
    of its result, or raises in a state where [R] holds. *)
Definition triple {T A} (P : State -> Prop) (m : M T A)
    (Q : A -> State -> Prop) (R : State -> Prop) : Prop :=
  forall s, P s ->
    match m s with
    | Ok a s' _ => Q a s'
    | Raised _ s' _ => R s'
    end.

(** No node id is in the connected list and in the failed list. *)
Definition exclusive (s : State) : Prop :=
  forall n, ~ (In n (connected_clients s) /\ In n (connect_fail_clients s)).

(** What the loop maintains to keep the lists exclusive: neither list
    repeats a node. *)
Definition tidy_lists (cf : list Z * list Z) : Prop :=
  NoDup (fst cf) /\ NoDup (snd cf)
  /\ forall n, ~ (In n (fst cf) /\ In n (snd cf)).
Definition tidy (s : State) : Prop := tidy_lists (sets s).

(** [m] maintains [P], whether it returns or raises. *)
Definition preserves {T A} (P : State -> Prop) (m : M T A) : Prop :=
  triple P m (fun _ => P) P.

Definition phase_eqb (p q : phase) : bool :=
  match p, q with
  | PStartup, PStartup | PWatchdog, PWatchdog | PHealth, PHealth
  | PAckWait, PAckWait | PMesh, PMesh | PSocket, PSocket => true
  | _, _ => false
  end.

(** The effects of one phase in a marked trace. *)
Definition phase_trace (p : phase) (tr : list (phase * effect)) : list effect :=
  map snd (filter (fun e => phase_eqb (fst e) p) tr).

(** A frame that carries no temperature. *)
Definition silent_frame (frame : Z * string) : Prop :=
  match Codec.parse_packet (snd frame) with
  | Some packet => Codec.has "t" packet = false
  | None => True
  end.
Definition silent (inp : Input) : Prop := Forall silent_frame (inbox inp).

Definition is_insert (e : effect) : bool :=
  match e with DbInsert _ _ => true | _ => false end.
Definition is_write (e : effect) : bool :=
  match e with MeshWrite _ _ _ => true | _ => false end.
Definition is_write_to (node : Z) (e : effect) : bool :=
  match e with MeshWrite n _ _ => n =? node | _ => false end.
Definition is_client_send (e : effect) : bool :=
  match e with ClientSend _ _ => true | _ => false end.

(** One attempt of [send_message_to_node] as the trace shows it. *)
Definition attempt_trace (node_id : Z) (message : string) (ok : bool) : list effect :=
  [MeshUpdate; MeshDhcp; MeshWrite node_id message ok].

(** [k] failed attempts, each followed by the pause. *)
Fixpoint failed_attempts (k : nat) (node_id : Z) (message : string) : list effect :=
  match k with
  | O => []
  | S k' => (attempt_trace node_id message false ++ [Sleep] ++ failed_attempts k' node_id message)%list
  end.

Definition sent_log (node_id : Z) (message : string) : effect :=
  Log Ltx (Codec.describe_message message) (Some (node_str node_id)).
Definition failed_log (node_id : Z) (message : string) : effect :=
  Log Lerror ("Failed to send '" ++ Codec.describe_message message ++ "' after 3 attempts")
    (Some (node_str node_id)).

(** Half a second. *)
Definition HALF : Z := 500000.

(** An environment for examples: floats are integers, [time.time()]
    ticks a second per reading from [start] and [datetime.now()] from
    half a second after [start], the radio and the database answer as
    [radio] and [dbok] say, the database returns the first inserted of
    the rows that tie, and every client can be written to. *)
Definition example_env (radio dbok : nat -> bool) (start : Z) : Env :=
  {| PyFloat := Z;
     float_of_str := Py.int;
     float_truthy := fun x => negb (x =? 0);
     float_to_int := fun x => inr x;
     float_str := fun x => (Py.str_int x ++ ".0")%string;
     float_78 := 78;
     float_72 := 72;
     mesh_write := radio;
     db_up := dbok;
     db_tie := fun _ => 0%nat;
     client_write := fun _ => true;
     time_time := fun k => start + Z.of_nat k * SECOND;
     datetime_now := fun k => start + HALF + Z.of_nat k * SECOND |}.

Definition always (b : bool) : nat -> bool := fun _ => b.
Definition empty_db : Database :=
  {| ac_data := []; ac_settings := []; mesh_nodes := [] |}.

(** The characters of a string, and strings that hold none of [c]. *)
Definition chars (s : string) : list ascii := list_ascii_of_string s.
Definition lacks (c : ascii) (s : string) : Prop := ~ In c (chars s).

(** Two dicts are [==] in Python when they map the same keys to the same
    values, whatever the order of insertion. *)
Definition dict_equal (p q : Codec.packet) : Prop :=
  forall k, Codec.get k p = Codec.get k q.

(** A frame: no key comes twice, every key is one character, and no
    value holds the separator. *)
Definition frame_pair (kv : string * string) : Prop :=
  (exists c, fst kv = String c EmptyString) /\ lacks "," (snd kv).
Definition is_frame (f : Codec.packet) : Prop :=
  NoDup (map fst f) /\ Forall frame_pair f.

(** What the codec asks of a frame besides: no key is the separator and
    no value is empty. *)
Definition clean_pair (kv : string * string) : Prop :=
  fst kv <> "," /\ snd kv <> EmptyString.
Definition clean (f : Codec.packet) : Prop := Forall clean_pair f.

(** The timestamp that [database_log] writes from state [s]: the date of
    one reading of the clock and the time of day of the next. *)
Definition insert_stamp (E : Env) (s : State) : Z :=
  (datetime_now E (n_now s) / DAY) * DAY + datetime_now E (S (n_now s)) mod DAY.

(** The state [database_log] leaves when it has inserted a row. *)
Definition logged (E : Env) (b : bool) (s : State) : State :=
  set_db (set_ac_data (ac_data (db s) ++ [(insert_stamp E s, b)]) (db s))
    (set_n_now (2 + n_now s) (set_n_db (2 + n_db s) s)).

(** What [database_log] leaves in the trace when it has inserted a row. *)
Definition logged_trace (E : Env) (b : bool) (s : State) : list effect :=
  [DbInsert (insert_stamp E s) b;
   Log Ldb ("AC state logged: " ++ (if b then "ON" else "OFF")) None].

(** The last row of the event log, as the database returns it to a
    query made from state [s], and the state that it records. *)
Definition last_row (E : Env) (s : State) : option (Z * bool) :=
  latest_row (db_tie E (n_db s)) (ac_data (db s)).
Definition stored_state (E : Env) (s : State) : option bool :=
  option_map snd (last_row E s).

(** The last event is missing, or older than the staleness threshold
    when the clock is read next. *)
Definition stale (E : Env) (s : State) : Prop :=
  match last_row E s with
  | None => True
  | Some (timestamp, _) => DB_STALE_THRESHOLD < datetime_now E (n_now s) - timestamp
  end.

(** What [get_last_ac_state] makes of a query from state [s]: nothing
    when the database does not answer, has no row, or returns a row whose
    time does not parse. *)
Definition last_event (E : Env) (s : State) : option (Z * bool) :=
  if db_up E (n_db s) then
    match last_row E s with
    | Some (timestamp, state) =>
        match strptime timestamp with
        | Some parsed => Some (parsed, state)
        | None => None
        end
    | None => None
    end
  else None.

(** The line that [get_last_ac_state] logs from state [s], if any. *)
Definition read_error_log : effect := Log Lerror ("DB read error: " ++ db_error) None.
Definition read_trace (E : Env) (s : State) : list effect :=
  if db_up E (n_db s) then
    match last_row E s with
    | Some (timestamp, _) =>
        match strptime timestamp with Some _ => [] | None => [read_error_log] end
    | None => []
    end
  else [read_error_log].

(** The state that [database_log] compares with: that of the event
    [get_last_ac_state] returns. *)
Definition reported (E : Env) (s : State) : option bool :=
  option_map snd (last_event E s).

(** [database_log state] from [s] inserts a row: its read of the last
    event does not report [state], and the database takes the row. *)
Definition appends (E : Env) (state : bool) (s : State) : bool :=
  negb (opt_bool_eqb (reported E s) state) && db_up E (S (n_db s)).

(** What a failed [sendall] leaves behind, and the trace of
    [send_message_to_client] from state [s]. *)
Definition send_failure : list effect :=
  [Print ("[ERROR] Failed to send message to client: " ++ socket_error); ImportController].
Definition client_trace (E : Env) (s : State) (client : nat) (text : string) : list effect :=
  ClientSend client text :: (if client_write E (n_send s) then [] else send_failure).

Definition write_error_log : effect := Log Lerror ("DB write error: " ++ db_error) None.

(** What processing a frame does before it comes to the rule for [q]. *)
Definition before_query (E : Env) (current_node : Z) (message : string)
    (packet : Codec.packet) : M effect unit :=
  log_node Lrx (Codec.describe_message message) current_node ;;
  track_node E current_node message ;;
  rule_s E current_node packet ;;
  rule_t E current_node packet ;;
  rule_a E current_node packet ;;
  rule_g E packet ;;
  rule_xn E packet.

Definition query_log (current_node : Z) : effect :=
  Log Linfo "State query - sending AC state" (Some (node_str current_node)).

(** The state [fresh_state] leaves: the database has been asked, and
    the clock is read only if an event came back. *)
Definition queried (E : Env) (s : State) : State :=
  match last_event E s with
  | Some _ => set_n_now (S (n_now s)) (set_n_db (S (n_db s)) s)
  | None => set_n_db (S (n_db s)) s
  end.

(** A database that holds one event and nothing else. *)
Definition one_event_db (timestamp : Z) (state : bool) : Database :=
  {| ac_data := [(timestamp, state)]; ac_settings := []; mesh_nodes := [] |}.

(** An environment where everything works, 41 minutes after time 0. *)
Definition late_env : Env :=
  example_env (always true) (always true) (41 * 60 * SECOND).

(** One of the three writes of a send that starts in [s] is acknowledged. *)
Definition delivered (E : Env) (s : State) : bool :=
  mesh_write E (n_write s) || mesh_write E (1 + n_write s) || mesh_write E (2 + n_write s).

(** An environment where everything works, at time 0. *)
Definition good_env : Env := example_env (always true) (always true) 0.
(** An environment where the radio is never acknowledged. *)
Definition deaf_env : Env := example_env (always false) (always true) 0.

(** The outcome [o] with [f] applied to the state it leaves. *)
Definition map_state {T A} (f : State -> State) (o : Outcome T A) : Outcome T A :=
  match o with
  | Ok a s tr => Ok a (f s) tr
  | Raised e s tr => Raised e (f s) tr
  end.

(** [m] does not look at the permission flag. *)
Definition flag_blind {A} (m : M effect A) : Prop :=
  forall allowed s, m (set_ac_allowed allowed s) = map_state (set_ac_allowed allowed) (m s).

(** Node [n] is the one under ACK-wait. *)
Definition under_ack_wait (s : State) (n : Z) : Prop :=
  exists w, waiting_for_ack_state s = Some w /\ aw_node_id w = n.

Definition waiting_log (node_id : Z) : effect :=
  Log Lwarn ("Waiting for ACK from " ++ node_str node_id) None.

(** The state after [start_waiting_for_ack] for one node, and for the
    nodes of a list in turn. *)
Definition start_wait (E : Env) (s : State) (node_id : Z) : State :=
  set_waiting_for_ack_state
    (Some {| aw_node_id := node_id;
             aw_start_time := time_time E (n_time s);
             aw_timeout := ACK_TIMEOUT |})
    (set_n_time (S (n_time s)) s).
Definition start_waits (E : Env) (l : list Z) (s : State) : State :=
  fold_left (start_wait E) l s.

(** An environment where the radio is never acknowledged, 41 minutes
    after time 0. *)
Definition deaf_late_env : Env :=
  example_env (always false) (always true) (41 * 60 * SECOND).

(** [E] with a clock that advances 100 seconds from one reading of
    [time.time()] to the next. *)
Definition slow_polling (E : Env) : Env :=
  {| PyFloat := PyFloat E;
     float_of_str := float_of_str E;
     float_truthy := float_truthy E;
     float_to_int := float_to_int E;
     float_str := float_str E;
     float_78 := float_78 E;
     float_72 := float_72 E;
     mesh_write := mesh_write E;
     db_up := db_up E;
     db_tie := db_tie E;
     client_write := client_write E;
     time_time := fun k => Z.of_nat k * (100 * SECOND);
     datetime_now := datetime_now E |}.

(** [E] with a database that returns, of the rows that tie, the one
    that [choice] says. *)
Definition with_tie (E : Env) (choice : nat -> nat) : Env :=
  {| PyFloat := PyFloat E;
     float_of_str := float_of_str E;
     float_truthy := float_truthy E;
     float_to_int := float_to_int E;
     float_str := float_str E;
     float_78 := float_78 E;
     float_72 := float_72 E;
     mesh_write := mesh_write E;
     db_up := db_up E;
     db_tie := choice;
     client_write := client_write E;
     time_time := time_time E;
     datetime_now := datetime_now E |}.

(** [E] with clients whose sockets are closed. *)
Definition with_closed_sockets (E : Env) : Env :=
  {| PyFloat := PyFloat E;
     float_of_str := float_of_str E;
     float_truthy := float_truthy E;
     float_to_int := float_to_int E;
     float_str := float_str E;
     float_78 := float_78 E;
     float_72 := float_72 E;
     mesh_write := mesh_write E;
     db_up := db_up E;
     db_tie := db_tie E;
     client_write := always false;
     time_time := time_time E;
     datetime_now := datetime_now E |}.

(** Three nodes send a heartbeat; then nothing arrives. *)
Definition three_heartbeats : list Input :=
  [ {| inbox := [(1, "k1"); (2, "k1"); (3, "k1")]; queue := [] |};
    {| inbox := []; queue := [] |} ].

(** The lines of the watchdog. *)
Definition warn_log : effect := Log Lwarn "No temperature received in 90s" None.
Definition safety_log : effect := Log Lerror "No temperature in 120s - safety check" None.
Definition shutoff_log : effect := Log Lerror "Turning off AC due to temp timeout" None.

(** Phase [p] leaves nothing in the trace of [m]. *)
Definition quiet {A} (p : phase) (m : M (phase * effect) A) : Prop :=
  forall s, phase_trace p (trace_of (m s)) = [].

(** What follows the watchdog in an iteration. *)
Definition after_watchdog (E : Env) (inp : Input) (current_time : Z) : M (phase * effect) unit :=
  in_phase PHealth (health_checks E current_time) ;;
  in_phase PAckWait (ack_poll E) ;;
  in_phase PMesh (mesh_updates E (inbox inp)) ;;
  in_phase PSocket (socket_messages E (queue inp)).

(** A radio write of [a0] to the relay. *)
Definition is_off_write (e : effect) : Prop :=
  exists ok, e = MeshWrite NODE_AC_RELAY "a0" ok.

(** A heartbeat of the relay and a status request, then nothing. *)
Definition quiet_inputs : list Input :=
  [ {| inbox := [(1, "k1")]; queue := [(0%nat, "status")] |};
    {| inbox := []; queue := [] |};
    {| inbox := [(1, "k1")]; queue := [] |} ].

From Stdlib Require DecimalPos.

(* ====================================================================== *)
(** * What the further properties are stated with *)
(* ====================================================================== *)

(** A pair as [parse_packet] returns it: a one-character key and a value
    that is not empty and holds no separator. *)
Definition decoded_pair (kv : string * string) : Prop :=
  (exists c, fst kv = String c EmptyString)
  /\ snd kv <> EmptyString /\ lacks "," (snd kv).

(** A segment that [parse_packet] reads as a value of [key]: the key and
    one character at least. *)
Definition segment_of (key : ascii) (pair : string) : bool :=
  match pair with
  | String c (String _ _) => Ascii.eqb c key
  | _ => false
  end.

(** The keyword arguments of a call of [build_packet] whose values are
    all of type [int]. *)
Definition int_frame (kwargs : list (ascii * Z)) : Codec.packet :=
  map (fun kz => (String (fst kz) EmptyString, Py.str_int (snd kz))) kwargs.

(** When the node table was last written for a node, as
    [update_node_status] reads it. *)
Definition last_status_update (s : State) (node_id : Z) : Z :=
  match Py.dict_get Z.eqb node_id (node_status_last_update s) with
  | Some t => t
  | None => 0
  end.

(** What the node table holds for a node, its status apart: when the
    node was last seen and its last message, row by row. *)
Definition node_record (node_id : Z) (s : State) : list (option Z * option string) :=
  map (fun r => (mn_last_seen r, mn_last_message r))
    (filter (fun r => mn_node_id r =? node_id) (mesh_nodes (db s))).

(** Every reading of [time.time()] taken from state [s] up to state [s']
    comes less than 30 seconds after [t]. *)
Definition within_interval (E : Env) (t : Z) (s s' : State) : Prop :=
  forall k, (n_time s <= k < n_time s')%nat ->
    time_time E k - t < NODE_STATUS_DB_INTERVAL.

(** From [s] to [s'] the clock has only been read further, and if all
    these readings come less than 30 seconds after the time recorded for
    the node, the record and the rows of the node are as they were. *)
Definition throttled (E : Env) (node_id : Z) (s s' : State) : Prop :=
  (n_time s <= n_time s')%nat
  /\ (within_interval E (last_status_update s node_id) s s' ->
      last_status_update s' node_id = last_status_update s node_id
      /\ node_record node_id s' = node_record node_id s).

(** The state that [m] leaves is related by [R] to the one it found,
    whether it returns or raises. *)
Definition follows {T A} (R : State -> State -> Prop) (m : M T A) : Prop :=
  forall s, R s (state_of (m s)).

(** When a node was last heard, as [ping_node] reads it. *)
Definition last_heard (s : State) (node_id : Z) : Z :=
  match Py.dict_get Z.eqb node_id (node_last_heard s) with
  | Some t => t
  | None => 0
  end.

(** A database that holds one node of the mesh and nothing else. *)
Definition one_node_db (node_id : Z) (name : string) : Database :=
  {| ac_data := [];
     ac_settings := [];
     mesh_nodes := [ {| mn_node_id := node_id; mn_name := name; mn_last_seen := None;
                        mn_status := "unknown"; mn_last_message := None |} ] |}.

(** A heartbeat written to one of the nodes of [nodes]. *)
Definition probe_of (nodes : list Z) (e : effect) : Prop :=
  exists node_id ok, e = MeshWrite node_id "k1" ok /\ In node_id nodes.

(** Every other entry of a list, from the first one on; and the entries
    in between. *)
Fixpoint probed (l : list Z) : list Z :=
  match l with
  | a :: _ :: r => a :: probed r
  | _ => l
  end.
Definition skipped (l : list Z) : list Z := probed (tl l).

(** The radio writes of a send that is never acknowledged. *)
Definition failed_writes (node_id : Z) (message : string) : list effect :=
  [MeshWrite node_id message false; MeshWrite node_id message false;
   MeshWrite node_id message false].

(** [f] does not look at the field that [setter] sets. *)
Definition ignores {A X} (setter : A -> State -> State) (f : State -> X) : Prop :=
  forall v s, f (setter v s) = f s.

(** [f] looks at the memory of the controller only: not at the
    database, nor at how much of the environment has been consumed. *)
Definition in_memory {X} (f : State -> X) : Prop :=
  ignores set_db f /\ ignores set_n_write f /\ ignores set_n_db f
  /\ ignores set_n_send f /\ ignores set_n_time f /\ ignores set_n_now f.

(** [f] looks at nothing of what a temperature frame and the watchdog
    set. *)
Definition ignores_temperature {X} (f : State -> X) : Prop :=
  ignores set_last_known_temp f /\ ignores set_warning_printed f
  /\ ignores set_shutdown_executed f /\ ignores set_last_temp_received_time f.

(** [f] looks at nothing of what the tracking and the probing of nodes
    set. *)
Definition ignores_tracking {X} (f : State -> X) : Prop :=
  ignores set_node_last_heard f /\ ignores set_connected_clients f
  /\ ignores set_connect_fail_clients f /\ ignores set_node_status_last_update f.

(** What the controller keeps in memory about the nodes and the
    temperature: all of its state but the permission flag, the database
    and the use made of the environment. *)
Definition monitor (s : State) :=
  (connected_clients s, connect_fail_clients s, last_known_temp s,
   node_status_last_update s, node_last_heard s, waiting_for_ack_state s,
   last_ping_time s, last_temp_received_time s, warning_printed s,
   shutdown_executed s).

(** A frame that does not ask to toggle the permission, a command that
    does not, and an input that holds none of either. *)
Definition no_toggle_frame (frame : Z * string) : Prop :=
  match Codec.parse_packet (snd frame) with
  | Some packet => Codec.has "g" packet = false
  | None => True
  end.
Definition no_toggle_command (item : nat * string) : Prop :=
  snd item <> "ToggleAC".
Definition no_toggle (inp : Input) : Prop :=
  Forall no_toggle_frame (inbox inp) /\ Forall no_toggle_command (queue inp).

(** A radio write of [message] to [node_id], acknowledged or not. *)
Definition write_of (node_id : Z) (message : string) (e : effect) : Prop :=
  exists ok, e = MeshWrite node_id message ok.

(** The radio writes of one call of [send_message_to_node]: one at
    least, all of the same frame to the same node. *)
Definition writes_of (node_id : Z) (message : string) (ws : list effect) : Prop :=
  ws <> [] /\ Forall (write_of node_id message) ws.

(** The two commands that switch the AC. *)
Definition turn_command (on : bool) : string :=
  if on then "TurnOnAC" else "TurnOffAC".

(** An outage during which a client switches the AC on: nothing comes
    in, then [TurnOnAC], then nothing again. *)
Definition switched_on_in_outage : list Input :=
  [ {| inbox := []; queue := [(0%nat, "TurnOnAC")] |};
    {| inbox := []; queue := [] |} ].

(** The AC state that the controller answers for when asked in state
    [s]: that of the last event of the database, if the database can be
    read, the time of the event parses and the event is at most 40
    minutes old at the next reading of the clock. *)
Definition vouched (E : Env) (s : State) : option bool :=
  match last_event E s with
  | Some (timestamp, state) =>
      if datetime_now E (n_now s) - timestamp <=? DB_STALE_THRESHOLD
      then Some state else None
  | None => None
  end.

(** A threshold as the reply to a sync request carries it:
    [int(t) if t else default]. *)
Definition sync_value (E : Env) (t : PyFloat E) (default : Z) : exn + Z :=
  if float_truthy E t then float_to_int E t else inr default.

(** The frame that answers a sync request. *)
Definition sync_frame (x n : Z) (allowed on : bool) : list (ascii * Z) :=
  [("x"%char, x); ("n"%char, n);
   ("l"%char, if allowed then 1 else 0); ("a"%char, if on then 1 else 0)].

(** An environment where everything works and [float] knows one value
    that is not a number: it is accepted as text, is true, and [int]
    refuses it. *)
Definition nan_env : Env :=
  {| PyFloat := option Z;
     float_of_str := fun v =>
       if String.eqb v "nan" then Some None else option_map Some (Py.int v);
     float_truthy := fun x => match x with Some 0 => false | _ => true end;
     float_to_int := fun x => match x with Some n => inr n | None => inl ValueError end;
     float_str := fun x =>
       match x with Some n => (Py.str_int n ++ ".0")%string | None => "nan" end;
     float_78 := Some 78;
     float_72 := Some 72;
     mesh_write := always true;
     db_up := always true;
     db_tie := fun _ => 0%nat;
     client_write := always true;
     time_time := fun k => Z.of_nat k * SECOND;
     datetime_now := fun k => HALF + Z.of_nat k * SECOND |}.

(* ====================================================================== *)
(** * The clients of the socket server *)
(* ====================================================================== *)

(** [api/socket_client.py]: the text that each function sends. *)
Module SocketClient.

Definition set_temps (max_temp min_temp : Z) : string :=
  "setTemps:" ++ Py.str_int max_temp ++ "," ++ Py.str_int min_temp.

Definition set_brightness (level : Z) : string :=
  "setBrightness:" ++ Py.str_int level.

End SocketClient.

(** [mobileConsole.py]: the text that the console sends when the
    thresholds are locked in. *)
Module MobileConsole.

Definition set_temps (max_temp min_temp : Z) : string :=
  "setTemps: " ++ Py.str_int max_temp ++ "," ++ Py.str_int min_temp.

End MobileConsole.

(** The stored value of a setting. *)
Definition setting (key : string) (s : State) : option string :=
  Py.dict_get String.eqb key (ac_settings (db s)).

(* ====================================================================== *)
(** * Checks of the embedding on the examples of the source *)
(* ====================================================================== *)

Example int_examples :
  map Py.int ["1_0"; "_1"; "1_"; "1__0"; "+1"; "-0"; " 12 "; "- 1"; "010"; ""; "-"; "5"]
  = [Some 10; None; None; None; Some 1; Some 0; Some 12; None; Some 10; None; None; Some 5].
Proof. vm_compute. reflexivity. Qed.

Example codec_examples :
  Codec.parse_packet "x78,n62,a1,l1" = Some [("x","78"); ("n","62"); ("a","1"); ("l","1")]
  /\ Codec.parse_packet "t62.5,h45.2" = Some [("t","62.5"); ("h","45.2")]
  /\ Codec.build_packet [("x", Py.str_int 78); ("n", Py.str_int 62); ("a", Py.str_int 1); ("l", Py.str_int 1)]
     = "x78,n62,a1,l1"
  /\ Codec.is_packet "a1" = true /\ Codec.is_packet "TurnOnAC" = false /\ Codec.is_packet "x" = false
  /\ Codec.describe_message "a1,l0" = "a1,l0 (AC ON, Allow No)"
  /\ Py.split ":" "a:b:c" = ["a"; "b"; "c"] /\ Py.split "," "," = [""; ""]
  /\ Py.strip " a b " = "a b" /\ Py.str_int (-5) = "-5".
Proof. vm_compute. repeat split; reflexivity. Qed.

(* ====================================================================== *)
(** * Reasoning about the monad *)
(* ====================================================================== *)

Section KeepsRules.
Context {T X : Type} (f : State -> X).

Lemma keeps_ret A (a : A) : keeps f (@ret T A a).
Proof. intro s. reflexivity. Qed.

Lemma keeps_gets A (g : State -> A) : keeps f (@gets T A g).
Proof. intro s. reflexivity. Qed.

Lemma keeps_emit (e : T) : keeps f (emit e).
Proof. intro s. reflexivity. Qed.

Lemma keeps_raise A (e : exn) : keeps f (@raise T A e).
Proof. intro s. reflexivity. Qed.

Lemma keeps_modify (g : State -> State) :
  (forall s, f (g s) = f s) -> keeps f (@modify T g).
Proof. intros H s. apply H. Qed.

Lemma keeps_bind A B (m : M T A) (k : A -> M T B) :
  keeps f m -> (forall a, keeps f (k a)) -> keeps f (bind m k).
Proof.
  intros Hm Hk s. unfold bind.
  specialize (Hm s). destruct (m s) as [a s1 tr1 | e s1 tr1]; simpl in *.
  - specialize (Hk a s1). destruct (k a s1); simpl in *; congruence.
  - exact Hm.
Qed.

Lemma keeps_when (b : bool) (m : M T unit) : keeps f m -> keeps f (when b m).
Proof. intro H. destruct b; simpl; [exact H | apply keeps_ret]. Qed.

Lemma keeps_try_except A (m h : M T A) (c : exn -> bool) :
  keeps f m -> keeps f h -> keeps f (try_except m c h).
Proof.
  intros Hm Hh s. unfold try_except.
  specialize (Hm s). destruct (m s) as [a s1 tr1 | e s1 tr1]; simpl in *.
  - exact Hm.
  - destruct (c e); simpl; [ | exact Hm ].
    specialize (Hh s1). destruct (h s1); simpl in *; congruence.
Qed.

Lemma keeps_for_each Y (xs : list Y) (body : Y -> M T unit) :
  (forall x, keeps f (body x)) -> keeps f (for_each xs body).
Proof.
  intro H. induction xs as [ | x xs IH]; simpl.
  - apply keeps_ret.
  - apply keeps_bind; auto.
Qed.

End KeepsRules.

Lemma keeps_relabel {T U A X} (f : State -> X) (g : T -> U) (m : M T A) :
  keeps f m -> keeps f (relabel g m).
Proof.
  intros H s. unfold relabel. specialize (H s). destruct (m s); exact H.
Qed.

Lemma keeps_compose {T A X Y} (f : State -> X) (g : X -> Y) (m : M T A) :
  keeps f m -> keeps (fun s => g (f s)) m.
Proof. intros H s. rewrite H. reflexivity. Qed.

Lemma keeps_core_sets {T A} (m : M T A) : keeps core m -> keeps sets m.
Proof. intro H. exact (keeps_compose core fst m H). Qed.

Lemma keeps_core_latch {T A} (m : M T A) : keeps core m -> keeps latch m.
Proof. intro H. exact (keeps_compose core snd m H). Qed.

Create HintDb keeps.
#[local] Hint Resolve keeps_core_sets keeps_core_latch : keeps.

Ltac keeps_step :=
  lazymatch goal with
  | |- keeps _ (bind _ _) => apply keeps_bind; [ | intros ]
  | |- keeps _ (ret _) => apply keeps_ret
  | |- keeps _ (gets _) => apply keeps_gets
  | |- keeps _ (emit _) => apply keeps_emit
  | |- keeps _ (raise _) => apply keeps_raise
  | |- keeps _ (when _ _) => apply keeps_when
  | |- keeps _ (for_each _ _) => apply keeps_for_each; intros
  | |- keeps _ (try_except _ _ _) => apply keeps_try_except
  | |- keeps _ (relabel _ _) => apply keeps_relabel
  | |- keeps _ (modify _) =>
      apply keeps_modify; intros;
      repeat match goal with |- context [if ?b then _ else _] => destruct b end;
      reflexivity
  | |- keeps _ (match ?x with _ => _ end) => destruct x
  | |- keeps _ (let (_, _) := ?x in _) => destruct x
  | |- keeps _ _ => solve [auto 3 with keeps]
  end.

Ltac keeps_auto := repeat keeps_step.

Lemma keeps_log lv msg : keeps core (log lv msg).
Proof. unfold log. keeps_auto. Qed.

Lemma keeps_log_node lv msg n : keeps core (log_node lv msg n).
Proof. unfold log_node. keeps_auto. Qed.

Lemma keeps_read_time E : keeps core (read_time E).
Proof. intro s. reflexivity. Qed.

Lemma keeps_read_now E : keeps core (read_now E).
Proof. intro s. reflexivity. Qed.

Lemma keeps_db_transaction E : keeps core (db_transaction E).
Proof. intro s. reflexivity. Qed.

Lemma keeps_radio_write E n p : keeps core (radio_write E n p).
Proof. intro s. reflexivity. Qed.

Lemma keeps_select_last E : keeps core (select_last E).
Proof. intro s. reflexivity. Qed.

Lemma keeps_sendall E c t : keeps core (sendall E c t).
Proof. intro s. reflexivity. Qed.

#[local] Hint Resolve keeps_log keeps_log_node keeps_read_time keeps_read_now
  keeps_db_transaction keeps_radio_write keeps_select_last keeps_sendall : keeps.

Lemma keeps_get_last_ac_state E : keeps core (get_last_ac_state E).
Proof. unfold get_last_ac_state. keeps_auto. Qed.

Lemma keeps_get_ac_state E : keeps core (get_ac_state E).
Proof. unfold get_ac_state. keeps_auto. Qed.

#[local] Hint Resolve keeps_get_last_ac_state keeps_get_ac_state : keeps.

Lemma keeps_database_log E b : keeps core (database_log E b).
Proof. unfold database_log. keeps_auto. Qed.

Lemma keeps_save_temps E a b : keeps core (save_temps E a b).
Proof. unfold save_temps. keeps_auto. Qed.

Lemma keeps_get_temps E : keeps core (get_temps E).
Proof. unfold get_temps. keeps_auto. Qed.

Lemma keeps_save_ac_allowed E b : keeps core (save_ac_allowed E b).
Proof. unfold save_ac_allowed. keeps_auto. Qed.

Lemma keeps_get_ac_allowed E : keeps core (get_ac_allowed E).
Proof. unfold get_ac_allowed. keeps_auto. Qed.

Lemma keeps_update_node_status E n m : keeps core (update_node_status E n m).
Proof. unfold update_node_status. keeps_auto. Qed.

Lemma keeps_mark_node_offline E n : keeps core (mark_node_offline E n).
Proof. unfold mark_node_offline. keeps_auto. Qed.

Lemma keeps_get_known_nodes E : keeps core (get_known_nodes E).
Proof. unfold get_known_nodes. keeps_auto. Qed.

Lemma keeps_send_attempts E l n m : keeps core (send_attempts E l n m).
Proof. induction l as [ | a l IH]; simpl; keeps_auto. Qed.

Lemma keeps_send_message_to_node E n m : keeps core (send_message_to_node E n m).
Proof. apply keeps_send_attempts. Qed.

#[local] Hint Resolve keeps_database_log keeps_save_temps keeps_get_temps
  keeps_save_ac_allowed keeps_get_ac_allowed keeps_update_node_status
  keeps_mark_node_offline keeps_get_known_nodes keeps_send_message_to_node : keeps.

Lemma keeps_int_of_float E x : keeps core (int_of_float E x).
Proof. unfold int_of_float. keeps_auto. Qed.

Lemma keeps_send_ E n m : keeps core (send_ E n m).
Proof. unfold send_. keeps_auto. Qed.

Lemma keeps_send_message_to_client E c t : keeps core (send_message_to_client E c t).
Proof. unfold send_message_to_client. keeps_auto. Qed.

#[local] Hint Resolve keeps_int_of_float keeps_send_ keeps_send_message_to_client : keeps.

Lemma keeps_send_settings_to_node E : keeps core (send_settings_to_node E).
Proof. unfold send_settings_to_node. keeps_auto. Qed.

Lemma keeps_toggle_ac_allowed E : keeps core (toggle_ac_allowed E).
Proof. unfold toggle_ac_allowed. keeps_auto. Qed.

Lemma keeps_start_waiting_for_ack E n t : keeps core (start_waiting_for_ack E n t).
Proof. unfold start_waiting_for_ack. keeps_auto. Qed.

Lemma keeps_wait_for_ack E : keeps core (wait_for_ack E).
Proof. unfold wait_for_ack. keeps_auto. Qed.

#[local] Hint Resolve keeps_send_settings_to_node keeps_toggle_ac_allowed
  keeps_start_waiting_for_ack keeps_wait_for_ack : keeps.

Lemma keeps_handle_failed_clients E : keeps core (handle_failed_clients E).
Proof. unfold handle_failed_clients. keeps_auto. Qed.

Lemma keeps_rule_s E n p : keeps core (rule_s E n p).
Proof. unfold rule_s. keeps_auto. Qed.

Lemma keeps_relay_command E b : keeps core (relay_command E b).
Proof. unfold relay_command. keeps_auto. Qed.

#[local] Hint Resolve keeps_handle_failed_clients keeps_rule_s keeps_relay_command : keeps.

Lemma keeps_rule_a E n p : keeps core (rule_a E n p).
Proof. unfold rule_a. keeps_auto. Qed.

Lemma keeps_rule_g E p : keeps core (rule_g E p).
Proof. unfold rule_g. keeps_auto. Qed.

Lemma keeps_rule_xn E p : keeps core (rule_xn E p).
Proof. unfold rule_xn. keeps_auto. Qed.

Lemma keeps_fresh_state E : keeps core (fresh_state E).
Proof. unfold fresh_state. keeps_auto. Qed.

#[local] Hint Resolve keeps_rule_a keeps_rule_g keeps_rule_xn keeps_fresh_state : keeps.

Lemma keeps_rule_q E n p : keeps core (rule_q E n p).
Proof. unfold rule_q. keeps_auto. Qed.

Lemma keeps_cmd_AC_Status E c : keeps core (cmd_AC_Status E c).
Proof. unfold cmd_AC_Status. keeps_auto. Qed.

Lemma keeps_cmd_turn E c b : keeps core (cmd_turn E c b).
Proof. unfold cmd_turn. keeps_auto. Qed.

Lemma keeps_cmd_setBrightness E c u : keeps core (cmd_setBrightness E c u).
Proof. unfold cmd_setBrightness. keeps_auto. Qed.

Lemma keeps_cmd_setTemps E c u : keeps core (cmd_setTemps E c u).
Proof. unfold cmd_setTemps. keeps_auto. Qed.

Lemma keeps_cmd_status E c : keeps core (cmd_status E c).
Proof. unfold cmd_status. keeps_auto. Qed.

#[local] Hint Resolve keeps_rule_q keeps_cmd_AC_Status keeps_cmd_turn
  keeps_cmd_setBrightness keeps_cmd_setTemps keeps_cmd_status : keeps.

Lemma keeps_process_command E item : keeps core (process_command E item).
Proof.
  unfold process_command. destruct item as [c u].
  unfold handle_client_disconnection. keeps_auto.
Qed.

#[local] Hint Resolve keeps_process_command : keeps.

Lemma keeps_socket_messages E q : keeps core (socket_messages E q).
Proof. unfold socket_messages. keeps_auto. Qed.

Lemma keeps_ack_poll E : keeps core (ack_poll E).
Proof. unfold ack_poll. keeps_auto. Qed.

#[local] Hint Resolve keeps_socket_messages keeps_ack_poll : keeps.

(** What touches the lists leaves the latches alone, and the other way
    round. *)

Lemma keeps_sets_rule_t E n p : keeps sets (rule_t E n p).
Proof. unfold rule_t. keeps_auto. Qed.

#[local] Hint Resolve keeps_sets_rule_t : keeps.

Lemma keeps_sets_dispatch E n p : keeps sets (dispatch E n p).
Proof. unfold dispatch. keeps_auto. Qed.

Lemma keeps_sets_safety_watchdog E t : keeps sets (safety_watchdog E t).
Proof. unfold safety_watchdog. keeps_auto. Qed.

Lemma keeps_latch_ping_node E n : keeps latch (ping_node E n).
Proof. unfold ping_node. keeps_auto. Qed.

#[local] Hint Resolve keeps_sets_dispatch keeps_sets_safety_watchdog keeps_latch_ping_node : keeps.

Lemma keeps_latch_ping_sweep E fuel i : keeps latch (ping_sweep E fuel i).
Proof. revert i. induction fuel as [ | fuel IH]; intro i; simpl; keeps_auto. Qed.

#[local] Hint Resolve keeps_latch_ping_sweep : keeps.

Lemma keeps_latch_health_checks E t : keeps latch (health_checks E t).
Proof. unfold health_checks. keeps_auto. Qed.

Lemma keeps_latch_track_node E n m : keeps latch (track_node E n m).
Proof. unfold track_node. keeps_auto. Qed.

#[local] Hint Resolve keeps_latch_health_checks keeps_latch_track_node : keeps.

(* ====================================================================== *)
(** * Sending to a node *)
(* ====================================================================== *)

Lemma send_message_to_node_cases E node_id message s :
  send_message_to_node E node_id message s =
    if mesh_write E (n_write s) then
      Ok true (set_n_write (1 + n_write s) s)
        (attempt_trace node_id message true ++ [sent_log node_id message])
    else if mesh_write E (1 + n_write s) then
      Ok true (set_n_write (2 + n_write s) s)
        (failed_attempts 1 node_id message
         ++ attempt_trace node_id message true ++ [sent_log node_id message])
    else if mesh_write E (2 + n_write s) then
      Ok true (set_n_write (3 + n_write s) s)
        (failed_attempts 2 node_id message
         ++ attempt_trace node_id message true ++ [sent_log node_id message])
    else
      Ok false (set_n_write (3 + n_write s) s)
        (failed_attempts 2 node_id message
         ++ attempt_trace node_id message false ++ [failed_log node_id message]).
Proof.
  unfold send_message_to_node, send_attempts, bind, emit, when, ret, radio_write.
  simpl.
  destruct (mesh_write E (n_write s)) eqn:W0; simpl; [reflexivity | ].
  destruct (mesh_write E (S (n_write s))) eqn:W1; simpl; [reflexivity | ].
  destruct (mesh_write E (S (S (n_write s)))) eqn:W2; simpl; reflexivity.
Qed.

(** C6.  Whatever the radio does, [send_message_to_node] returns (it
    never raises) after one, two or three attempts.  Each attempt is a
    mesh update and a DHCP round followed by one write; every attempt but
    the last has failed and is followed by the pause; the result is the
    outcome of the last write, so that [true] is returned at the first
    acknowledged write and [false] only when three writes have failed, and
    the trace ends with the log line that reports the outcome. *)
Theorem send_message_to_node_retries E node_id message s :
  exists (attempts : nat) (sent : bool),
    (1 <= attempts <= 3)%nat
    /\ send_message_to_node E node_id message s
       = Ok sent (set_n_write (attempts + n_write s) s)
           (failed_attempts (attempts - 1) node_id message
            ++ attempt_trace node_id message sent
            ++ [if sent then sent_log node_id message
                else failed_log node_id message])
    /\ (forall k, (k < attempts - 1)%nat -> mesh_write E (k + n_write s) = false)
    /\ sent = mesh_write E (attempts - 1 + n_write s)
    /\ (sent = false -> attempts = 3%nat).
Proof.
  rewrite send_message_to_node_cases.
  destruct (mesh_write E (n_write s)) eqn:W0;
    [ exists 1%nat, true
    | destruct (mesh_write E (1 + n_write s)) eqn:W1;
      [ exists 2%nat, true
      | destruct (mesh_write E (2 + n_write s)) eqn:W2;
        [ exists 3%nat, true | exists 3%nat, false ] ] ];
    simpl in *; repeat split; try lia; try congruence;
    intros k Hk;
    assert (k = 0 \/ k = 1)%nat as [-> | ->] by lia; first [assumption | lia].
Qed.

(* ====================================================================== *)
(** * The packet codec *)
(* ====================================================================== *)

Lemma split_lacks sep s : lacks sep s -> Py.split sep s = [s].
Proof.
  unfold lacks, chars. induction s as [ | c r IH]; simpl; intro H.
  - reflexivity.
  - destruct (Ascii.eqb_spec c sep) as [-> | Hne].
    + exfalso. apply H. now left.
    + rewrite IH; [reflexivity | ]. intro Hin. apply H. now right.
Qed.

Lemma split_app_sep sep a b :
  lacks sep a -> Py.split sep (a ++ String sep b) = a :: Py.split sep b.
Proof.
  unfold lacks, chars. induction a as [ | c r IH]; simpl; intro H.
  - now rewrite Ascii.eqb_refl.
  - destruct (Ascii.eqb_spec c sep) as [-> | Hne].
    + exfalso. apply H. now left.
    + rewrite IH; [reflexivity | ]. intro Hin. apply H. now right.
Qed.

Lemma split_join sep segs :
  segs <> [] -> Forall (lacks sep) segs ->
  Py.split sep (Py.join (String sep EmptyString) segs) = segs.
Proof.
  induction segs as [ | x rest IH]; intros Hne Hall; [congruence | ].
  inversion Hall as [ | ? ? Hx Hrest]; subst.
  destruct rest as [ | y rest'].
  - simpl. now apply split_lacks.
  - change (Py.join (String sep EmptyString) (x :: y :: rest'))
      with (x ++ String sep (Py.join (String sep EmptyString) (y :: rest'))).
    rewrite split_app_sep by assumption.
    f_equal. apply IH; [congruence | assumption].
Qed.

Lemma dict_get_absent (k : string) (d : Codec.packet) :
  ~ In k (map fst d) -> Py.dict_get String.eqb k d = None.
Proof.
  induction d as [ | [k' v'] r IH]; simpl; intro H; [reflexivity | ].
  destruct (String.eqb_spec k' k) as [-> | Hne].
  - exfalso. apply H. now left.
  - apply IH. intro Hin. apply H. now right.
Qed.

Lemma dict_set_fresh (k v : string) (d : Codec.packet) :
  ~ In k (map fst d) -> Py.dict_set String.eqb k v d = (d ++ [(k, v)])%list.
Proof.
  induction d as [ | [k' v'] r IH]; simpl; intro H; [reflexivity | ].
  destruct (String.eqb_spec k' k) as [-> | Hne].
  - exfalso. apply H. now left.
  - rewrite IH; [reflexivity | ]. intro Hin. apply H. now right.
Qed.

Lemma parse_pairs_append (f acc : Codec.packet) :
  NoDup (map fst (acc ++ f)) -> Forall frame_pair f -> clean f ->
  fold_left Codec.parse_pair (map (fun kv => fst kv ++ snd kv) f) acc = (acc ++ f)%list.
Proof.
  revert acc. induction f as [ | [k v] f IH]; intros acc Hnd Hfr Hcl; simpl.
  - now rewrite app_nil_r.
  - inversion Hfr as [ | ? ? [[c Hk] _] Hrest]; subst.
    inversion Hcl as [ | ? ? [_ Hv] Hcrest]; subst.
    simpl in Hk, Hv. subst k.
    destruct v as [ | v0 v]; [congruence | ].
    simpl. rewrite dict_set_fresh.
    + rewrite IH; [ now rewrite <- app_assoc | now rewrite <- app_assoc
                  | assumption | assumption ].
    + rewrite map_app in Hnd. simpl in Hnd.
      apply NoDup_remove_2 in Hnd. intro Hin. apply Hnd.
      apply in_or_app. now left.
Qed.

Lemma segment_lacks_comma kv :
  frame_pair kv -> clean_pair kv -> lacks "," (fst kv ++ snd kv).
Proof.
  intros [[c Hk] Hv] [Hc _]. rewrite Hk in *. unfold lacks, chars in *. simpl.
  intros [H | H]; [ | contradiction]. apply Hc. now subst c.
Qed.

Lemma segments_lack_comma f :
  Forall frame_pair f -> clean f ->
  Forall (lacks ",") (map (fun kv => fst kv ++ snd kv) f).
Proof.
  intros Hfr Hcl. apply Forall_map.
  induction Hfr as [ | kv f Hkv Hrest IH]; [constructor | ].
  inversion Hcl; subst. constructor; [now apply segment_lacks_comma | now apply IH].
Qed.

Lemma parse_build_clean f :
  is_frame f -> clean f -> Codec.is_packet (Codec.build_packet f) = true ->
  Codec.parse_packet (Codec.build_packet f) = Some f.
Proof.
  intros [Hnd Hfr] Hcl Hpk. unfold Codec.parse_packet. rewrite Hpk. simpl.
  f_equal. unfold Codec.build_packet.
  change ","%string with (String ","%char EmptyString).
  rewrite split_join.
  - now rewrite parse_pairs_append.
  - destruct f; [discriminate Hpk | discriminate].
  - now apply segments_lack_comma.
Qed.

(** The other direction: what is decoded has no separator among its keys
    and no key of an empty value. *)

Lemma split_pieces_lack sep s p : In p (Py.split sep s) -> lacks sep p.
Proof.
  revert p. induction s as [ | c r IH]; simpl; intros p Hin.
  - destruct Hin as [<- | []]. unfold lacks. simpl. tauto.
  - destruct (Ascii.eqb_spec c sep) as [-> | Hne].
    + destruct Hin as [<- | Hin]; [unfold lacks; simpl; tauto | now apply IH].
    + destruct (Py.split sep r) as [ | seg segs] eqn:Hs.
      * destruct Hin as [<- | []]. unfold lacks, chars. simpl. intuition congruence.
      * destruct Hin as [<- | Hin].
        -- assert (Hseg : lacks sep seg) by (apply IH; now left).
           unfold lacks, chars in *. simpl. intuition congruence.
        -- apply IH. now right.
Qed.

Lemma dict_set_keys (k v : string) (d : Codec.packet) k' :
  In k' (map fst (Py.dict_set String.eqb k v d)) -> k' = k \/ In k' (map fst d).
Proof.
  induction d as [ | [k0 v0] d IH]; simpl.
  - intros [<- | []]. now left.
  - destruct (String.eqb_spec k0 k) as [-> | Hne]; simpl.
    + intros [<- | H]; [now left | right; now right].
    + intros [<- | H]; [right; now left | ].
      destruct (IH H) as [-> | H']; [now left | right; now right].
Qed.

Lemma parse_pair_keys result pair k :
  In k (map fst (Codec.parse_pair result pair)) ->
  In k (map fst result)
  \/ exists c v0 v, pair = String c (String v0 v) /\ k = String c EmptyString.
Proof.
  unfold Codec.parse_pair.
  destruct pair as [ | c [ | v0 v]]; try (intro H; now left).
  intro H. destruct (dict_set_keys _ _ _ _ H) as [-> | H']; [right; eauto | now left].
Qed.

Lemma parsed_keys pieces : forall acc k,
  In k (map fst (fold_left Codec.parse_pair pieces acc)) ->
  In k (map fst acc)
  \/ exists c v0 v, In (String c (String v0 v)) pieces /\ k = String c EmptyString.
Proof.
  induction pieces as [ | p pieces IH]; intros acc k H; simpl in *; [now left | ].
  destruct (IH _ _ H) as [H1 | (c & v0 & v & Hin & Hk)].
  - destruct (parse_pair_keys _ _ _ H1) as [H2 | (c & v0 & v & Hp & Hk)];
      [now left | right; exists c, v0, v; split; [now left | exact Hk]].
  - right. exists c, v0, v. split; [now right | exact Hk].
Qed.

Lemma get_In_key k v (d : Codec.packet) :
  Codec.get k d = Some v -> In k (map fst d).
Proof.
  unfold Codec.get. induction d as [ | [k0 v0] d IH]; simpl; [discriminate | ].
  destruct (String.eqb_spec k0 k) as [-> | Hne]; [now left | ].
  intro H. right. now apply IH.
Qed.

Lemma In_get k v (d : Codec.packet) :
  NoDup (map fst d) -> In (k, v) d -> Codec.get k d = Some v.
Proof.
  unfold Codec.get. induction d as [ | [k0 v0] d IH]; simpl; intros Hnd Hin; [contradiction | ].
  inversion Hnd as [ | ? ? Hk0 Hnd']; subst.
  destruct Hin as [Heq | Hin].
  - injection Heq as -> ->. now rewrite String.eqb_refl.
  - destruct (String.eqb_spec k0 k) as [-> | Hne]; [ | now apply IH].
    exfalso. apply Hk0. apply in_map_iff. exists (k, v). now split.
Qed.

Lemma roundtrip_needs_clean f g :
  is_frame f ->
  Codec.parse_packet (Codec.build_packet f) = Some g -> dict_equal g f ->
  clean f.
Proof.
  intros [Hnd Hfr] Hparse Heq.
  unfold Codec.parse_packet in Hparse.
  destruct (Codec.is_packet (Codec.build_packet f)) eqn:Hpk; [ | discriminate].
  simpl in Hparse. injection Hparse as Hg.
  (* no key of what is decoded is the separator *)
  assert (Hkeys : forall k, In k (map fst g) -> k <> ","%string).
  { intros k Hk. rewrite <- Hg in Hk.
    destruct (parsed_keys _ _ _ Hk) as [[] | (c & v0 & v & Hin & ->)].
    apply split_pieces_lack in Hin. intro Hc. injection Hc as ->.
    apply Hin. now left. }
  assert (Hfkeys : forall k v, In (k, v) f -> k <> ","%string).
  { intros k v Hin. apply Hkeys. apply (get_In_key k v).
    rewrite (Heq k). now apply In_get. }
  (* so that the text is split into the segments of the frame *)
  assert (Hsegs : Py.split "," (Codec.build_packet f) = map (fun kv => fst kv ++ snd kv) f).
  { unfold Codec.build_packet.
    change ","%string with (String ","%char EmptyString).
    apply split_join; [destruct f; [discriminate Hpk | discriminate] | ].
    apply Forall_map. apply Forall_forall. intros [k v] Hin.
    assert (Hf := proj1 (Forall_forall _ _) Hfr _ Hin).
    destruct Hf as [[c Hk] Hv]. simpl in *. subst k.
    unfold lacks, chars in *. simpl. intros [Hc | Hc]; [ | contradiction].
    apply (Hfkeys _ _ Hin). now subst c. }
  (* and a key of an empty value is not decoded *)
  apply Forall_forall. intros [k v] Hin. split; simpl; [exact (Hfkeys _ _ Hin) | ].
  intro Hv. subst v.
  assert (Hk : In k (map fst g)).
  { apply (get_In_key k EmptyString). rewrite (Heq k). now apply In_get. }
  rewrite <- Hg, Hsegs in Hk.
  destruct (parsed_keys _ _ _ Hk) as [[] | (c & v0 & v & Hseg & ->)].
  apply in_map_iff in Hseg. destruct Hseg as [[k' v'] [Hkv Hin']]. simpl in Hkv.
  assert (Hf := proj1 (Forall_forall _ _) Hfr _ Hin').
  destruct Hf as [[c' Hk'] _]. simpl in Hk'. subst k'.
  simpl in Hkv. injection Hkv as -> Hv'.
  assert (H1 := In_get _ _ _ Hnd Hin). assert (H2 := In_get _ _ _ Hnd Hin').
  rewrite H1 in H2. injection H2 as <-. discriminate Hv'.
Qed.

(** C4, as amended.  For a frame (one-character keys, none twice, values
    that hold no separator), decoding the encoded text gives a dict equal
    to the frame exactly when no key is the separator, no value is empty
    and the text passes [is_packet], that is, the first key is a letter
    and the first value starts with a digit or a minus sign.  What is
    decoded then lists the pairs in the order of the frame. *)
Theorem parse_build_roundtrip (f : Codec.packet) :
  is_frame f ->
  ((exists g, Codec.parse_packet (Codec.build_packet f) = Some g /\ dict_equal g f)
   <-> clean f /\ Codec.is_packet (Codec.build_packet f) = true)
  /\ (clean f -> Codec.is_packet (Codec.build_packet f) = true ->
      Codec.parse_packet (Codec.build_packet f) = Some f).
Proof.
  intro Hf. split; [split | ].
  - intros (g & Hparse & Heq). split.
    + eapply roundtrip_needs_clean; eauto.
    + unfold Codec.parse_packet in Hparse.
      destruct (Codec.is_packet (Codec.build_packet f)); [reflexivity | discriminate].
  - intros [Hcl Hpk]. exists f. split; [now apply parse_build_clean | ].
    intro k. reflexivity.
  - now apply parse_build_clean.
Qed.

Lemma parse_build_roundtrip_witness :
  let f := [("x", "78"); ("n", "62"); ("a", "1"); ("l", "1")] in
  is_frame f /\ clean f /\ Codec.is_packet (Codec.build_packet f) = true
  /\ Codec.parse_packet (Codec.build_packet f) = Some f.
Proof.
  assert (W : is_frame [("x", "78"); ("n", "62"); ("a", "1"); ("l", "1")]).
  { split.
    - simpl. repeat constructor; simpl; intuition discriminate.
    - repeat constructor; simpl; try (eexists; reflexivity);
        unfold lacks; simpl; intuition discriminate. }
  assert (C : clean [("x", "78"); ("n", "62"); ("a", "1"); ("l", "1")]).
  { repeat constructor; simpl; discriminate. }
  split; [exact W | ]. split; [exact C | ]. split; [reflexivity | ].
  apply (proj2 (parse_build_roundtrip _ W) C). reflexivity.
Defined.

(** C4 as stated fails: a frame whose only value holds no separator, but
    does not start with a digit, is encoded to a text that [parse_packet]
    rejects. *)
Lemma roundtrip_counterexample :
  is_frame [("a", "on")]
  /\ Codec.build_packet [("a", "on")] = "aon"
  /\ Codec.parse_packet (Codec.build_packet [("a", "on")]) = None.
Proof.
  split; [ | split; reflexivity ].
  split.
  - simpl. repeat constructor. simpl. tauto.
  - repeat constructor; simpl; [eexists; reflexivity | ].
    unfold lacks. simpl. intuition discriminate.
Qed.

(** A pair whose value is empty is dropped by the decoder. *)
Example roundtrip_drops_empty_value :
  Codec.parse_packet (Codec.build_packet [("k", "1"); ("h", "")]) = Some [("k", "1")].
Proof. reflexivity. Qed.

(* ====================================================================== *)
(** * The event log *)
(* ====================================================================== *)

Arguments send_message_to_node : simpl never.

Lemma send_total E node_id message s :
  exists sent k tr,
    send_message_to_node E node_id message s = Ok sent (set_n_write (k + n_write s) s) tr
    /\ (sent = false -> k = 3%nat /\
        tr = (failed_attempts 2 node_id message
              ++ attempt_trace node_id message false ++ [failed_log node_id message])%list).
Proof.
  rewrite send_message_to_node_cases.
  destruct (mesh_write E (n_write s));
    [ | destruct (mesh_write E (1 + n_write s));
        [ | destruct (mesh_write E (2 + n_write s)) ] ];
    do 3 eexists; (split; [reflexivity | ]); intro H; try discriminate H.
  split; reflexivity.
Qed.

Lemma bind_Ok {T A B} (m : M T A) (k : A -> M T B) s a s1 tr1 :
  m s = Ok a s1 tr1 ->
  bind m k s =
    match k a s1 with
    | Ok b s2 tr2 => Ok b s2 (tr1 ++ tr2)%list
    | Raised e s2 tr2 => Raised e s2 (tr1 ++ tr2)%list
    end.
Proof. intro H. unfold bind. rewrite H. reflexivity. Qed.

Lemma bind_Raised {T A B} (m : M T A) (k : A -> M T B) s e s1 tr1 :
  m s = Raised e s1 tr1 -> bind m k s = Raised e s1 tr1.
Proof. intro H. unfold bind. rewrite H. reflexivity. Qed.

Lemma bind_assoc {T A B C} (m : M T A) (f : A -> M T B) (g : B -> M T C) s :
  bind (bind m f) g s = bind m (fun x => bind (f x) g) s.
Proof.
  unfold bind. destruct (m s) as [a s1 tr1 | e s1 tr1]; [ | reflexivity].
  destruct (f a s1) as [b s2 tr2 | e s2 tr2]; [ | reflexivity].
  destruct (g b s2); now rewrite app_assoc.
Qed.

Lemma bind_ext {T A B} (m : M T A) (f g : A -> M T B) s :
  (forall a s1, f a s1 = g a s1) -> bind m f s = bind m g s.
Proof.
  intro H. unfold bind. destruct (m s) as [a s1 tr1 | e s1 tr1]; [ | reflexivity].
  now rewrite H.
Qed.

Lemma send_writes E node_id message s :
  (1 <= List.length (filter is_write (trace_of (send_message_to_node E node_id message s))) <= 3)%nat
  /\ Forall (fun e => exists ok, e = MeshWrite node_id message ok)
       (filter is_write (trace_of (send_message_to_node E node_id message s)))
  /\ filter is_insert (trace_of (send_message_to_node E node_id message s)) = [].
Proof.
  rewrite send_message_to_node_cases.
  destruct (mesh_write E (n_write s));
    [ | destruct (mesh_write E (1 + n_write s));
        [ | destruct (mesh_write E (2 + n_write s)) ] ];
    simpl; (split; [lia | ]); (split; [ | reflexivity]);
    repeat constructor; eexists; reflexivity.
Qed.

Lemma get_last_ac_state_read E s :
  get_last_ac_state E s =
    Ok (match last_event E s with
        | Some (timestamp, state) => (Some state, Some timestamp)
        | None => (None, None)
        end) (set_n_db (S (n_db s)) s) (read_trace E s).
Proof.
  unfold get_last_ac_state, bind, select_last, last_event, read_trace.
  destruct (db_up E (n_db s)); [ | reflexivity].
  unfold last_row. destruct (latest_row _ _) as [[ts st] | ]; [ | reflexivity].
  destruct (strptime ts); reflexivity.
Qed.

Lemma get_ac_state_up E s :
  db_up E (n_db s) = true ->
  get_ac_state E s =
    Ok (match stored_state E s with Some state => state | None => false end)
       (set_n_db (S (n_db s)) s) [].
Proof.
  intro H. unfold get_ac_state, bind, select_last, stored_state, last_row. rewrite H.
  destruct (latest_row _ _) as [[ts st] | ]; reflexivity.
Qed.

Lemma get_ac_state_down E s :
  db_up E (n_db s) = false ->
  get_ac_state E s =
    Ok false (set_n_db (S (n_db s)) s)
       [Log Lerror ("DB get AC state error: " ++ db_error) None].
Proof.
  intro H. unfold get_ac_state, bind, select_last. rewrite H. reflexivity.
Qed.

Lemma fst_last_event E s :
  fst match last_event E s with
      | Some (timestamp, state) => (Some state, Some timestamp)
      | None => (None, None)
      end = reported E s.
Proof. unfold reported. destruct (last_event E s) as [[ts st] | ]; reflexivity. Qed.

(** What [database_log] does, case by case. *)
Lemma database_log_run E b s :
  database_log E b s =
    if opt_bool_eqb (reported E s) b then Ok tt (set_n_db (S (n_db s)) s) (read_trace E s)
    else if db_up E (S (n_db s))
         then Ok tt (logged E b s) (read_trace E s ++ logged_trace E b s)%list
         else Ok tt (set_n_db (2 + n_db s) s) (read_trace E s ++ [write_error_log])%list.
Proof.
  unfold database_log. rewrite (bind_Ok _ _ _ _ _ _ (get_last_ac_state_read E s)).
  rewrite fst_last_event.
  destruct (opt_bool_eqb (reported E s) b); [cbn; now rewrite app_nil_r | ].
  unfold bind, db_transaction, read_now, modify, emit, log. cbn.
  destruct (db_up E (S (n_db s))); reflexivity.
Qed.

Lemma database_log_same E b s :
  reported E s = Some b ->
  database_log E b s = Ok tt (set_n_db (S (n_db s)) s) (read_trace E s).
Proof.
  intro H. rewrite database_log_run, H. simpl. now rewrite Bool.eqb_reflx.
Qed.

Lemma opt_bool_eqb_true o b : opt_bool_eqb o b = true -> o = Some b.
Proof.
  destruct o as [x | ]; simpl; intro H; [ | discriminate].
  apply Bool.eqb_prop in H. now subst.
Qed.

Lemma opt_bool_eqb_false o b : opt_bool_eqb o b = false -> o <> Some b.
Proof.
  intros H Ho. subst o. simpl in H. now rewrite Bool.eqb_reflx in H.
Qed.

Lemma opt_bool_eqb_neq o b : o <> Some b -> opt_bool_eqb o b = false.
Proof.
  intro H. destruct (opt_bool_eqb o b) eqn:Heq; [ | reflexivity].
  now apply opt_bool_eqb_true in Heq.
Qed.

Lemma database_log_insert E b s :
  db_up E (S (n_db s)) = true ->
  reported E s <> Some b ->
  database_log E b s = Ok tt (logged E b s) (read_trace E s ++ logged_trace E b s)%list.
Proof.
  intros Hup Hst. rewrite database_log_run, (opt_bool_eqb_neq _ _ Hst), Hup. reflexivity.
Qed.

Lemma database_log_total E b s :
  exists s1 tr, database_log E b s = Ok tt s1 tr.
Proof.
  rewrite database_log_run.
  destruct (opt_bool_eqb (reported E s) b); [eauto | ].
  destruct (db_up E (S (n_db s))); eauto.
Qed.

(** The rows and the insertions that [database_log] leaves. *)
Lemma database_log_rows E b s :
  ac_data (db (state_of (database_log E b s)))
  = (if appends E b s then ac_data (db s) ++ [(insert_stamp E s, b)] else ac_data (db s))%list
  /\ filter is_insert (trace_of (database_log E b s))
     = (if appends E b s then [DbInsert (insert_stamp E s) b] else []).
Proof.
  assert (Hread : filter is_insert (read_trace E s) = []).
  { unfold read_trace. destruct (db_up E (n_db s)); [ | reflexivity].
    destruct (last_row E s) as [[ts st] | ]; [ | reflexivity].
    destruct (strptime ts); reflexivity. }
  rewrite database_log_run. unfold appends.
  destruct (opt_bool_eqb (reported E s) b); simpl; [split; [reflexivity | exact Hread] | ].
  destruct (db_up E (S (n_db s))); simpl; rewrite filter_app, Hread; split; reflexivity.
Qed.

(** C8.  [database_log] repeats a row.  The database answers, and the
    last row of the event log records [b] at a time that falls on a
    whole second.  The text of that time has no fraction, so
    [get_last_ac_state] fails to parse it, logs a read error and returns
    no state; [database_log b] therefore does not see that the log
    already records [b] and inserts a second row for [b]. *)
Theorem database_log_duplicate_row E (b : bool) (s : State) (timestamp : Z) :
  db_up E (n_db s) = true ->
  db_up E (S (n_db s)) = true ->
  last_row E s = Some (timestamp, b) ->
  timestamp mod SECOND = 0 ->
  stored_state E s = Some b
  /\ database_log E b s = Ok tt (logged E b s) (read_error_log :: logged_trace E b s)
  /\ ac_data (db (logged E b s)) = (ac_data (db s) ++ [(insert_stamp E s, b)])%list.
Proof.
  intros Hup Hup2 Hrow Hsec.
  assert (Hparse : strptime timestamp = None).
  { unfold strptime. rewrite Hsec. reflexivity. }
  assert (Hevent : last_event E s = None).
  { unfold last_event. now rewrite Hup, Hrow, Hparse. }
  assert (Htrace : read_trace E s = [read_error_log]).
  { unfold read_trace. now rewrite Hup, Hrow, Hparse. }
  split; [unfold stored_state; now rewrite Hrow | ].
  split; [ | reflexivity].
  rewrite database_log_insert; [now rewrite Htrace | exact Hup2 | ].
  unfold reported. rewrite Hevent. discriminate.
Qed.

Lemma database_log_duplicate_row_witness :
  let E := late_env in
  let s := boot (one_event_db (12 * SECOND) true) in
  db_up E (n_db s) = true
  /\ db_up E (S (n_db s)) = true
  /\ last_row E s = Some (12 * SECOND, true)
  /\ (12 * SECOND) mod SECOND = 0
  /\ trace_of (database_log E true s)
     = [read_error_log; DbInsert (41 * 60 * SECOND + SECOND + HALF) true;
        Log Ldb "AC state logged: ON" None]
  /\ ac_data (db (state_of (database_log E true s)))
     = [(12 * SECOND, true); (41 * 60 * SECOND + SECOND + HALF, true)].
Proof.
  intros E s.
  destruct (database_log_duplicate_row E true s (12 * SECOND) eq_refl eq_refl eq_refl eq_refl)
    as (_ & Hrun & Hrows).
  split; [reflexivity | ]. split; [reflexivity | ]. split; [reflexivity | ].
  split; [reflexivity | ].
  rewrite Hrun. split; [reflexivity | exact Hrows].
Defined.

Lemma fresh_state_run E s :
  fresh_state E s = Ok (vouched E s) (queried E s) (read_trace E s).
Proof.
  unfold fresh_state. rewrite (bind_Ok _ _ _ _ _ _ (get_last_ac_state_read E s)).
  unfold vouched, queried.
  destruct (last_event E s) as [[ts st] | ]; [ | cbn; now rewrite app_nil_r].
  unfold bind, read_now. cbn.
  destruct (_ <=? _); cbn; now rewrite app_nil_r.
Qed.

Lemma stale_vouched E s : stale E s -> vouched E s = None.
Proof.
  unfold stale, vouched, last_event. intro H.
  destruct (db_up E (n_db s)); [ | reflexivity].
  destruct (last_row E s) as [[ts st] | ]; [ | reflexivity].
  unfold strptime. destruct (ts mod SECOND =? 0); [reflexivity | ].
  apply Z.leb_gt in H. now rewrite H.
Qed.

Lemma db_queried E s : db (queried E s) = db s.
Proof. unfold queried. destruct (last_event E s); reflexivity. Qed.

Lemma parse_packet_is_packet message packet :
  Codec.parse_packet message = Some packet -> Codec.is_packet message = true.
Proof.
  unfold Codec.parse_packet. destruct (Codec.is_packet message); [reflexivity | discriminate].
Qed.

Lemma has_truthy k packet : Codec.has k packet = true -> Codec.truthy packet = true.
Proof. destruct packet; [discriminate | reflexivity]. Qed.

(** A frame is processed up to its query rule, and then the query rule
    runs. *)
Lemma process_frame_query E current_node message packet s :
  Codec.parse_packet message = Some packet ->
  Codec.truthy packet = true ->
  process_frame E (current_node, message) s
  = bind (before_query E current_node message packet)
      (fun _ => rule_q E current_node packet) s.
Proof.
  intros Hp Ht. unfold process_frame.
  rewrite (parse_packet_is_packet _ _ Hp), Hp, Ht. cbn [when].
  unfold before_query, dispatch.
  rewrite bind_assoc. apply bind_ext. intros _ s1.
  rewrite bind_assoc. apply bind_ext. intros _ s2.
  rewrite bind_assoc. apply bind_ext. intros _ s3.
  rewrite bind_assoc. apply bind_ext. intros _ s4.
  rewrite bind_assoc. apply bind_ext. intros _ s5.
  rewrite bind_assoc. apply bind_ext. intros _ s6.
  reflexivity.
Qed.

(** C2, as amended.  A frame that holds [q] is processed, and when its
    other rules have run and the query rule starts, the last event of
    the log is missing or older than 40 minutes.  Then the query is
    answered with [{a:0}], sent to the node that asked, after one call of
    [database_log(False)].  That call appends an off-event exactly when
    its own read of the log does not report off and the database takes
    the row; otherwise the log is left as it is. *)
Theorem stale_query_replies_off E current_node message packet s sq tr :
  Codec.parse_packet message = Some packet ->
  Codec.has "q" packet = true ->
  before_query E current_node message packet s = Ok tt sq tr ->
  stale E sq ->
  let s1 := queried E sq in
  let s2 := state_of (database_log E false s1) in
  let reply := send_message_to_node E current_node "a0" s2 in
  process_frame E (current_node, message) s
  = Ok tt (state_of reply)
      (tr ++ [query_log current_node] ++ read_trace E sq
          ++ trace_of (database_log E false s1) ++ trace_of reply)%list
  /\ writes_of current_node "a0" (filter is_write (trace_of reply))
  /\ filter is_insert (trace_of (database_log E false s1))
     = (if appends E false s1 then [DbInsert (insert_stamp E s1) false] else [])
  /\ ac_data (db (state_of reply))
     = (if appends E false s1 then ac_data (db sq) ++ [(insert_stamp E s1, false)]
        else ac_data (db sq))%list.
Proof.
  intros Hp Hq Hbefore Hstale s1 s2 reply.
  destruct (database_log_rows E false s1) as [Hrows Hins].
  destruct (database_log_total E false s1) as (s2' & tr2 & Hlog).
  destruct (send_total E current_node "a0" s2) as (sent & k & tr3 & Hsend & _).
  destruct (send_writes E current_node "a0" s2) as (Hlen & Hall & _).
  split; [ | split; [ | split; [exact Hins | ] ] ].
  - rewrite (process_frame_query E _ _ _ _ Hp (has_truthy _ _ Hq)).
    rewrite (bind_Ok _ _ _ _ _ _ Hbefore).
    unfold rule_q. rewrite Hq. cbn [when].
    rewrite (bind_Ok _ _ sq tt sq [query_log current_node]) by reflexivity.
    rewrite (bind_Ok _ _ _ _ _ _ (fresh_state_run E sq)).
    rewrite (stale_vouched E sq Hstale).
    fold s1. subst reply s2. rewrite Hlog in *. cbn [state_of trace_of] in *.
    rewrite (bind_Ok _ _ _ _ _ _ Hlog).
    unfold send_. change (Codec.build_packet [("a", Py.str_int 0)]) with "a0".
    rewrite (bind_Ok _ _ _ _ _ _ Hsend). rewrite Hsend. cbn [ret state_of trace_of].
    now rewrite !app_nil_r.
  - split; [ | exact Hall].
    subst reply. destruct (filter is_write _); [simpl in Hlen; lia | discriminate].
  - subst reply. rewrite Hsend. cbn [state_of db set_n_write].
    subst s2. rewrite Hrows. subst s1. now rewrite db_queried.
Qed.

Lemma stale_query_replies_off_witness :
  let E := late_env in
  let s := boot (one_event_db HALF true) in
  let sq := state_of (before_query E NODE_AC_RELAY "q1" [("q", "1")] s) in
  let tr := trace_of (before_query E NODE_AC_RELAY "q1" [("q", "1")] s) in
  Codec.parse_packet "q1" = Some [("q", "1")]
  /\ Codec.has "q" [("q", "1")] = true
  /\ before_query E NODE_AC_RELAY "q1" [("q", "1")] s = Ok tt sq tr
  /\ stale E sq
  /\ filter is_write (trace_of (process_frame E (NODE_AC_RELAY, "q1") s))
     = [MeshWrite NODE_AC_RELAY "a0" true]
  /\ ac_data (db (state_of (process_frame E (NODE_AC_RELAY, "q1") s)))
     = [(HALF, true); (41 * 60 * SECOND + 3 * SECOND + HALF, false)].
Proof.
  intros E s sq tr.
  assert (Hbefore : before_query E NODE_AC_RELAY "q1" [("q", "1")] s = Ok tt sq tr)
    by (vm_compute; reflexivity).
  assert (Hstale : stale E sq) by (vm_compute; reflexivity).
  destruct (stale_query_replies_off E NODE_AC_RELAY "q1" [("q", "1")] s sq tr
              eq_refl eq_refl Hbefore Hstale) as (Hrun & _ & _ & Hrows).
  split; [reflexivity | ]. split; [reflexivity | ]. split; [exact Hbefore | ].
  split; [exact Hstale | ].
  rewrite Hrun. cbn [state_of trace_of]. split; [vm_compute; reflexivity | ].
  rewrite Hrows. vm_compute. reflexivity.
Defined.

(** C2 as stated fails.  The last event, 41 minutes old, records off:
    the query [q1] of the relay is answered with [{a:0}] but no event is
    appended.  And on the same log the frame [a1,q1] of the relay is not
    answered with [{a:0}]: its rule for [a] logs an on-event before the
    rule for [q] reads the log, and the answer is [{a:1}]. *)
Lemma stale_query_counterexample :
  let E := late_env in
  let s := boot (one_event_db HALF false) in
  stale E s
  /\ stale E (state_of (before_query E NODE_AC_RELAY "q1" [("q", "1")] s))
  /\ Codec.parse_packet "q1" = Some [("q", "1")]
  /\ filter is_write (trace_of (process_frame E (NODE_AC_RELAY, "q1") s))
     = [MeshWrite NODE_AC_RELAY "a0" true]
  /\ filter is_insert (trace_of (process_frame E (NODE_AC_RELAY, "q1") s)) = []
  /\ ac_data (db (state_of (process_frame E (NODE_AC_RELAY, "q1") s))) = [(HALF, false)]
  /\ Codec.parse_packet "a1,q1" = Some [("a", "1"); ("q", "1")]
  /\ filter is_write (trace_of (process_frame E (NODE_AC_RELAY, "a1,q1") s))
     = [MeshWrite NODE_AC_RELAY "a1" true]
  /\ filter is_insert (trace_of (process_frame E (NODE_AC_RELAY, "a1,q1") s))
     = [DbInsert (41 * 60 * SECOND + 2 * SECOND + HALF) true].
Proof. vm_compute. repeat split; reflexivity. Qed.

(* ====================================================================== *)
(** * Commands of the keypad *)
(* ====================================================================== *)

Lemma send_delivered E node_id message s :
  exists s1 tr,
    send_message_to_node E node_id message s = Ok (delivered E s) s1 tr
    /\ (delivered E s = false ->
        s1 = set_n_write (3 + n_write s) s /\
        tr = (failed_attempts 2 node_id message
              ++ attempt_trace node_id message false ++ [failed_log node_id message])%list).
Proof.
  rewrite send_message_to_node_cases. unfold delivered.
  destruct (mesh_write E (n_write s));
    [ | destruct (mesh_write E (1 + n_write s));
        [ | destruct (mesh_write E (2 + n_write s)) ] ];
    simpl; do 2 eexists; (split; [reflexivity | ]); intro H; try discriminate H.
  split; reflexivity.
Qed.

Lemma send__Ok E node_id message s sent s1 tr :
  send_message_to_node E node_id message s = Ok sent s1 tr ->
  send_ E node_id message s = Ok tt s1 tr.
Proof.
  intro H. unfold send_. rewrite (bind_Ok _ _ _ _ _ _ H). simpl.
  now rewrite app_nil_r.
Qed.



(** A value that [int] refuses ends the frame, and the loop, with a
    [ValueError]: nothing is forwarded. *)
Example keypad_command_not_a_number :
  Codec.parse_packet "a-" = Some [("a", "-")]
  /\ (exists s tr, process_frame good_env (NODE_TEMP_LCD, "a-") (boot empty_db)
                   = Raised ValueError s tr /\ filter is_write tr = []).
Proof. split; [reflexivity | ]. do 2 eexists. vm_compute. split; reflexivity. Qed.

(* ====================================================================== *)
(** * Commands of the relay clients *)
(* ====================================================================== *)

Ltac split_ifs :=
  repeat match goal with
         | |- context [if ?b then _ else _] => destruct b eqn:?; simpl
         | |- context [match ?x with Some _ => _ | None => _ end] => destruct x eqn:?; simpl
         | |- context [let (_, _) := ?x in _] => destruct x eqn:?; simpl
         end.

(** What [send_message_to_client] does: the state is as before but for
    the [sendall] consumed, and the trace is the attempt, followed by
    what a failure prints and imports. *)
Lemma send_message_to_client_run E client text s :
  send_message_to_client E client text s
  = Ok tt (set_n_send (S (n_send s)) s) (client_trace E s client text).
Proof.
  unfold send_message_to_client, client_trace, bind, sendall, emit.
  destruct (client_write E (n_send s)); reflexivity.
Qed.

Lemma send_message_to_client_total E client text s :
  exists s1 tr, send_message_to_client E client text s = Ok tt s1 tr.
Proof. rewrite send_message_to_client_run. eauto. Qed.

Lemma flag_blind_bind {A B} (m : M effect A) (k : A -> M effect B) :
  flag_blind m -> (forall a, flag_blind (k a)) -> flag_blind (bind m k).
Proof.
  intros Hm Hk allowed s. unfold bind. rewrite Hm.
  destruct (m s) as [a s1 tr1 | e s1 tr1]; simpl; [ | reflexivity].
  rewrite Hk. destruct (k a s1); reflexivity.
Qed.

Lemma flag_blind_send_message_to_node E node_id message :
  flag_blind (send_message_to_node E node_id message).
Proof.
  intros allowed s. rewrite !send_message_to_node_cases. simpl n_write.
  destruct (mesh_write E (n_write s));
    [ | destruct (mesh_write E (1 + n_write s));
        [ | destruct (mesh_write E (2 + n_write s)) ] ]; reflexivity.
Qed.

Lemma flag_blind_database_log E b : flag_blind (database_log E b).
Proof.
  intros allowed s. rewrite !database_log_run.
  change (reported E (set_ac_allowed allowed s)) with (reported E s).
  change (n_db (set_ac_allowed allowed s)) with (n_db s).
  destruct (opt_bool_eqb (reported E s) b); [reflexivity | ].
  destruct (db_up E (S (n_db s))); reflexivity.
Qed.

Lemma flag_blind_send_message_to_client E client text :
  flag_blind (send_message_to_client E client text).
Proof. intros allowed s. rewrite !send_message_to_client_run. reflexivity. Qed.

Lemma cmd_turn_flag E client on allowed s :
  cmd_turn E client on (set_ac_allowed allowed s)
  = map_state (set_ac_allowed allowed) (cmd_turn E client on s).
Proof.
  revert allowed s. change (flag_blind (cmd_turn E client on)). unfold cmd_turn, send_.
  apply flag_blind_bind; [apply flag_blind_send_message_to_node | intros [ | ] ].
  - apply flag_blind_bind.
    + apply flag_blind_bind; [apply flag_blind_send_message_to_node | ].
      intros _ allowed s. reflexivity.
    + intros _. apply flag_blind_bind; [apply flag_blind_database_log | ].
      intros _. apply flag_blind_send_message_to_client.
  - apply flag_blind_send_message_to_client.
Qed.

Lemma cmd_turn_attempts E client on s :
  exists s1 tr1 s' rest,
    send_message_to_node E NODE_AC_RELAY (Codec.build_packet [("a", bit on)]) s
      = Ok (delivered E s) s1 tr1
    /\ cmd_turn E client on s = Ok tt s' (tr1 ++ rest)%list.
Proof.
  destruct (send_delivered E NODE_AC_RELAY (Codec.build_packet [("a", bit on)]) s)
    as (s1 & tr1 & Hsend & _).
  exists s1, tr1. unfold cmd_turn. rewrite (bind_Ok _ _ _ _ _ _ Hsend).
  destruct (delivered E s).
  - destruct (send_total E NODE_TEMP_LCD (Codec.build_packet [("a", bit on)]) s1)
      as (echoed & k & tr2 & Hecho & _).
    rewrite (bind_Ok _ _ _ _ _ _ (send__Ok _ _ _ _ _ _ _ Hecho)).
    destruct (database_log_total E on (set_n_write (k + n_write s1) s1))
      as (s3 & tr3 & Hlog).
    rewrite (bind_Ok _ _ _ _ _ _ Hlog).
    destruct (send_message_to_client_total E client (if on then "AC is ON" else "AC is OFF") s3)
      as (s4 & tr4 & Hreply).
    rewrite Hreply. do 2 eexists. split; [exact Hsend | reflexivity].
  - destruct (send_message_to_client_total E client "Failed - AC_Interface not responding" s1)
      as (s4 & tr4 & Hreply).
    rewrite Hreply. do 2 eexists. split; [exact Hsend | reflexivity].
Qed.

Lemma send_first_attempt E node_id message s sent s1 tr :
  send_message_to_node E node_id message s = Ok sent s1 tr ->
  exists rest,
    tr = (attempt_trace node_id message (mesh_write E (n_write s)) ++ rest)%list.
Proof.
  rewrite send_message_to_node_cases.
  destruct (mesh_write E (n_write s));
    [ | destruct (mesh_write E (1 + n_write s));
        [ | destruct (mesh_write E (2 + n_write s)) ] ];
    intro H; injection H as _ _ <-; eexists; reflexivity.
Qed.

(** C9.  Whatever the permission flag, a [TurnOnAC] command makes the
    controller send [a1] to the actuator node: after the line that logs
    the command, the trace starts with the attempts of that send, the
    first of which is a mesh update, a DHCP round and a write of [a1] to
    node 1.  The flag has no part in it: with the flag set to any value,
    the command gives the same result and the same trace, and leaves the
    same state but for the flag itself. *)
Theorem turn_on_ignores_permission E client s :
  (exists s1 tr1 s' rest1 rest,
     send_message_to_node E NODE_AC_RELAY "a1" s = Ok (delivered E s) s1 tr1
     /\ tr1 = (attempt_trace NODE_AC_RELAY "a1" (mesh_write E (n_write s)) ++ rest1)%list
     /\ process_command E (client, "TurnOnAC") s
        = Ok tt s' (Log Lrx "TurnOnAC" (Some "Socket") :: tr1 ++ rest)%list)
  /\ forall allowed,
       process_command E (client, "TurnOnAC") (set_ac_allowed allowed s)
       = map_state (set_ac_allowed allowed) (process_command E (client, "TurnOnAC") s).
Proof.
  assert (Hcmd : forall s0, process_command E (client, "TurnOnAC") s0
                 = bind (emit (Log Lrx "TurnOnAC" (Some "Socket")))
                     (fun _ => cmd_turn E client true) s0) by reflexivity.
  split.
  - destruct (cmd_turn_attempts E client true s) as (s1 & tr1 & s' & rest & Hsend & Hturn).
    change (Codec.build_packet [("a", bit true)]) with "a1" in Hsend.
    destruct (send_first_attempt _ _ _ _ _ _ _ Hsend) as (rest1 & Htr1).
    exists s1, tr1, s', rest1, rest. split; [exact Hsend | ]. split; [exact Htr1 | ].
    rewrite Hcmd. unfold bind, emit. rewrite Hturn. reflexivity.
  - intro allowed. rewrite !Hcmd. unfold bind, emit.
    rewrite cmd_turn_flag. destruct (cmd_turn E client true s); reflexivity.
Qed.

(** With the permission flag false and the radio working, [TurnOnAC]
    writes [a1] to the relay and then to the keypad. *)
Example turn_on_while_forbidden :
  ac_allowed (boot empty_db) = false
  /\ filter is_write (trace_of (process_command good_env (0%nat, "TurnOnAC") (boot empty_db)))
     = [MeshWrite NODE_AC_RELAY "a1" true; MeshWrite NODE_TEMP_LCD "a1" true].
Proof. vm_compute. split; reflexivity. Qed.

Lemma drop_while_In p s c :
  In c (chars s) -> p c = true \/ In c (chars (Py.drop_while p s)).
Proof.
  unfold chars. induction s as [ | a r IH]; simpl; [tauto | ].
  intros [<- | H].
  - destruct (p a) eqn:Hp; [now left | right; now left].
  - destruct (p a) eqn:Hp; [now apply IH | right; now right].
Qed.

Lemma chars_rev_string s : chars (Py.rev_string s) = rev (chars s).
Proof. unfold chars, Py.rev_string. apply list_ascii_of_string_of_list_ascii. Qed.

Lemma strip_with_In p s c :
  In c (chars s) -> p c = true \/ In c (chars (Py.strip_with p s)).
Proof.
  intro H. unfold Py.strip_with.
  destruct (drop_while_In p s c H) as [Hp | H1]; [now left | ].
  assert (H2 : In c (chars (Py.rev_string (Py.drop_while p s)))).
  { rewrite chars_rev_string. now apply -> in_rev. }
  destruct (drop_while_In p _ c H2) as [Hp | H3]; [now left | right].
  rewrite chars_rev_string. now apply -> in_rev.
Qed.

Lemma int_digits_chars s : forall acc ndig prev r,
  Py.int_digits s acc ndig prev = Some r ->
  forall c, In c (chars s) -> Py.digit_val c <> None \/ c = "_"%char.
Proof.
  unfold chars. induction s as [ | a r' IH]; simpl; intros acc ndig prev r H c Hin.
  - contradiction.
  - destruct (Py.digit_val a) as [d | ] eqn:Hd.
    + destruct Hin as [<- | Hin]; [left; congruence | eapply IH; eauto].
    + destruct (Ascii.eqb a "_" && prev) eqn:Hu; [ | discriminate].
      apply andb_true_iff in Hu. destruct Hu as [Hu _].
      apply Ascii.eqb_eq in Hu.
      destruct Hin as [<- | Hin]; [now right | eapply IH; eauto].
Qed.

Lemma int_unsigned_chars s n :
  Py.int_unsigned s = Some n ->
  forall c, In c (chars s) -> Py.digit_val c <> None \/ c = "_"%char.
Proof.
  unfold Py.int_unsigned. intros H c Hin.
  destruct (Py.int_digits s 0 0 false) as [[v ndig] | ] eqn:Hd; [ | discriminate].
  eapply int_digits_chars; eauto.
Qed.

Lemma int_lacks_colon v n : Py.int v = Some n -> lacks ":" v.
Proof.
  intros H Hin. apply (strip_with_In Py.int_space) in Hin.
  destruct Hin as [Hsp | Hin]; [discriminate Hsp | ].
  unfold Py.int in H.
  destruct (Py.strip_with Py.int_space v) as [ | c r]; [discriminate | ].
  assert (Hno : forall s m, Py.int_unsigned s = Some m -> In ":"%char (chars s) -> False).
  { intros s0 m Hs Hc. destruct (int_unsigned_chars s0 m Hs _ Hc) as [Hd | Hu].
    - apply Hd. reflexivity.
    - discriminate Hu. }
  destruct (Ascii.eqb_spec c "-") as [-> | Hm].
  - destruct (Py.int_unsigned r) as [m | ] eqn:Hr; [ | discriminate].
    destruct Hin as [Hc | Hin]; [discriminate Hc | eauto].
  - destruct (Ascii.eqb_spec c "+") as [-> | Hp].
    + destruct Hin as [Hc | Hin]; [discriminate Hc | eauto].
    + eauto.
Qed.

Lemma send_no_client_send E node_id message s sent s1 tr :
  send_message_to_node E node_id message s = Ok sent s1 tr ->
  filter is_client_send tr = [].
Proof.
  rewrite send_message_to_node_cases.
  destruct (mesh_write E (n_write s));
    [ | destruct (mesh_write E (1 + n_write s));
        [ | destruct (mesh_write E (2 + n_write s)) ] ];
    intro H; injection H as _ _ <-; reflexivity.
Qed.

Lemma set_brightness_accepts E client v n s :
  Py.int v = Some n ->
  exists sent s1 tr1,
    send_message_to_node E NODE_TEMP_LCD
      (Codec.build_packet [("b", Py.str_int (Z.max 0 (Z.min 100 n)))]) s = Ok sent s1 tr1
    /\ process_command E (client, "setBrightness:" ++ v) s
       = Ok tt s1
           (Log Lrx ("setBrightness:" ++ v) (Some "Socket")
            :: tr1
            ++ [Log Linfo ("LED brightness set to "
                           ++ Py.str_int (Z.max 0 (Z.min 100 n)) ++ "%") None])%list.
Proof.
  intro Hint.
  destruct (send_total E NODE_TEMP_LCD
              (Codec.build_packet [("b", Py.str_int (Z.max 0 (Z.min 100 n)))]) s)
    as (sent & k & tr1 & Hsend & _).
  exists sent, (set_n_write (k + n_write s) s), tr1. split; [exact Hsend | ].
  assert (Hsplit : Py.split ":" ("setBrightness:" ++ v) = ["setBrightness"; v]).
  { change ("setBrightness:" ++ v) with ("setBrightness" ++ String ":" v).
    rewrite split_app_sep.
    - rewrite split_lacks; [reflexivity | eapply int_lacks_colon; eauto].
    - unfold lacks. simpl. intuition discriminate. }
  assert (Hcmd : process_command E (client, "setBrightness:" ++ v) s
                 = bind (emit (Log Lrx ("setBrightness:" ++ v) (Some "Socket")))
                     (fun _ => cmd_setBrightness E client ("setBrightness:" ++ v)) s).
  { unfold process_command, Py.startswith.
    cbn -[cmd_setBrightness cmd_setTemps cmd_status].
    replace (prefix "" v) with true by (destruct v; reflexivity).
    reflexivity. }
  rewrite Hcmd. unfold cmd_setBrightness. rewrite Hsplit.
  change (nth_error ["setBrightness"; v] 1) with (Some v).
  cbv beta iota. rewrite Hint. unfold try_except, bind, emit, log.
  rewrite (send__Ok _ _ _ _ _ _ _ Hsend). reflexivity.
Qed.

(** C10.  A command [setBrightness:v] whose [v] is accepted by [int] is
    not refused, whatever the number: the controller sends key [b] with
    the number clamped into 0..100 to the sensor/display node and logs
    it, and sends nothing to the client.  The reply that reports an
    invalid format is sent only when [int] refuses [v]. *)
Theorem set_brightness_clamps E client v s :
  (forall n, Py.int v = Some n ->
     let brightness := Z.max 0 (Z.min 100 n) in
     exists sent s1 tr1,
       0 <= brightness <= 100
       /\ send_message_to_node E NODE_TEMP_LCD ("b" ++ Py.str_int brightness) s
          = Ok sent s1 tr1
       /\ process_command E (client, "setBrightness:" ++ v) s
          = Ok tt s1
              (Log Lrx ("setBrightness:" ++ v) (Some "Socket")
               :: tr1
               ++ [Log Linfo ("LED brightness set to " ++ Py.str_int brightness ++ "%") None])%list
       /\ filter is_client_send
            (trace_of (process_command E (client, "setBrightness:" ++ v) s)) = [])
  /\ (In (ClientSend client "Invalid format: use setBrightness:0-100")
         (trace_of (process_command E (client, "setBrightness:" ++ v) s))
      -> Py.int v = None).
Proof.
  assert (Hacc : forall n, Py.int v = Some n ->
    exists sent s1 tr1,
      send_message_to_node E NODE_TEMP_LCD ("b" ++ Py.str_int (Z.max 0 (Z.min 100 n))) s
        = Ok sent s1 tr1
      /\ process_command E (client, "setBrightness:" ++ v) s
         = Ok tt s1
             (Log Lrx ("setBrightness:" ++ v) (Some "Socket")
              :: tr1
              ++ [Log Linfo ("LED brightness set to "
                             ++ Py.str_int (Z.max 0 (Z.min 100 n)) ++ "%") None])%list
      /\ filter is_client_send
           (trace_of (process_command E (client, "setBrightness:" ++ v) s)) = []).
  { intros n Hint.
    destruct (set_brightness_accepts E client v n s Hint) as (sent & s1 & tr1 & Hsend & Hrun).
    exists sent, s1, tr1. split; [exact Hsend | ]. split; [exact Hrun | ].
    rewrite Hrun. simpl. rewrite filter_app.
    rewrite (send_no_client_send _ _ _ _ _ _ _ Hsend). reflexivity. }
  split.
  - intros n Hint brightness.
    destruct (Hacc n Hint) as (sent & s1 & tr1 & Hsend & Hrun & Hquiet).
    exists sent, s1, tr1. split; [subst brightness; lia | ].
    split; [exact Hsend | ]. split; [exact Hrun | exact Hquiet].
  - intro Hin. destruct (Py.int v) as [n | ] eqn:Hint; [ | reflexivity].
    destruct (Hacc n eq_refl) as (_ & _ & _ & _ & _ & Hquiet).
    exfalso.
    assert (Hf : In (ClientSend client "Invalid format: use setBrightness:0-100")
                   (filter is_client_send
                      (trace_of (process_command E (client, "setBrightness:" ++ v) s)))).
    { apply filter_In. split; [exact Hin | reflexivity]. }
    rewrite Hquiet in Hf. exact Hf.
Qed.

Lemma set_brightness_clamps_witness :
  Py.int "250" = Some 250
  /\ Z.max 0 (Z.min 100 250) = 100
  /\ (exists sent s1 tr1,
        process_command good_env (0%nat, "setBrightness:250") (boot empty_db)
        = Ok tt s1
            (Log Lrx "setBrightness:250" (Some "Socket")
             :: tr1 ++ [Log Linfo "LED brightness set to 100%" None])%list
        /\ send_message_to_node good_env NODE_TEMP_LCD "b100" (boot empty_db)
           = Ok sent s1 tr1).
Proof.
  split; [reflexivity | ]. split; [reflexivity | ].
  destruct (proj1 (set_brightness_clamps good_env 0%nat "250" (boot empty_db)) 250 eq_refl)
    as (sent & s1 & tr1 & _ & Hsend & Hrun & _).
  exists sent, s1, tr1. split; [exact Hrun | exact Hsend].
Defined.

(** Numbers out of range are clamped, text that is no number is refused. *)
Example set_brightness_examples :
  filter is_write (trace_of (process_command good_env (0%nat, "setBrightness:-7") (boot empty_db)))
  = [MeshWrite NODE_TEMP_LCD "b0" true]
  /\ filter is_write (trace_of (process_command good_env (0%nat, "setBrightness: 42 ") (boot empty_db)))
     = [MeshWrite NODE_TEMP_LCD "b42" true]
  /\ trace_of (process_command good_env (0%nat, "setBrightness:high") (boot empty_db))
     = [Log Lrx "setBrightness:high" (Some "Socket");
        ClientSend 0%nat "Invalid format: use setBrightness:0-100"].
Proof. vm_compute. repeat split; reflexivity. Qed.

(* ====================================================================== *)
(** * The ACK-wait slot *)
(* ====================================================================== *)

Lemma for_each_start_waits E l s :
  for_each l (fun node_id =>
      log Lwarn ("Waiting for ACK from " ++ node_str node_id) ;;
      start_waiting_for_ack E node_id ACK_TIMEOUT) s
  = Ok tt (start_waits E l s) (map waiting_log l).
Proof.
  revert s. induction l as [ | n l IH]; intro s; [reflexivity | ].
  cbn [for_each start_waits fold_left map].
  erewrite bind_Ok; [ | reflexivity]. cbv beta.
  change (start_waits E l (start_wait E s n)) with (fold_left (start_wait E) l (start_wait E s n)).
  rewrite IH. reflexivity.
Qed.

Lemma start_waits_frame E l s :
  sets (start_waits E l s) = sets s
  /\ n_time (start_waits E l s) = (List.length l + n_time s)%nat.
Proof.
  revert s. induction l as [ | n l IH]; intro s; [split; reflexivity | ].
  unfold start_waits in *. cbn [fold_left List.length].
  destruct (IH (start_wait E s n)) as [H1 H2]. rewrite H1, H2.
  split; [reflexivity | simpl; lia].
Qed.

(** C5, as amended.  At most one node is under ACK-wait at a time.  At a
    health-cadence tick [handle_failed_clients] goes through the whole
    failed list in order: every entry gets its warning and its
    [start_waiting_for_ack] in that same tick, each one replacing the wait
    before it, so that when the tick is over the slot holds the last
    entry of the failed list and no other; with an empty list the slot is
    left as it was.  The lists themselves are not changed. *)
Theorem ack_wait_latest_wins E s :
  (forall n m, under_ack_wait s n -> under_ack_wait s m -> n = m)
  /\ exists s',
       handle_failed_clients E s = Ok tt s' (map waiting_log (connect_fail_clients s))
       /\ sets s' = sets s
       /\ (connect_fail_clients s = [] ->
           waiting_for_ack_state s' = waiting_for_ack_state s)
       /\ (forall earlier last, connect_fail_clients s = (earlier ++ [last])%list ->
           waiting_for_ack_state s'
           = Some {| aw_node_id := last;
                     aw_start_time := time_time E (List.length earlier + n_time s);
                     aw_timeout := ACK_TIMEOUT |}
           /\ forall n, under_ack_wait s' n -> n = last).
Proof.
  split.
  - intros n m [w [Hw Hn]] [w' [Hw' Hm]]. congruence.
  - exists (start_waits E (connect_fail_clients s) s).
    split.
    { unfold handle_failed_clients.
      erewrite bind_Ok; [ | reflexivity]. cbv beta.
      rewrite for_each_start_waits. reflexivity. }
    split; [apply start_waits_frame | ].
    split.
    + intro H. rewrite H. reflexivity.
    + intros earlier last H. rewrite H.
      assert (Hw : waiting_for_ack_state (start_waits E (earlier ++ [last]) s)
                   = Some {| aw_node_id := last;
                             aw_start_time := time_time E (List.length earlier + n_time s);
                             aw_timeout := ACK_TIMEOUT |}).
      { unfold start_waits. rewrite fold_left_app. cbn [fold_left].
        unfold start_wait at 1. cbn [waiting_for_ack_state set_waiting_for_ack_state].
        fold (start_waits E earlier s).
        now rewrite (proj2 (start_waits_frame E earlier s)). }
      split; [exact Hw | ].
      intros n [w [Hw' Hn]]. rewrite Hw in Hw'. injection Hw' as <-. now subst n.
Qed.

(** C5 as stated fails.  Nodes 1, 2 and 3 have sent a heartbeat and the
    radio is dead.  At the next tick one sweep fails nodes 1 and 3 (node 2,
    which takes the place of node 1 in the list, is not probed); in that
    same tick both get their warning, and the slot ends with node 3: the
    wait of node 1 is replaced before it is ever polled. *)
Lemma ack_wait_counterexample :
  let E := slow_polling deaf_env in
  let s := state_of (main E (firstn 1 three_heartbeats) (boot empty_db)) in
  let o := health_checks E (1000 * SECOND) s in
  connected_clients s = [1; 2; 3]
  /\ connect_fail_clients s = []
  /\ connect_fail_clients (state_of o) = [1; 3]
  /\ filter (fun e => match e with Log Lwarn _ _ => true | _ => false end) (trace_of o)
     = [waiting_log 1; waiting_log 3]
  /\ option_map aw_node_id (waiting_for_ack_state (state_of o)) = Some 3.
Proof. vm_compute. repeat split; reflexivity. Qed.

(* ====================================================================== *)
(** * The connected list and the failed list *)
(* ====================================================================== *)

Lemma mem_In x l : Py.mem x l = true <-> In x l.
Proof.
  unfold Py.mem. rewrite existsb_exists. split.
  - intros [y [Hy Heq]]. apply Z.eqb_eq in Heq. now subst.
  - intro H. exists x. split; [exact H | apply Z.eqb_refl].
Qed.

Lemma mem_not_In x l : Py.mem x l = false <-> ~ In x l.
Proof.
  rewrite <- mem_In. destruct (Py.mem x l); split; intro H;
    congruence || (exfalso; now apply H).
Qed.

Lemma remove_first_In x y l : In y (Py.remove_first x l) -> In y l.
Proof.
  induction l as [ | a l IH]; simpl; [tauto | ].
  destruct (a =? x); simpl; [now right | ].
  intros [H | H]; [now left | right; now apply IH].
Qed.

Lemma remove_first_NoDup x l : NoDup l -> NoDup (Py.remove_first x l).
Proof.
  induction 1 as [ | a l Ha Hl IH]; simpl; [constructor | ].
  destruct (a =? x); [exact Hl | ].
  constructor; [ | exact IH]. intro H. apply Ha. eapply remove_first_In; eauto.
Qed.

Lemma remove_first_gone x l : NoDup l -> ~ In x (Py.remove_first x l).
Proof.
  induction 1 as [ | a l Ha Hl IH]; simpl; [tauto | ].
  destruct (Z.eqb_spec a x) as [-> | Hne]; [exact Ha | ].
  simpl. intros [H | H]; [congruence | now apply IH].
Qed.

Lemma NoDup_snoc (x : Z) l : NoDup l -> ~ In x l -> NoDup (l ++ [x]).
Proof.
  intros Hl Hx. apply NoDup_app; [exact Hl | repeat constructor; simpl; tauto | ].
  intros a Ha [<- | []]. now apply Hx.
Qed.

Section PreservesRules.
Context {T : Type} (P : State -> Prop).

Lemma preserves_ret A (a : A) : preserves P (@ret T A a).
Proof. intros s H. exact H. Qed.

Lemma preserves_bind A B (m : M T A) (k : A -> M T B) :
  preserves P m -> (forall a, preserves P (k a)) -> preserves P (bind m k).
Proof.
  intros Hm Hk s H. unfold bind. specialize (Hm s H).
  destruct (m s) as [a s1 tr1 | e s1 tr1]; [ | exact Hm].
  specialize (Hk a s1 Hm). destruct (k a s1); exact Hk.
Qed.

Lemma preserves_when (b : bool) (m : M T unit) :
  preserves P m -> preserves P (when b m).
Proof. intro H. destruct b; [exact H | apply preserves_ret]. Qed.

Lemma preserves_for_each Y (xs : list Y) (body : Y -> M T unit) :
  (forall x, preserves P (body x)) -> preserves P (for_each xs body).
Proof.
  intro H. induction xs as [ | x xs IH]; simpl.
  - apply preserves_ret.
  - apply preserves_bind; auto.
Qed.

Lemma preserves_state_of A (m : M T A) s :
  preserves P m -> P s -> P (state_of (m s)).
Proof. intros Hm H. specialize (Hm s H). destruct (m s); exact Hm. Qed.

End PreservesRules.

Lemma preserves_relabel {T U A} (P : State -> Prop) (g : T -> U) (m : M T A) :
  preserves P m -> preserves P (relabel g m).
Proof.
  intros Hm s H. unfold relabel. specialize (Hm s H). destruct (m s); exact Hm.
Qed.

Lemma keeps_preserves {T A X} (f : State -> X) (Q : X -> Prop) (m : M T A) :
  keeps f m -> preserves (fun s => Q (f s)) m.
Proof.
  intros Hk s H. specialize (Hk s). destruct (m s); simpl in Hk; now rewrite Hk.
Qed.

Lemma keeps_sets_tidy {T A} (m : M T A) : keeps sets m -> preserves tidy m.
Proof. apply (keeps_preserves sets tidy_lists). Qed.

Lemma tidy_track c f n :
  tidy_lists (c, f) ->
  tidy_lists (if Py.mem n c then c else (c ++ [n])%list,
              if Py.mem n f then Py.remove_first n f else f).
Proof.
  intros (Hc & Hf & Hx). simpl in *.
  assert (Hc' : NoDup (if Py.mem n c then c else (c ++ [n])%list)).
  { destruct (Py.mem n c) eqn:Hm; [exact Hc | ].
    apply NoDup_snoc; [exact Hc | now apply mem_not_In]. }
  assert (Hf' : NoDup (if Py.mem n f then Py.remove_first n f else f)).
  { destruct (Py.mem n f); [now apply remove_first_NoDup | exact Hf]. }
  repeat split; simpl; [exact Hc' | exact Hf' | ].
  intros x [Hxc Hxf].
  assert (Hxf' : In x f /\ (x = n -> False)).
  { destruct (Py.mem n f) eqn:Hm.
    - split; [eapply remove_first_In; eauto | ].
      intros ->. now apply (remove_first_gone n f Hf).
    - split; [exact Hxf | ]. intros ->. now apply (mem_not_In n f). }
  destruct Hxf' as [Hin Hne].
  destruct (Py.mem n c).
  - apply (Hx x). now split.
  - apply in_app_or in Hxc. destruct Hxc as [Hxc | [<- | []]].
    + apply (Hx x). now split.
    + now apply Hne.
Qed.

Lemma tidy_fail c f n :
  tidy_lists (c, f) -> In n c ->
  tidy_lists (if Py.mem n c then Py.remove_first n c else c, (f ++ [n])%list).
Proof.
  intros (Hc & Hf & Hx) Hin. simpl in *.
  assert (Hm : Py.mem n c = true) by now apply mem_In.
  rewrite Hm. repeat split; simpl.
  - now apply remove_first_NoDup.
  - apply NoDup_snoc; [exact Hf | ]. intro H. apply (Hx n). now split.
  - intros x [Hxc Hxf]. apply in_app_or in Hxf. destruct Hxf as [Hxf | [<- | []]].
    + apply (Hx x). split; [eapply remove_first_In; eauto | exact Hxf].
    + now apply (remove_first_gone n c Hc).
Qed.

Lemma preserves_tidy_track_node E n m : preserves tidy (track_node E n m).
Proof.
  intros s H. unfold track_node, bind, read_time, modify, gets, when, log, emit, ret.
  simpl.
  assert (Hk := keeps_update_node_status E n (Some m)).
  apply keeps_core_sets in Hk.
  generalize (tidy_track _ _ n H). intro Ht.
  destruct (Py.mem n (connected_clients s)) eqn:Hc; simpl;
    destruct (Py.mem n (connect_fail_clients s)) eqn:Hf; simpl;
    match goal with
    | |- context [update_node_status E n (Some m) ?st] =>
        specialize (Hk st);
        destruct (update_node_status E n (Some m) st); simpl in Hk;
        unfold tidy; rewrite Hk; exact Ht
    end.
Qed.

Lemma preserves_tidy_ping_node E n :
  triple (fun s => tidy s /\ In n (connected_clients s)) (ping_node E n)
    (fun _ => tidy) tidy.
Proof.
  intros s [H Hin]. unfold ping_node, bind, gets, read_time. simpl.
  destruct (_ <? PING_INTERVAL); simpl; [exact H | ].
  match goal with
  | |- context [send_message_to_node E n ?msg ?st] =>
      destruct (send_total E n msg st) as (sent & k & tr & Hsend & _); rewrite Hsend
  end.
  destruct sent; simpl; unfold modify; simpl.
  - (* the probe went through *)
    generalize (tidy_track _ _ n H). unfold tidy, sets. simpl.
    destruct (Py.mem n (connected_clients s)); simpl;
      destruct (Py.mem n (connect_fail_clients s)); simpl; auto.
  - (* the probe failed *)
    assert (Hm : Py.mem n (connected_clients s) = true) by now apply mem_In.
    rewrite Hm. simpl.
    assert (Hk := keeps_mark_node_offline E n). apply keeps_core_sets in Hk.
    match goal with
    | |- context [mark_node_offline E n ?st] =>
        specialize (Hk st);
        assert (Ht : tidy st)
          by (unfold tidy, sets; simpl;
              generalize (tidy_fail _ _ n H Hin); rewrite Hm; simpl; auto);
        destruct (mark_node_offline E n st); simpl in Hk;
        unfold tidy; rewrite Hk; exact Ht
    end.
Qed.

Lemma preserves_tidy_ping_sweep E fuel : forall i,
  preserves tidy (ping_sweep E fuel i).
Proof.
  induction fuel as [ | fuel IH]; intros i s H; simpl; [exact H | ].
  unfold bind at 1, gets. simpl.
  destruct (nth_error (connected_clients s) i) as [client | ] eqn:Hn; simpl; [ | exact H].
  assert (Hp := preserves_tidy_ping_node E client s (conj H (nth_error_In _ _ Hn))).
  unfold bind. destruct (ping_node E client s) as [a s1 tr1 | e s1 tr1]; [ | exact Hp].
  specialize (IH (S i) s1 Hp). destruct (ping_sweep E fuel (S i) s1); exact IH.
Qed.

Create HintDb tidy.
#[local] Hint Resolve preserves_tidy_track_node preserves_tidy_ping_sweep : tidy.

Ltac tidy_step :=
  lazymatch goal with
  | |- preserves _ (bind _ _) => apply preserves_bind; [ | intros ]
  | |- preserves _ (when _ _) => apply preserves_when
  | |- preserves _ (for_each _ _) => apply preserves_for_each; intros
  | |- preserves _ (relabel _ _) => apply preserves_relabel
  | |- preserves _ (in_phase _ _) => apply preserves_relabel
  | |- preserves _ (match ?x with _ => _ end) => destruct x
  | |- preserves tidy _ =>
      first [ solve [auto with tidy] | apply keeps_sets_tidy; solve [keeps_auto] ]
  end.

Ltac tidy_auto := repeat tidy_step.

Lemma preserves_tidy_health_checks E t : preserves tidy (health_checks E t).
Proof. unfold health_checks. tidy_auto. Qed.

Lemma preserves_tidy_process_frame E frame : preserves tidy (process_frame E frame).
Proof. unfold process_frame. destruct frame as [n m]. tidy_auto. Qed.

#[local] Hint Resolve preserves_tidy_health_checks preserves_tidy_process_frame : tidy.

Lemma preserves_tidy_mesh_updates E inbox : preserves tidy (mesh_updates E inbox).
Proof. unfold mesh_updates. tidy_auto. Qed.

#[local] Hint Resolve preserves_tidy_mesh_updates : tidy.

Lemma preserves_tidy_iteration E inp : preserves tidy (iteration E inp).
Proof. unfold iteration. tidy_auto. Qed.

Lemma preserves_tidy_startup E : preserves tidy (startup E).
Proof. unfold startup. tidy_auto. Qed.

#[local] Hint Resolve preserves_tidy_iteration preserves_tidy_startup : tidy.

Lemma preserves_tidy_main E inputs : preserves tidy (main E inputs).
Proof. unfold main, run. tidy_auto. Qed.

Lemma tidy_boot d : tidy (boot d).
Proof. repeat split; simpl; try constructor. tauto. Qed.

Lemma reachable_tidy E s : reachable E s -> tidy s.
Proof.
  intros (d & inputs & <-).
  apply preserves_state_of; [apply preserves_tidy_main | apply tidy_boot].
Qed.

(** C7.  In every state that the controller reaches, after any number of
    iterations over any frames and commands, with any behaviour of the
    radio, the database and the clocks, and also when an exception ends
    the loop, no node id is in the connected list and in the failed list
    at once.  The operations that change membership maintain it, together
    with the absence of repetitions in either list: tracking the sender of
    an inbound frame, from any state, and a probe (whether it succeeds,
    fails or is skipped) of a node of the connected list, which are the
    nodes the sweep probes. *)
Theorem connected_failed_exclusive E :
  (forall s, reachable E s -> exclusive s)
  /\ (forall s, tidy s -> exclusive s)
  /\ (forall n message s, tidy s -> tidy (state_of (track_node E n message s)))
  /\ (forall n s, tidy s -> In n (connected_clients s) ->
                  tidy (state_of (ping_node E n s))).
Proof.
  assert (Hx : forall s, tidy s -> exclusive s).
  { intros s (_ & _ & H). exact H. }
  split; [ | split; [exact Hx | split] ].
  - intros s H. apply Hx. now apply (reachable_tidy E).
  - intros n message s H. apply preserves_state_of; [ | exact H].
    apply preserves_tidy_track_node.
  - intros n s H Hin.
    assert (Hp := preserves_tidy_ping_node E n s (conj H Hin)).
    destruct (ping_node E n s); exact Hp.
Qed.

Lemma connected_failed_exclusive_witness :
  let s := state_of (main (slow_polling deaf_env) three_heartbeats (boot empty_db)) in
  reachable (slow_polling deaf_env) s
  /\ connected_clients s = [2]
  /\ connect_fail_clients s = [1; 3]
  /\ exclusive s.
Proof.
  intro s.
  assert (Hr : reachable (slow_polling deaf_env) s).
  { exists empty_db, three_heartbeats. reflexivity. }
  split; [exact Hr | ].
  split; [vm_compute; reflexivity | ].
  split; [vm_compute; reflexivity | ].
  exact (proj1 (connected_failed_exclusive (slow_polling deaf_env)) s Hr).
Defined.

(* ====================================================================== *)
(** * The safety watchdog *)
(* ====================================================================== *)

Lemma trace_of_bind {T A B} (m : M T A) (k : A -> M T B) s :
  trace_of (bind m k s)
  = (trace_of (m s)
     ++ match m s with
        | Ok a s1 _ => trace_of (k a s1)
        | Raised _ _ _ => []
        end)%list.
Proof.
  unfold bind. destruct (m s) as [a s1 tr1 | e s1 tr1]; simpl.
  - destruct (k a s1); reflexivity.
  - now rewrite app_nil_r.
Qed.

Lemma state_of_bind {T A B} (m : M T A) (k : A -> M T B) s :
  state_of (bind m k s)
  = match m s with
    | Ok a s1 _ => state_of (k a s1)
    | Raised _ s1 _ => s1
    end.
Proof.
  unfold bind. destruct (m s) as [a s1 tr1 | e s1 tr1]; simpl; [ | reflexivity].
  destruct (k a s1); reflexivity.
Qed.

Lemma phase_trace_app p tr1 tr2 :
  phase_trace p (tr1 ++ tr2) = (phase_trace p tr1 ++ phase_trace p tr2)%list.
Proof. unfold phase_trace. now rewrite filter_app, map_app. Qed.

Lemma phase_trace_in_phase {A} p q (m : M effect A) s :
  phase_trace p (trace_of (in_phase q m s))
  = if phase_eqb q p then trace_of (m s) else [].
Proof.
  unfold in_phase, relabel, phase_trace.
  assert (H : forall tr : list effect,
             map snd (filter (fun e => phase_eqb (fst e) p) (map (pair q) tr))
             = if phase_eqb q p then tr else []).
  { induction tr as [ | e tr IH]; simpl; [now destruct (phase_eqb q p) | ].
    destruct (phase_eqb q p) eqn:Hq; simpl; [now rewrite IH | exact IH]. }
  destruct (m s); simpl; apply H.
Qed.

Lemma quiet_bind {A B} p (m : M (phase * effect) A) (k : A -> M (phase * effect) B) :
  quiet p m -> (forall a, quiet p (k a)) -> quiet p (bind m k).
Proof.
  intros Hm Hk s. rewrite trace_of_bind, phase_trace_app, Hm. simpl.
  destruct (m s); [apply Hk | reflexivity].
Qed.

Lemma quiet_in_phase {A} p q (m : M effect A) :
  phase_eqb q p = false -> quiet p (in_phase q m).
Proof. intros H s. rewrite phase_trace_in_phase, H. reflexivity. Qed.

Lemma quiet_after_watchdog E inp t : quiet PWatchdog (after_watchdog E inp t).
Proof.
  unfold after_watchdog.
  repeat (apply quiet_bind; [ | intros ]); now apply quiet_in_phase.
Qed.

Lemma has_get_none k p : Codec.has k p = false -> Codec.get k p = None.
Proof.
  unfold Codec.has, Codec.get, Py.dict_has.
  destruct (Py.dict_get String.eqb k p); [discriminate | reflexivity].
Qed.

Lemma keeps_latch_dispatch E n p :
  Codec.has "t" p = false -> keeps latch (dispatch E n p).
Proof.
  intro H. unfold dispatch, rule_t. rewrite (has_get_none _ _ H). keeps_auto.
Qed.

Lemma keeps_latch_process_frame E frame :
  silent_frame frame -> keeps latch (process_frame E frame).
Proof.
  unfold silent_frame, process_frame. destruct frame as [n m]. simpl.
  intro H. keeps_auto. now apply keeps_latch_dispatch.
Qed.

Lemma keeps_latch_mesh_updates E inbox :
  Forall silent_frame inbox -> keeps latch (mesh_updates E inbox).
Proof.
  intro H. unfold mesh_updates.
  apply keeps_bind; [keeps_auto | intros _].
  apply keeps_bind; [keeps_auto | intros _].
  induction H as [ | frame inbox Hf Hrest IH]; simpl.
  - apply keeps_ret.
  - apply keeps_bind; [now apply keeps_latch_process_frame | intros _; exact IH].
Qed.

Lemma keeps_latch_after_watchdog E inp t :
  silent inp -> keeps latch (after_watchdog E inp t).
Proof.
  intro H. unfold after_watchdog, in_phase.
  repeat (apply keeps_bind; [ | intros ]); apply keeps_relabel.
  - keeps_auto.
  - keeps_auto.
  - now apply keeps_latch_mesh_updates.
  - keeps_auto.
Qed.

Lemma iteration_unfold E inp s :
  iteration E inp s
  = bind (in_phase PWatchdog (safety_watchdog E (time_time E (n_time s))))
      (fun _ => after_watchdog E inp (time_time E (n_time s)))
      (set_n_time (S (n_time s)) s).
Proof.
  unfold iteration, after_watchdog.
  unfold bind at 1. unfold in_phase at 1, relabel at 1, read_time. simpl.
  match goal with |- match ?o with _ => _ end = _ => destruct o; reflexivity end.
Qed.

Lemma watchdog_latched E t s :
  latch s = (true, true) -> safety_watchdog E t s = Ok tt s [].
Proof.
  unfold latch. intro H. injection H as Hw Hd.
  unfold safety_watchdog, bind, gets, when. cbv beta iota. rewrite Hw. cbn.
  rewrite Hd. reflexivity.
Qed.

Lemma send_trace_indep E node_id message s s' :
  n_write s = n_write s' ->
  trace_of (send_message_to_node E node_id message s)
  = trace_of (send_message_to_node E node_id message s').
Proof.
  intro H. rewrite !send_message_to_node_cases, H.
  destruct (mesh_write E (n_write s'));
    [ | destruct (mesh_write E (1 + n_write s'));
        [ | destruct (mesh_write E (2 + n_write s')) ] ]; reflexivity.
Qed.

Lemma database_log_trace_indep E b s s' :
  n_db s = n_db s' -> db s = db s' -> n_now s = n_now s' ->
  trace_of (database_log E b s) = trace_of (database_log E b s').
Proof.
  intros Hn Hd Hc. rewrite !database_log_run.
  assert (Hrep : reported E s = reported E s').
  { unfold reported, last_event, last_row. now rewrite Hn, Hd. }
  assert (Hread : read_trace E s = read_trace E s').
  { unfold read_trace, last_row. now rewrite Hn, Hd. }
  assert (Hlog : logged_trace E b s = logged_trace E b s').
  { unfold logged_trace, insert_stamp. now rewrite Hc. }
  rewrite Hrep, Hread, Hlog, Hn.
  destruct (opt_bool_eqb (reported E s') b); [reflexivity | ].
  destruct (db_up E (S (n_db s'))); reflexivity.
Qed.

Lemma watchdog_fires E t s :
  shutdown_executed s = false ->
  TEMP_SAFETY_TIMEOUT < t - last_temp_received_time s ->
  db_up E (n_db s) = true ->
  stored_state E s = Some true ->
  exists s1,
    safety_watchdog E t s
    = Ok tt s1 ((if warning_printed s then [] else [warn_log])
                ++ [safety_log; shutoff_log]
                ++ trace_of (send_message_to_node E NODE_AC_RELAY "a0" s)
                ++ trace_of (database_log E false (set_n_db (S (n_db s)) s)))%list
    /\ latch s1 = (true, true).
Proof.
  intros Hd Ht Hup Hon.
  assert (Hsafe : (TEMP_SAFETY_TIMEOUT <? t - last_temp_received_time s) = true)
    by now apply Z.ltb_lt.
  assert (Hwarn : (TEMP_WARNING_TIMEOUT <? t - last_temp_received_time s) = true).
  { apply Z.ltb_lt. unfold TEMP_WARNING_TIMEOUT, TEMP_SAFETY_TIMEOUT, SECOND in *. lia. }
  assert (Hrest :
    forall sa0, warning_printed sa0 = true -> shutdown_executed sa0 = false ->
      last_temp_received_time sa0 = last_temp_received_time s ->
      n_db sa0 = n_db s -> db sa0 = db s ->
      n_write sa0 = n_write s -> n_now sa0 = n_now s ->
      exists s1,
        (done <- gets shutdown_executed ;;
         when (negb done && (TEMP_SAFETY_TIMEOUT <? t - last_temp_received_time s)) (
           log Lerror "No temperature in 120s - safety check" ;;
           on <- get_ac_state E ;;
           when on (
             log Lerror "Turning off AC due to temp timeout" ;;
             send_ E NODE_AC_RELAY (Codec.build_packet [("a", Py.str_int 0)]) ;;
             database_log E false) ;;
           modify (set_shutdown_executed true))) sa0
        = Ok tt s1 ([safety_log; shutoff_log]
                    ++ trace_of (send_message_to_node E NODE_AC_RELAY "a0" s)
                    ++ trace_of (database_log E false (set_n_db (S (n_db s)) s)))%list
        /\ latch s1 = (true, true)).
  { intros sa0 Hw0 Hd0 Hl0 Hndb Hdb Hnw Hnn.
    assert (Hup0 : db_up E (n_db sa0) = true) by now rewrite Hndb.
    assert (Hon0 : stored_state E sa0 = Some true).
    { unfold stored_state, last_row in *. now rewrite Hndb, Hdb. }
    erewrite bind_Ok; [ | reflexivity]. cbv beta. rewrite Hd0, Hsafe. simpl negb.
    cbn [andb when].
    erewrite bind_Ok; [ | reflexivity]. cbv beta.
    rewrite (bind_Ok _ _ _ _ _ _ (get_ac_state_up E sa0 Hup0)). rewrite Hon0.
    cbn [when].
    set (sb := set_n_db (S (n_db sa0)) sa0).
    destruct (send_total E NODE_AC_RELAY "a0" sb) as (sent & k & tr & Hsend & _).
    assert (Htr : tr = trace_of (send_message_to_node E NODE_AC_RELAY "a0" s)).
    { rewrite <- (send_trace_indep E NODE_AC_RELAY "a0" sb s) by exact Hnw.
      now rewrite Hsend. }
    set (sc := set_n_write (k + n_write sb) sb) in *.
    destruct (database_log_total E false sc) as (sd & trd & Hlog).
    assert (Hlt : trd = trace_of (database_log E false (set_n_db (S (n_db s)) s))).
    { rewrite <- (database_log_trace_indep E false sc (set_n_db (S (n_db s)) s)).
      - now rewrite Hlog.
      - cbn. now rewrite Hndb.
      - exact Hdb.
      - exact Hnn. }
    assert (Hlatch : latch sd = latch sc).
    { assert (Hk := keeps_database_log E false sc). rewrite Hlog in Hk. simpl in Hk.
      exact (f_equal snd Hk). }
    change (Codec.build_packet [("a", Py.str_int 0)]) with "a0".
    erewrite (bind_Ok (bind _ _)).
    2:{ erewrite bind_Ok; [ | reflexivity]. cbv beta.
        rewrite (bind_Ok _ _ _ _ _ _ (send__Ok _ _ _ _ _ _ _ Hsend)).
        rewrite Hlog. reflexivity. }
    unfold modify. eexists. split.
    - rewrite Htr, Hlt. cbn [app]. rewrite !app_nil_r. reflexivity.
    - unfold latch in *. cbn. injection Hlatch as Hw1 _. rewrite Hw1. cbn. now rewrite Hw0. }
  unfold safety_watchdog.
  erewrite bind_Ok; [ | reflexivity]. cbv beta.
  erewrite bind_Ok; [ | reflexivity]. cbv beta.
  rewrite Hwarn.
  destruct (warning_printed s) eqn:Hw; cbn [negb andb when].
  - erewrite bind_Ok; [ | reflexivity]. cbv beta.
    destruct (Hrest s Hw Hd eq_refl eq_refl eq_refl eq_refl eq_refl) as (s1 & Hrun & Hl).
    rewrite Hrun. exists s1. split; [reflexivity | exact Hl].
  - erewrite bind_Ok; [ | reflexivity]. cbv beta.
    destruct (Hrest (set_warning_printed true s) eq_refl Hd eq_refl eq_refl eq_refl
                eq_refl eq_refl) as (s1 & Hrun & Hl).
    rewrite Hrun. exists s1. split; [reflexivity | exact Hl].
Qed.

Lemma iteration_watchdog_trace E inp s :
  phase_trace PWatchdog (trace_of (iteration E inp s))
  = trace_of (safety_watchdog E (time_time E (n_time s)) (set_n_time (S (n_time s)) s)).
Proof.
  rewrite iteration_unfold, trace_of_bind, phase_trace_app, phase_trace_in_phase.
  simpl phase_eqb. cbv iota.
  match goal with
  | |- (_ ++ phase_trace _ ?rest)%list = _ =>
      assert (Hq : phase_trace PWatchdog rest = [])
  end.
  { destruct (in_phase PWatchdog _ _); [apply quiet_after_watchdog | reflexivity]. }
  rewrite Hq. apply app_nil_r.
Qed.

Lemma iteration_latch E inp s s1 tr :
  silent inp ->
  safety_watchdog E (time_time E (n_time s)) (set_n_time (S (n_time s)) s) = Ok tt s1 tr ->
  latch (state_of (iteration E inp s)) = latch s1.
Proof.
  intros Hs Hw. rewrite iteration_unfold, state_of_bind.
  unfold in_phase at 1, relabel. rewrite Hw.
  apply keeps_latch_after_watchdog. exact Hs.
Qed.

Lemma run_cons E inp inputs s :
  run E (inp :: inputs) s = bind (iteration E inp) (fun _ => run E inputs) s.
Proof. reflexivity. Qed.

Lemma run_latched E inputs : forall s,
  Forall silent inputs -> latch s = (true, true) ->
  phase_trace PWatchdog (trace_of (run E inputs s)) = [].
Proof.
  induction inputs as [ | inp inputs IH]; intros s Hs Hl; [reflexivity | ].
  inversion Hs as [ | ? ? Hinp Hrest]; subst.
  assert (Hw : safety_watchdog E (time_time E (n_time s)) (set_n_time (S (n_time s)) s)
               = Ok tt (set_n_time (S (n_time s)) s) [])
    by (apply watchdog_latched; exact Hl).
  rewrite run_cons, trace_of_bind, phase_trace_app, iteration_watchdog_trace, Hw.
  simpl. assert (Hl' := iteration_latch E inp s _ _ Hinp Hw).
  destruct (iteration E inp s) as [a s1 tr1 | e s1 tr1]; [ | reflexivity].
  apply IH; [exact Hrest | ]. simpl in Hl'. rewrite Hl'. exact Hl.
Qed.

Lemma has_get_some k p : Codec.has k p = true -> exists v, Codec.get k p = Some v.
Proof.
  unfold Codec.has, Codec.get, Py.dict_has.
  destruct (Py.dict_get String.eqb k p); [eauto | discriminate].
Qed.

Lemma rule_t_resets E n p s :
  Codec.has "t" p = true -> latch (state_of (rule_t E n p s)) = (false, false).
Proof.
  intro H. destruct (has_get_some _ _ H) as [v Hv]. unfold rule_t. rewrite Hv.
  repeat (rewrite state_of_bind; cbn [modify read_time]).
  match goal with
  | |- latch (state_of (when ?b ?m ?st)) = _ =>
      assert (Hk : keeps latch (when b m)) by keeps_auto; rewrite (Hk st)
  end.
  reflexivity.
Qed.

Lemma dispatch_resets E n p s s1 tr :
  Codec.has "t" p = true -> dispatch E n p s = Ok tt s1 tr -> latch s1 = (false, false).
Proof.
  intros Ht H. unfold dispatch in H. unfold bind at 1 in H.
  destruct (rule_s E n p s) as [a sa tra | e sa tra]; [ | discriminate].
  match type of H with
  | match ?o with _ => _ end = _ =>
      assert (Hl : latch (state_of o) = (false, false))
  end.
  { rewrite state_of_bind. assert (Hr := rule_t_resets E n p sa Ht).
    destruct (rule_t E n p sa) as [b sb trb | e sb trb]; simpl in Hr; [ | exact Hr].
    match goal with
    | |- latch (state_of (?m sb)) = _ =>
        assert (Hk : keeps latch m) by keeps_auto; rewrite (Hk sb)
    end.
    exact Hr. }
  match type of H with
  | match ?o with _ => _ end = _ => destruct o; simpl in Hl; congruence
  end.
Qed.

Lemma process_frame_resets E frame packet s s1 tr :
  Codec.parse_packet (snd frame) = Some packet ->
  Codec.has "t" packet = true ->
  process_frame E frame s = Ok tt s1 tr ->
  latch s1 = (false, false).
Proof.
  destruct frame as [n m]. simpl. intros Hp Ht H.
  assert (Hpk : Codec.is_packet m = true).
  { unfold Codec.parse_packet in Hp. destruct (Codec.is_packet m); [reflexivity | discriminate]. }
  assert (Htr : Codec.truthy packet = true).
  { destruct packet; [discriminate Ht | reflexivity]. }
  unfold process_frame in H. rewrite Hpk, Hp, Htr in H. cbn [when] in H.
  unfold bind at 1 in H.
  destruct (log_node Lrx (Codec.describe_message m) n s) as [a sa tra | e sa tra];
    [ | discriminate].
  unfold bind at 1 in H.
  destruct (track_node E n m sa) as [b sb trb | e sb trb]; [ | discriminate].
  destruct (dispatch E n packet sb) as [c sc trc | e sc trc] eqn:Hd; [ | discriminate].
  destruct c. injection H as <- _.
  eapply dispatch_resets; eauto.
Qed.

Lemma dict_get_set (k k' v : string) (d : Codec.packet) :
  Py.dict_get String.eqb k (Py.dict_set String.eqb k' v d)
  = if String.eqb k' k then Some v else Py.dict_get String.eqb k d.
Proof.
  induction d as [ | [k0 v0] d IH]; simpl.
  - reflexivity.
  - destruct (String.eqb_spec k0 k') as [-> | Hne]; simpl.
    + destruct (String.eqb k' k); reflexivity.
    + rewrite IH. destruct (String.eqb_spec k0 k) as [-> | Hne2]; [ | reflexivity].
      destruct (String.eqb_spec k' k) as [-> | _]; [congruence | reflexivity].
Qed.

(** A key is in the parsed frame when the frame had it already or one
    of the segments is the key followed by a value. *)
Lemma parsed_has key pieces : forall acc,
  Codec.has (String key EmptyString) (fold_left Codec.parse_pair pieces acc)
  = Codec.has (String key EmptyString) acc || existsb (segment_of key) pieces.
Proof.
  induction pieces as [ | p pieces IH]; intro acc; simpl; [now rewrite orb_false_r | ].
  rewrite IH, orb_assoc. f_equal.
  unfold Codec.parse_pair. destruct p as [ | c [ | v0 v]]; simpl segment_of;
    try now rewrite orb_false_r.
  unfold Codec.has, Py.dict_has. rewrite dict_get_set. simpl String.eqb.
  destruct (Ascii.eqb c key); simpl;
    destruct (Py.dict_get String.eqb (String key EmptyString) acc); reflexivity.
Qed.

Lemma text_resets E current_node message s s1 tr :
  Codec.is_packet message = true ->
  existsb (segment_of "t") (Py.split "," message) = true ->
  process_frame E (current_node, message) s = Ok tt s1 tr ->
  latch s1 = (false, false).
Proof.
  intros Hpk Hseg Hrun.
  apply (process_frame_resets E (current_node, message)
           (fold_left Codec.parse_pair (Py.split "," message) []) s s1 tr).
  - unfold Codec.parse_packet. simpl. now rewrite Hpk.
  - change "t"%string with (String "t"%char EmptyString). rewrite parsed_has, Hseg.
    apply orb_true_r.
  - exact Hrun.
Qed.

(** C1, as amended.  An iteration starts more than 180 s after the last
    temperature, the watchdog has not made its safety check in this
    outage, the database answers the check and the row it returns says
    the actuator is on.  Then over this iteration and any number of
    further ones in which no frame carries a temperature, what the
    watchdog does is, in all: the warning if it is still due, its two
    error lines, one [send_message_to_node] of [a0] to the actuator node
    (one to three radio writes) and one call of [database_log(False)],
    which inserts one off-event unless its own read of the log reports
    off or the database does not take the row.  Nothing more comes from
    the watchdog however long the silence lasts, whatever else arrives
    meanwhile.  A frame whose text holds a segment [t] with a value,
    once processed, leaves both latches released. *)
Theorem watchdog_forces_off_once E s inp inputs :
  shutdown_executed s = false ->
  TEMP_SAFETY_TIMEOUT < time_time E (n_time s) - last_temp_received_time s ->
  db_up E (n_db s) = true ->
  stored_state E s = Some true ->
  Forall silent (inp :: inputs) ->
  let checked := set_n_db (S (n_db s)) s in
  let watchdog := phase_trace PWatchdog (trace_of (run E (inp :: inputs) s)) in
  watchdog
  = ((if warning_printed s then [] else [warn_log])
     ++ [safety_log; shutoff_log]
     ++ trace_of (send_message_to_node E NODE_AC_RELAY "a0" s)
     ++ trace_of (database_log E false checked))%list
  /\ (1 <= List.length (filter is_write watchdog) <= 3)%nat
  /\ Forall is_off_write (filter is_write watchdog)
  /\ filter is_insert watchdog
     = (if appends E false checked then [DbInsert (insert_stamp E s) false] else [])
  /\ (forall current_node message s0 s1 tr,
        Codec.is_packet message = true ->
        existsb (segment_of "t") (Py.split "," message) = true ->
        process_frame E (current_node, message) s0 = Ok tt s1 tr ->
        warning_printed s1 = false /\ shutdown_executed s1 = false).
Proof.
  intros Hd Ht Hup Hon Hsilent checked watchdog.
  inversion Hsilent as [ | ? ? Hinp Hrest]; subst.
  assert (Heq : watchdog
    = ((if warning_printed s then [] else [warn_log])
       ++ [safety_log; shutoff_log]
       ++ trace_of (send_message_to_node E NODE_AC_RELAY "a0" s)
       ++ trace_of (database_log E false checked))%list).
  { subst watchdog.
    destruct (watchdog_fires E (time_time E (n_time s)) (set_n_time (S (n_time s)) s)
                Hd Ht Hup Hon) as (s1 & Hw & Hl).
    rewrite run_cons, trace_of_bind, phase_trace_app, iteration_watchdog_trace, Hw.
    assert (Hl' := iteration_latch E inp s _ _ Hinp Hw).
    assert (Hq : phase_trace PWatchdog
                   match iteration E inp s with
                   | Ok a s2 _ => trace_of (run E inputs s2)
                   | Raised _ _ _ => []
                   end = []).
    { destruct (iteration E inp s) as [a s2 tr2 | e s2 tr2]; [ | reflexivity].
      apply run_latched; [exact Hrest | ]. simpl in Hl'. now rewrite Hl'. }
    rewrite Hq, app_nil_r. cbn [trace_of warning_printed set_n_time].
    rewrite (send_trace_indep E NODE_AC_RELAY "a0" (set_n_time (S (n_time s)) s) s)
      by reflexivity.
    rewrite (database_log_trace_indep E false
               (set_n_db (S (n_db (set_n_time (S (n_time s)) s))) (set_n_time (S (n_time s)) s))
               checked) by reflexivity.
    reflexivity. }
  destruct (send_writes E NODE_AC_RELAY "a0" s) as (Hlen & Hall & Hins).
  destruct (database_log_rows E false checked) as [_ Hlogged].
  assert (Hlogw : filter is_write (trace_of (database_log E false checked)) = []).
  { rewrite database_log_run. unfold read_trace.
    destruct (opt_bool_eqb (reported E checked) false);
      [ | destruct (db_up E (S (n_db checked))); cbn [trace_of]; rewrite filter_app ];
      cbn [trace_of];
      (destruct (db_up E (n_db checked)); [ | reflexivity]);
      (destruct (last_row E checked) as [[ts st] | ]; [ | reflexivity]);
      destruct (strptime ts); reflexivity. }
  split; [exact Heq | ].
  rewrite Heq.
  assert (Hfw : filter is_write
                  ((if warning_printed s then [] else [warn_log])
                   ++ [safety_log; shutoff_log]
                   ++ trace_of (send_message_to_node E NODE_AC_RELAY "a0" s)
                   ++ trace_of (database_log E false checked))%list
                = filter is_write (trace_of (send_message_to_node E NODE_AC_RELAY "a0" s))).
  { rewrite !filter_app, Hlogw. destruct (warning_printed s); simpl; now rewrite app_nil_r. }
  rewrite Hfw. split; [exact Hlen | ]. split; [exact Hall | ].
  split.
  { rewrite !filter_app, Hins, Hlogged. destruct (warning_printed s); reflexivity. }
  intros current_node message s0 s1 tr Hpk Hseg Hrun.
  assert (Hl := text_resets E current_node message s0 s1 tr Hpk Hseg Hrun).
  unfold latch in Hl. injection Hl as Hw1 Hd1. now split.
Qed.

Lemma watchdog_forces_off_once_witness :
  let E := late_env in
  let s := boot (one_event_db HALF true) in
  let latched := state_of (run E quiet_inputs s) in
  shutdown_executed s = false
  /\ TEMP_SAFETY_TIMEOUT < time_time E (n_time s) - last_temp_received_time s
  /\ db_up E (n_db s) = true
  /\ stored_state E s = Some true
  /\ Forall silent quiet_inputs
  /\ filter is_write (phase_trace PWatchdog (trace_of (run E quiet_inputs s)))
     = [MeshWrite NODE_AC_RELAY "a0" true]
  /\ filter is_insert (phase_trace PWatchdog (trace_of (run E quiet_inputs s)))
     = [DbInsert (41 * 60 * SECOND + SECOND + HALF) false]
  /\ latch latched = (true, true)
  /\ Codec.is_packet "t72,h40" = true
  /\ existsb (segment_of "t") (Py.split "," "t72,h40") = true
  /\ latch (state_of (process_frame E (NODE_TEMP_LCD, "t72,h40") latched)) = (false, false).
Proof.
  intros E s latched.
  assert (Hs : Forall silent quiet_inputs).
  { unfold quiet_inputs, silent.
    repeat (first [apply Forall_nil | apply Forall_cons]); reflexivity. }
  destruct (watchdog_forces_off_once E s _ _ eq_refl eq_refl eq_refl eq_refl Hs)
    as (Htrace & _ & _ & Hinsert & Hreset).
  split; [reflexivity | ]. split; [reflexivity | ]. split; [reflexivity | ].
  split; [reflexivity | ]. split; [exact Hs | ].
  split; [vm_compute; reflexivity | ].
  split; [exact Hinsert | ].
  split; [vm_compute; reflexivity | ].
  split; [reflexivity | ]. split; [reflexivity | ].
  destruct (process_frame E (NODE_TEMP_LCD, "t72,h40") latched) as [[] s1 tr | e s1 tr] eqn:Hrun.
  - destruct (Hreset NODE_TEMP_LCD "t72,h40" latched s1 tr eq_refl eq_refl Hrun) as [Hw Hd].
    unfold latch. cbn [state_of]. now rewrite Hw, Hd.
  - exfalso. vm_compute in Hrun. discriminate Hrun.
Defined.

(** C1 as stated fails.  (1) The watchdog makes its safety check once
    per outage, whatever it finds: main reaches a state where the check
    of this outage found the AC off, a client has switched the AC on
    since, the last event of the log says on and the silence has lasted
    400 s; the watchdog sends nothing and logs nothing, now or later.
    (2) The log says on but the database does not answer the check:
    nothing is sent.  (3) The database answers the check but does not
    take the row: the forced-off is sent and no off-event is logged. *)
Lemma watchdog_counterexample :
  let idle := {| inbox := []; queue := [] |} in
  let E := slow_polling good_env in
  let s := state_of (main E [idle; idle; {| inbox := []; queue := [(0%nat, "TurnOnAC")] |}]
                       (boot empty_db)) in
  let down := example_env (always true) (always false) (41 * 60 * SECOND) in
  let refused := example_env (always true) (fun k => (k <? 2)%nat) (41 * 60 * SECOND) in
  let on := boot (one_event_db HALF true) in
  (ac_data (db s) = [(SECOND + HALF, true)]
   /\ stored_state E s = Some true
   /\ db_up E (n_db s) = true
   /\ last_temp_received_time s = 100 * SECOND
   /\ time_time E (n_time s) = 500 * SECOND
   /\ shutdown_executed s = true
   /\ phase_trace PWatchdog (trace_of (run E [idle; idle] s)) = [])
  /\ (stored_state down on = Some true
      /\ shutdown_executed on = false
      /\ time_time down (n_time on) - last_temp_received_time on = 41 * 60 * SECOND
      /\ filter is_write (phase_trace PWatchdog (trace_of (run down quiet_inputs on))) = []
      /\ filter is_insert (phase_trace PWatchdog (trace_of (run down quiet_inputs on))) = [])
  /\ (stored_state refused on = Some true
      /\ db_up refused (n_db on) = true
      /\ filter is_write (phase_trace PWatchdog (trace_of (run refused quiet_inputs on)))
         = [MeshWrite NODE_AC_RELAY "a0" true]
      /\ filter is_insert (phase_trace PWatchdog (trace_of (run refused quiet_inputs on))) = []).
Proof. vm_compute. repeat split; reflexivity. Qed.

(* ====================================================================== *)
(** * The probe sweep ends by itself *)
(* ====================================================================== *)

Lemma remove_first_length x l :
  (List.length (Py.remove_first x l) <= List.length l)%nat.
Proof.
  induction l as [ | a l IH]; simpl; [lia | ].
  destruct (a =? x); simpl; lia.
Qed.

Lemma ping_node_no_growth E n bound :
  triple (fun s => In n (connected_clients s)
                   /\ (List.length (connected_clients s) <= bound)%nat)
    (ping_node E n)
    (fun _ s => (List.length (connected_clients s) <= bound)%nat)
    (fun s => (List.length (connected_clients s) <= bound)%nat).
Proof.
  intros s [Hin Hb]. unfold ping_node, bind, gets, read_time. simpl.
  destruct (_ <? PING_INTERVAL); simpl; [exact Hb | ].
  match goal with
  | |- context [send_message_to_node E n ?msg ?st] =>
      destruct (send_total E n msg st) as (sent & k & tr & Hsend & _); rewrite Hsend
  end.
  assert (Hm : Py.mem n (connected_clients s) = true) by now apply mem_In.
  destruct sent; simpl; unfold modify; simpl; rewrite Hm; simpl.
  - destruct (Py.mem n (connect_fail_clients s)); simpl; exact Hb.
  - assert (Hk := keeps_mark_node_offline E n). apply keeps_core_sets in Hk.
    match goal with
    | |- context [mark_node_offline E n ?st] =>
        specialize (Hk st); destruct (mark_node_offline E n st);
        simpl in Hk; unfold sets in Hk; simpl in Hk; injection Hk as Hc _;
        rewrite Hc; pose proof (remove_first_length n (connected_clients s)); lia
    end.
Qed.

(** The fuel of [ping_sweep] is never what ends the loop: once it covers
    the positions left in the list, more of it changes nothing. *)
Lemma ping_sweep_fuel E fuel : forall i s,
  (List.length (connected_clients s) <= i + fuel)%nat ->
  ping_sweep E (S fuel) i s = ping_sweep E fuel i s.
Proof.
  induction fuel as [ | fuel IH]; intros i s Hb.
  - simpl. unfold bind, gets. simpl.
    assert (Hn : nth_error (connected_clients s) i = None) by (apply nth_error_None; lia).
    rewrite Hn. reflexivity.
  - change (ping_sweep E (S (S fuel)) i s)
      with (bind (gets connected_clients) (fun clients =>
              match nth_error clients i with
              | None => ret tt
              | Some client => bind (ping_node E client) (fun _ => ping_sweep E (S fuel) (S i))
              end) s).
    change (ping_sweep E (S fuel) i s)
      with (bind (gets connected_clients) (fun clients =>
              match nth_error clients i with
              | None => ret tt
              | Some client => bind (ping_node E client) (fun _ => ping_sweep E fuel (S i))
              end) s).
    unfold bind at 1 3, gets. cbv beta iota.
    destruct (nth_error (connected_clients s) i) as [client | ] eqn:Hn; [ | reflexivity].
    assert (Hp := ping_node_no_growth E client (i + S fuel) s
                    (conj (nth_error_In _ _ Hn) Hb)).
    unfold bind. destruct (ping_node E client s) as [a s1 tr1 | e s1 tr1]; [ | reflexivity].
    rewrite IH by lia. reflexivity.
Qed.

Lemma ping_sweep_enough E s extra :
  ping_sweep E (List.length (connected_clients s) + extra) 0 s
  = ping_sweep E (List.length (connected_clients s)) 0 s.
Proof.
  induction extra as [ | extra IH].
  - now rewrite Nat.add_0_r.
  - rewrite Nat.add_succ_r, ping_sweep_fuel by lia. exact IH.
Qed.

(* ====================================================================== *)
(** * The loop on examples *)
(* ====================================================================== *)

(** A sync frame is answered with the thresholds, the permission and the
    AC state in one frame. *)
Example sync_example :
  filter is_write (trace_of (process_frame good_env (NODE_TEMP_LCD, "s1") (boot empty_db)))
  = [MeshWrite NODE_TEMP_LCD "x78,n72,l0,a0" true].
Proof. vm_compute. reflexivity. Qed.

(** A temperature frame is recorded and answered with the AC state. *)
Example temperature_example :
  let o := process_frame good_env (NODE_TEMP_LCD, "t71.5,h40.0") (boot (one_event_db HALF true)) in
  last_known_temp (state_of o) = Some "71.5"
  /\ filter is_write (trace_of o) = [MeshWrite NODE_TEMP_LCD "a1" true].
Proof. vm_compute. split; reflexivity. Qed.

(** The sweep walks a list that [ping_node] shortens: when node 1 fails
    and leaves the list, node 2 takes its place and is not probed. *)
Example sweep_skips_after_failure :
  filter is_write
    (trace_of (ping_sweep deaf_late_env 3 0 (set_connected_clients [1; 2; 3] (boot empty_db))))
  = [MeshWrite 1 "k1" false; MeshWrite 1 "k1" false; MeshWrite 1 "k1" false;
     MeshWrite 3 "k1" false; MeshWrite 3 "k1" false; MeshWrite 3 "k1" false].
Proof. vm_compute. reflexivity. Qed.

(** Two events of the same date and time: which one the controller takes
    for the last is the choice of the database. *)
Example tie_example :
  let tied := boot {| ac_data := [(HALF, true); (HALF, false)];
                      ac_settings := []; mesh_nodes := [] |} in
  get_ac_state (with_tie good_env (fun _ => 0%nat)) tied
  = Ok true (set_n_db 1 tied) []
  /\ get_ac_state (with_tie good_env (fun _ => 1%nat)) tied
     = Ok false (set_n_db 1 tied) [].
Proof. split; reflexivity. Qed.

(** A reply to a client whose socket is closed: the failure is printed
    and the controller module is imported. *)
Example closed_socket_example :
  trace_of (process_command (with_closed_sockets good_env) (7%nat, "AC_Perm_Status")
              (boot empty_db))
  = [Log Lrx "AC_Perm_Status" (Some "Socket"); ClientSend 7%nat "False";
     Print "[ERROR] Failed to send message to client: <error>"; ImportController].
Proof. vm_compute. reflexivity. Qed.

(** The names of the known nodes are logged as Python prints a list of
    strings. *)
Example repr_names_example :
  repr_names ["AC Relay"; "Keypad's"]
  = String.concat "" ["['AC Relay', "; String Py.quote2 "Keypad's"; String Py.quote2 "]"].
Proof. reflexivity. Qed.

(** The watchdog on a log whose last row falls on a whole second: the
    check reads the state without parsing the time, and [database_log]
    logs a read error before it inserts the off-event. *)
Example watchdog_whole_second :
  phase_trace PWatchdog
    (trace_of (run late_env [ {| inbox := []; queue := [] |} ] (boot (one_event_db 0 true))))
  = [warn_log; safety_log; shutoff_log;
     MeshUpdate; MeshDhcp; MeshWrite NODE_AC_RELAY "a0" true;
     Log Ltx "a0 (AC OFF)" (Some "Node 1");
     read_error_log;
     DbInsert (41 * 60 * SECOND + SECOND + HALF) false;
     Log Ldb "AC state logged: OFF" None].
Proof. vm_compute. reflexivity. Qed.

(** Unknown text is answered, not dropped. *)
Example unknown_command_example :
  trace_of (process_command good_env (7%nat, "hello") (boot empty_db))
  = [Log Lrx "hello" (Some "Socket"); ClientSend 7%nat "Unknown command: hello"].
Proof. vm_compute. reflexivity. Qed.

(* ====================================================================== *)
(** * Further properties of the packet codec *)
(* ====================================================================== *)

Lemma dict_set_NoDup (k v : string) (d : Codec.packet) :
  NoDup (map fst d) -> NoDup (map fst (Py.dict_set String.eqb k v d)).
Proof.
  induction d as [ | [k0 v0] d IH]; simpl; intro H.
  - constructor; [simpl; tauto | constructor].
  - inversion H as [ | ? ? Hk0 Hd]; subst.
    destruct (String.eqb_spec k0 k) as [-> | Hne]; simpl.
    + constructor; assumption.
    + constructor; [ | now apply IH].
      intro Hin. destruct (dict_set_keys _ _ _ _ Hin) as [-> | Hin']; [congruence | tauto].
Qed.

Lemma dict_set_Forall (P : string * string -> Prop) (k v : string) (d : Codec.packet) :
  P (k, v) -> Forall P d -> Forall P (Py.dict_set String.eqb k v d).
Proof.
  intros Hkv. induction d as [ | [k0 v0] d IH]; simpl; intro H.
  - constructor; [assumption | constructor].
  - inversion H; subst.
    destruct (String.eqb k0 k); constructor; auto.
Qed.

Lemma dict_set_not_nil (k v : string) (d : Codec.packet) :
  Py.dict_set String.eqb k v d <> [].
Proof. destruct d as [ | [k0 v0] d]; simpl; [ | destruct (String.eqb k0 k)]; discriminate. Qed.

Lemma parsed_NoDup pieces : forall acc,
  NoDup (map fst acc) -> NoDup (map fst (fold_left Codec.parse_pair pieces acc)).
Proof.
  induction pieces as [ | p pieces IH]; intros acc H; simpl; [assumption | ].
  apply IH. unfold Codec.parse_pair.
  destruct p as [ | c [ | v0 v]]; try assumption. now apply dict_set_NoDup.
Qed.

Lemma parsed_pairs pieces : forall acc,
  Forall (lacks ",") pieces -> Forall decoded_pair acc ->
  Forall decoded_pair (fold_left Codec.parse_pair pieces acc).
Proof.
  induction pieces as [ | p pieces IH]; intros acc Hp H; simpl; [assumption | ].
  inversion Hp as [ | ? ? Hlack Hrest]; subst.
  apply IH; [assumption | ]. unfold Codec.parse_pair.
  destruct p as [ | c [ | v0 v]]; try assumption.
  apply dict_set_Forall; [ | assumption].
  split; [eexists; reflexivity | ]. split; [discriminate | ].
  unfold lacks, chars in *. simpl in *. tauto.
Qed.

Lemma parsed_not_nil pieces : forall acc,
  acc <> [] -> fold_left Codec.parse_pair pieces acc <> [].
Proof.
  induction pieces as [ | p pieces IH]; intros acc H; simpl; [assumption | ].
  apply IH. unfold Codec.parse_pair.
  destruct p as [ | c [ | v0 v]]; try assumption. apply dict_set_not_nil.
Qed.

Lemma is_packet_first_segment message :
  Codec.is_packet message = true ->
  exists c v0 v rest, Py.split "," message = String c (String v0 v) :: rest.
Proof.
  destruct message as [ | c0 [ | c1 r]]; try discriminate. simpl.
  intro H. apply andb_true_iff in H. destruct H as [Ha Hd].
  destruct (Ascii.eqb_spec c0 ",") as [-> | _]; [discriminate Ha | ].
  destruct (Ascii.eqb_spec c1 ",") as [-> | _]; [discriminate Hd | ].
  destruct (Py.split "," r) as [ | seg segs]; eauto.
Qed.

Lemma split_all_lack sep s : Forall (lacks sep) (Py.split sep s).
Proof. apply Forall_forall. intros p Hp. eapply split_pieces_lack; eauto. Qed.

(** X1.  [parse_packet] refuses exactly the texts that [is_packet]
    refuses.  What it returns for the others is never the empty dict (so
    that the test [if packet] of the loop never fails), lists no key
    twice, and holds nothing but one-character keys with values that are
    not empty and hold no separator. *)
Theorem parse_packet_well_formed message :
  match Codec.parse_packet message with
  | Some packet =>
      Codec.is_packet message = true
      /\ Codec.truthy packet = true
      /\ NoDup (map fst packet)
      /\ Forall decoded_pair packet
  | None => Codec.is_packet message = false
  end.
Proof.
  unfold Codec.parse_packet.
  destruct (Codec.is_packet message) eqn:Hpk; simpl; [ | reflexivity].
  split; [reflexivity | ]. split; [ | split].
  - destruct (is_packet_first_segment _ Hpk) as (c & v0 & v & rest & Hs).
    rewrite Hs. simpl.
    destruct (fold_left Codec.parse_pair rest [(String c EmptyString, String v0 v)]) eqn:Hf;
      [ | reflexivity].
    exfalso. revert Hf. apply parsed_not_nil. discriminate.
  - apply parsed_NoDup. constructor.
  - apply parsed_pairs; [apply split_all_lack | constructor].
Qed.

Lemma parsed_get key pieces : forall acc found,
  Codec.get (String key EmptyString) acc = found ->
  (forall pre value post,
     pieces = (pre ++ String key value :: post)%list -> value <> EmptyString ->
     Forall (fun p => segment_of key p = false) post ->
     Codec.get (String key EmptyString) (fold_left Codec.parse_pair pieces acc) = Some value)
  /\ (Forall (fun p => segment_of key p = false) pieces ->
      Codec.get (String key EmptyString) (fold_left Codec.parse_pair pieces acc) = found).
Proof.
  assert (Hstep : forall acc p,
    Codec.get (String key EmptyString) (Codec.parse_pair acc p)
    = if segment_of key p
      then match p with String _ v => Some v | EmptyString => None end
      else Codec.get (String key EmptyString) acc).
  { intros acc p. unfold Codec.parse_pair, segment_of, Codec.get.
    destruct p as [ | c [ | v0 v]]; try reflexivity.
    rewrite dict_get_set. simpl.
    destruct (Ascii.eqb c key); reflexivity. }
  induction pieces as [ | p pieces IH]; intros acc found Hacc.
  - split.
    + intros pre value post H. destruct pre; discriminate H.
    + intros _. exact Hacc.
  - simpl. split.
    + intros pre value post Hp Hv Hpost.
      destruct pre as [ | q pre]; simpl in Hp; injection Hp as -> ->.
      * apply (IH (Codec.parse_pair acc (String key value)) (Some value)); [ | exact Hpost].
        rewrite Hstep. destruct value as [ | v0 v]; [congruence | ].
        simpl. now rewrite Ascii.eqb_refl.
      * eapply (proj1 (IH _ _ eq_refl)); eauto.
    + intro Hall. apply Forall_cons_iff in Hall. destruct Hall as [Hp Hrest].
      apply (IH (Codec.parse_pair acc p) found); [ | exact Hrest].
      rewrite Hstep, Hp. exact Hacc.
Qed.

(** X2.  When a key comes in several segments of a message, the value
    of the last one is the value decoded: the value of [key] is that of
    the last segment made of [key] and one character at least, and a key
    that starts no such segment is not in the dict. *)
Theorem parse_packet_last_wins message packet key :
  Codec.parse_packet message = Some packet ->
  (forall pre value post,
     Py.split "," message = (pre ++ String key value :: post)%list ->
     value <> EmptyString ->
     Forall (fun p => segment_of key p = false) post ->
     Codec.get (String key EmptyString) packet = Some value)
  /\ (Forall (fun p => segment_of key p = false) (Py.split "," message) ->
      Codec.get (String key EmptyString) packet = None).
Proof.
  unfold Codec.parse_packet.
  destruct (Codec.is_packet message); simpl; [ | discriminate].
  intro H. injection H as <-.
  apply parsed_get. reflexivity.
Qed.

Lemma parse_packet_last_wins_witness :
  Codec.parse_packet "a1,t70,a0,a" = Some [("a", "0"); ("t", "70")]
  /\ Codec.get "a" [("a", "0"); ("t", "70")] = Some "0"
  /\ Codec.get "x" [("a", "0"); ("t", "70")] = None.
Proof.
  split; [reflexivity | ].
  split.
  - apply (proj1 (parse_packet_last_wins "a1,t70,a0,a" _ "a" eq_refl) ["a1"; "t70"] "0" ["a"]).
    + reflexivity.
    + discriminate.
    + repeat constructor.
  - apply (proj2 (parse_packet_last_wins "a1,t70,a0,a" _ "x" eq_refl)).
    repeat constructor.
Defined.

(* ====================================================================== *)
(** * What [str] of an [int] looks like *)
(* ====================================================================== *)

Lemma uint_chars d c :
  In c (chars (NilEmpty.string_of_uint d)) -> Py.between 48 57 c = true.
Proof.
  unfold chars. induction d; simpl; intro H; try contradiction;
    (destruct H as [<- | H]; [reflexivity | now apply IHd]).
Qed.

Lemma uint_nonnil_head d :
  d <> Decimal.Nil ->
  exists c r, NilEmpty.string_of_uint d = String c r /\ Py.between 48 57 c = true.
Proof. destruct d; intro H; try congruence; simpl; eauto. Qed.

Lemma str_int_cases n :
  (n = 0 /\ Py.str_int n = "0")
  \/ (exists p, n = Z.pos p /\ Py.str_int n = NilEmpty.string_of_uint (Pos.to_uint p))
  \/ (exists p, n = Z.neg p
      /\ Py.str_int n = String "-" (NilEmpty.string_of_uint (Pos.to_uint p))).
Proof.
  unfold Py.str_int. destruct n as [ | p | p]; simpl.
  - left. split; reflexivity.
  - right. left. exists p. split; [reflexivity | ].
    assert (H := DecimalPos.Unsigned.to_uint_nonnil p).
    destruct (Pos.to_uint p); [congruence | reflexivity ..].
  - right. right. exists p. split; [reflexivity | ].
    assert (H := DecimalPos.Unsigned.to_uint_nonnil p).
    destruct (Pos.to_uint p); [congruence | reflexivity ..].
Qed.

Lemma str_int_chars n c :
  In c (chars (Py.str_int n)) -> Py.between 48 57 c = true \/ c = "-"%char.
Proof.
  destruct (str_int_cases n) as [[_ ->] | [(p & _ & ->) | (p & _ & ->)]].
  - simpl. intros [<- | []]. now left.
  - intro H. left. eapply uint_chars; eauto.
  - intros [<- | H]; [now right | left; eapply uint_chars; eauto].
Qed.

Lemma str_int_head n :
  exists c r, Py.str_int n = String c r /\ (Py.isdigit c || Ascii.eqb c "-") = true.
Proof.
  destruct (str_int_cases n) as [[_ ->] | [(p & _ & ->) | (p & _ & ->)]].
  - do 2 eexists. split; reflexivity.
  - destruct (uint_nonnil_head _ (DecimalPos.Unsigned.to_uint_nonnil p)) as (c & r & -> & Hc).
    exists c, r. split; [reflexivity | ]. unfold Py.isdigit. now rewrite Hc.
  - do 2 eexists. split; reflexivity.
Qed.

Lemma str_int_lacks n c :
  Py.between 48 57 c = false -> c <> "-"%char -> lacks c (Py.str_int n).
Proof.
  intros Hd Hm Hin. destruct (str_int_chars n c Hin) as [H | H]; congruence.
Qed.

Lemma int_frame_keys kwargs :
  NoDup (map fst kwargs) -> NoDup (map fst (int_frame kwargs)).
Proof.
  unfold int_frame. rewrite map_map. simpl.
  induction kwargs as [ | [c z] l IH]; simpl; intro H; [constructor | ].
  inversion H as [ | ? ? Hc Hl]; subst. constructor; [ | now apply IH].
  intro Hin. apply Hc. apply in_map_iff in Hin. destruct Hin as [[c' z'] [Heq Hin]].
  simpl in Heq. injection Heq as ->. apply in_map_iff. exists (c, z'). now split.
Qed.

(** X3.  Every frame that the controller builds is one that
    [parse_packet] decodes back: for keyword arguments that are letters
    (none twice) with values of type [int], as in every call of
    [build_packet] in the controller, decoding the text that is built gives
    the arguments back, each value as [str] prints it, in the order of the
    call. *)
Theorem int_frames_decode (kwargs : list (ascii * Z)) :
  kwargs <> [] ->
  NoDup (map fst kwargs) ->
  Forall (fun kz => Py.isalpha (fst kz) = true) kwargs ->
  Codec.parse_packet (Codec.build_packet (int_frame kwargs)) = Some (int_frame kwargs).
Proof.
  intros Hne Hnd Hal. apply parse_build_clean.
  - split; [now apply int_frame_keys | ].
    unfold int_frame. apply Forall_map. apply Forall_forall. intros [c z] _.
    split; simpl; [eexists; reflexivity | ].
    apply str_int_lacks; [reflexivity | discriminate].
  - unfold clean, int_frame. apply Forall_map.
    eapply Forall_impl; [ | exact Hal]. intros [c z] Hc. simpl in Hc.
    split; simpl.
    + intro H. injection H as ->. discriminate Hc.
    + destruct (str_int_head z) as (d & r & -> & _). discriminate.
  - destruct kwargs as [ | [c z] rest]; [congruence | ].
    inversion Hal as [ | ? ? Hc _]; subst. simpl in Hc.
    destruct (str_int_head z) as (d & r & Hz & Hd).
    unfold Codec.build_packet, int_frame. simpl map. rewrite Hz.
    destruct rest as [ | kz rest]; simpl; now rewrite Hc, Hd.
Qed.

Lemma int_frames_decode_witness :
  Codec.build_packet (int_frame [("x"%char, 78); ("n"%char, 62); ("l"%char, 0); ("a"%char, 1)])
  = "x78,n62,l0,a1"
  /\ Codec.parse_packet "x78,n62,l0,a1"
     = Some [("x", "78"); ("n", "62"); ("l", "0"); ("a", "1")].
Proof.
  split; [reflexivity | ].
  apply (int_frames_decode [("x"%char, 78); ("n"%char, 62); ("l"%char, 0); ("a"%char, 1)]).
  - discriminate.
  - repeat constructor; simpl; intuition discriminate.
  - repeat constructor.
Defined.

(* ====================================================================== *)
(** * Further properties of the database gateway *)
(* ====================================================================== *)

(** X4.  The thresholds are stored as the text they came in and not
    checked: reading them back with [get_temps] after [save_temps] (the
    database answering both times) gives the two numbers when [float]
    accepts both texts, and the defaults 78 and 72 when it refuses one
    of them.  The call never raises. *)
Theorem saved_temps_read_back E max_temp min_temp s :
  db_up E (n_db s) = true -> db_up E (S (n_db s)) = true ->
  exists s' tr,
    (save_temps E max_temp min_temp ;; get_temps E) s
    = Ok (match float_of_str E max_temp, float_of_str E min_temp with
          | Some x, Some n => (x, n)
          | _, _ => (float_78 E, float_72 E)
          end) s' tr
    /\ Py.dict_get String.eqb "max_temp" (ac_settings (db s')) = Some max_temp
    /\ Py.dict_get String.eqb "min_temp" (ac_settings (db s')) = Some min_temp.
Proof.
  intros H1 H2.
  unfold save_temps, get_temps, bind, db_transaction, modify, gets, log, emit, ret.
  simpl. rewrite H1. simpl. rewrite H2. simpl.
  unfold float_of_row. rewrite !dict_get_set. simpl.
  destruct (float_of_str E max_temp), (float_of_str E min_temp); simpl;
    do 2 eexists; (split; [reflexivity | ]); simpl; rewrite !dict_get_set; split; reflexivity.
Qed.

Lemma saved_temps_read_back_witness :
  exists s' tr,
    (save_temps good_env "80" "seventy" ;; get_temps good_env) (boot empty_db)
    = Ok (78, 72) s' tr
    /\ ac_settings (db s') = [("max_temp", "80"); ("min_temp", "seventy")].
Proof.
  destruct (saved_temps_read_back good_env "80" "seventy" (boot empty_db) eq_refl eq_refl)
    as (s' & tr & Hrun & _).
  exists s', tr. split; [exact Hrun | ].
  vm_compute in Hrun. injection Hrun as <- _. reflexivity.
Defined.

Lemma bool_str_eqb b : String.eqb (bool_str b) "True" = b.
Proof. destruct b; reflexivity. Qed.

Lemma toggle_ac_allowed_state E s :
  exists k tr,
    toggle_ac_allowed E s
    = Ok tt (set_n_write (k + n_write s)
               (if db_up E (n_db s)
                then set_db (upsert "ac_allowed" (bool_str (negb (ac_allowed s))) (db s))
                       (set_n_db (S (n_db s)) (set_ac_allowed (negb (ac_allowed s)) s))
                else set_n_db (S (n_db s)) (set_ac_allowed (negb (ac_allowed s)) s))) tr.
Proof.
  unfold toggle_ac_allowed, save_ac_allowed, bind, modify, gets, db_transaction, log, emit, ret.
  simpl.
  destruct (db_up E (n_db s)); simpl;
    match goal with
    | |- context [send_message_to_node E ?n ?msg ?st] =>
        destruct (send_total E n msg st) as (sent & k & tr & Hsend & _); rewrite Hsend
    end; simpl; do 2 eexists; reflexivity.
Qed.

Lemma startup_loads E d :
  exists s' tr,
    startup E (boot d) = Ok tt s' tr
    /\ ac_allowed s'
       = if db_up E 0
         then match Py.dict_get String.eqb "ac_allowed" (ac_settings d) with
              | Some v => String.eqb v "True"
              | None => false
              end
         else false.
Proof.
  unfold startup, get_ac_allowed, get_known_nodes, bind, modify, gets, db_transaction,
    read_time, log, emit, ret, when. simpl.
  destruct (db_up E 0); simpl;
    [ destruct (Py.dict_get String.eqb "ac_allowed" (ac_settings d)); simpl | ];
    (destruct (db_up E 1); simpl;
     [ destruct (order_by_node_id (mesh_nodes d)); simpl | ]);
    do 2 eexists; split; reflexivity.
Qed.

(** X5.  The permission outlives a restart when it could be saved, and
    only then.  [toggle_ac_allowed] always flips the flag in memory.  If
    the database took the write, a controller that starts over that
    database (and can read it) loads the flag as it was left; if the
    database refused the write, nothing is stored, so that memory and
    database no longer agree. *)
Theorem permission_survives_restart E s :
  let s1 := state_of (toggle_ac_allowed E s) in
  ac_allowed s1 = negb (ac_allowed s)
  /\ (db_up E (n_db s) = true ->
      forall E', db_up E' 0 = true ->
        ac_allowed (state_of (startup E' (boot (db s1)))) = ac_allowed s1)
  /\ (db_up E (n_db s) = false -> db s1 = db s).
Proof.
  destruct (toggle_ac_allowed_state E s) as (k & tr & Hrun). rewrite Hrun. simpl.
  split; [destruct (db_up E (n_db s)); reflexivity | ]. split.
  - intros Hup E' Hup'. rewrite Hup. simpl.
    destruct (startup_loads E'
                (upsert "ac_allowed" (bool_str (negb (ac_allowed s))) (db s)))
      as (s' & tr' & Hstart & Hflag).
    rewrite Hstart. simpl. rewrite Hflag, Hup'. unfold upsert. simpl.
    rewrite dict_get_set. simpl. apply bool_str_eqb.
  - intros Hdown. rewrite Hdown. reflexivity.
Qed.

Lemma permission_survives_restart_witness :
  let s1 := state_of (toggle_ac_allowed good_env (boot empty_db)) in
  ac_allowed s1 = true
  /\ ac_allowed (state_of (startup good_env (boot (db s1)))) = ac_allowed s1.
Proof.
  intro s1.
  destruct (permission_survives_restart good_env (boot empty_db)) as (Hflip & Hload & _).
  split; [exact Hflip | ].
  exact (Hload eq_refl good_env eq_refl).
Defined.

Lemma dict_get_set_Z (k v : Z) (d : list (Z * Z)) :
  Py.dict_get Z.eqb k (Py.dict_set Z.eqb k v d) = Some v.
Proof.
  induction d as [ | [k0 v0] d IH]; simpl.
  - now rewrite Z.eqb_refl.
  - destruct (k0 =? k) eqn:Hk; simpl; [now rewrite Z.eqb_refl | now rewrite Hk].
Qed.

Lemma dict_get_set_other_Z (k k' v : Z) (d : list (Z * Z)) :
  k' <> k ->
  Py.dict_get Z.eqb k (Py.dict_set Z.eqb k' v d) = Py.dict_get Z.eqb k d.
Proof.
  intro Hne. induction d as [ | [k0 v0] d IH]; simpl.
  - apply Z.eqb_neq in Hne. now rewrite Hne.
  - destruct (Z.eqb_spec k0 k') as [-> | Hk0]; simpl.
    + apply Z.eqb_neq in Hne. now rewrite Hne.
    + now rewrite IH.
Qed.

Lemma touch_node_id other sqlnow message r :
  mn_node_id (touch_node other sqlnow message r) = mn_node_id r.
Proof. unfold touch_node. destruct (mn_node_id r =? other); reflexivity. Qed.

Lemma touch_node_other other sqlnow message r :
  mn_node_id r <> other -> touch_node other sqlnow message r = r.
Proof. intro H. unfold touch_node. apply Z.eqb_neq in H. now rewrite H. Qed.

Lemma offline_node_id other r : mn_node_id (offline_node other r) = mn_node_id r.
Proof. unfold offline_node. destruct (mn_node_id r =? other); reflexivity. Qed.

Lemma offline_node_record other r :
  (mn_last_seen (offline_node other r), mn_last_message (offline_node other r))
  = (mn_last_seen r, mn_last_message r).
Proof. unfold offline_node. destruct (mn_node_id r =? other); reflexivity. Qed.

(** Recording a message of one node leaves the rows of the others as
    they were, and marking a node offline changes the status only. *)
Lemma node_record_touch_other node_id other sqlnow message rows :
  other <> node_id ->
  map (fun r => (mn_last_seen r, mn_last_message r))
    (filter (fun r => mn_node_id r =? node_id) (map (touch_node other sqlnow message) rows))
  = map (fun r => (mn_last_seen r, mn_last_message r))
      (filter (fun r => mn_node_id r =? node_id) rows).
Proof.
  intro Hne. induction rows as [ | r rows IH]; [reflexivity | ].
  cbn [map filter]. rewrite touch_node_id.
  destruct (Z.eqb_spec (mn_node_id r) node_id) as [Hid | Hid]; [ | exact IH].
  cbn [map]. rewrite IH, touch_node_other by congruence. reflexivity.
Qed.

Lemma node_record_offline node_id other rows :
  map (fun r => (mn_last_seen r, mn_last_message r))
    (filter (fun r => mn_node_id r =? node_id) (map (offline_node other) rows))
  = map (fun r => (mn_last_seen r, mn_last_message r))
      (filter (fun r => mn_node_id r =? node_id) rows).
Proof.
  induction rows as [ | r rows IH]; [reflexivity | ].
  cbn [map filter]. rewrite offline_node_id.
  destruct (mn_node_id r =? node_id); [ | exact IH].
  cbn [map]. now rewrite IH, offline_node_record.
Qed.

Section FollowsRules.
Context {T : Type} (R : State -> State -> Prop).
Context (R_refl : forall s, R s s).
Context (R_trans : forall s1 s2 s3, R s1 s2 -> R s2 s3 -> R s1 s3).

Lemma follows_ret A (a : A) : follows R (@ret T A a).
Proof. intro s. apply R_refl. Qed.

Lemma follows_gets A (g : State -> A) : follows R (@gets T A g).
Proof. intro s. apply R_refl. Qed.

Lemma follows_emit (e : T) : follows R (emit e).
Proof. intro s. apply R_refl. Qed.

Lemma follows_raise A (e : exn) : follows R (@raise T A e).
Proof. intro s. apply R_refl. Qed.

Lemma follows_bind A B (m : M T A) (k : A -> M T B) :
  follows R m -> (forall a, follows R (k a)) -> follows R (bind m k).
Proof.
  intros Hm Hk s. unfold bind.
  specialize (Hm s). destruct (m s) as [a s1 tr1 | e s1 tr1]; simpl in *.
  - specialize (Hk a s1). destruct (k a s1); simpl in *; eapply R_trans; eauto.
  - exact Hm.
Qed.

Lemma follows_when (b : bool) (m : M T unit) : follows R m -> follows R (when b m).
Proof. intro H. destruct b; simpl; [exact H | apply follows_ret]. Qed.

Lemma follows_try_except A (m h : M T A) (c : exn -> bool) :
  follows R m -> follows R h -> follows R (try_except m c h).
Proof.
  intros Hm Hh s. unfold try_except.
  specialize (Hm s). destruct (m s) as [a s1 tr1 | e s1 tr1]; simpl in *.
  - exact Hm.
  - destruct (c e); simpl; [ | exact Hm ].
    specialize (Hh s1). destruct (h s1); simpl in *; eapply R_trans; eauto.
Qed.

Lemma follows_for_each Y (xs : list Y) (body : Y -> M T unit) :
  (forall x, follows R (body x)) -> follows R (for_each xs body).
Proof.
  intro H. induction xs as [ | x xs IH]; simpl.
  - apply follows_ret.
  - apply follows_bind; auto.
Qed.

End FollowsRules.

Lemma follows_modify {T} (R : State -> State -> Prop) (g : State -> State) :
  (forall s, R s (g s)) -> follows R (@modify T g).
Proof. intros H s. apply H. Qed.

Lemma follows_relabel {T U A} (R : State -> State -> Prop) (g : T -> U) (m : M T A) :
  follows R m -> follows R (relabel g m).
Proof.
  intros H s. unfold relabel. specialize (H s). destruct (m s); exact H.
Qed.

Lemma throttled_refl E node_id s : throttled E node_id s s.
Proof. split; [apply le_n | intros _; split; reflexivity]. Qed.

Lemma throttled_trans E node_id s1 s2 s3 :
  throttled E node_id s1 s2 -> throttled E node_id s2 s3 -> throttled E node_id s1 s3.
Proof.
  intros [Hle1 H1] [Hle2 H2]. split; [lia | ]. intro Hwin.
  destruct H1 as [Hrec1 Hrow1].
  { intros k Hk. apply Hwin. lia. }
  destruct H2 as [Hrec2 Hrow2].
  { rewrite Hrec1. intros k Hk. apply Hwin. lia. }
  split; congruence.
Qed.

(** A step that touches neither the clock nor the node table nor the
    record of the writes. *)
Lemma throttled_same E node_id s s' :
  n_time s' = n_time s ->
  node_status_last_update s' = node_status_last_update s ->
  mesh_nodes (db s') = mesh_nodes (db s) ->
  throttled E node_id s s'.
Proof.
  intros Hn Hrec Hrows. split; [rewrite Hn; apply le_n | intros _].
  unfold last_status_update, node_record. now rewrite Hrec, Hrows.
Qed.

Lemma throttled_tick E node_id s :
  throttled E node_id s (set_n_time (S (n_time s)) s).
Proof. split; [simpl; lia | intros _; split; reflexivity]. Qed.

Create HintDb throttle.

Ltac throttle_modify :=
  apply follows_modify; intros;
  repeat match goal with |- context [if ?b then _ else _] => destruct b end;
  solve [apply throttled_refl | apply throttled_same; reflexivity].

Ltac throttle_step :=
  lazymatch goal with
  | |- follows _ (bind _ _) =>
      apply follows_bind; [intros ? ? ?; apply throttled_trans | | intros ]
  | |- follows _ (ret _) => apply follows_ret; intro; apply throttled_refl
  | |- follows _ (gets _) => apply follows_gets; intro; apply throttled_refl
  | |- follows _ (emit _) => apply follows_emit; intro; apply throttled_refl
  | |- follows _ (raise _) => apply follows_raise; intro; apply throttled_refl
  | |- follows _ (when _ _) => apply follows_when; [intro; apply throttled_refl | ]
  | |- follows _ (for_each _ _) =>
      apply follows_for_each;
        [intro; apply throttled_refl | intros ? ? ?; apply throttled_trans | intros ]
  | |- follows _ (try_except _ _ _) =>
      apply follows_try_except; [intros ? ? ?; apply throttled_trans | | ]
  | |- follows _ (relabel _ _) => apply follows_relabel
  | |- follows _ (modify _) => throttle_modify
  | |- follows _ (match ?x with _ => _ end) => destruct x
  | |- follows _ (let (_, _) := ?x in _) => destruct x
  | |- follows _ _ => solve [auto 3 with throttle]
  end.

Ltac throttle_auto := repeat throttle_step.

Section Throttle.
Context (E : Env) (node_id : Z).

Lemma throttled_log lv msg : follows (throttled E node_id) (log lv msg).
Proof. unfold log. throttle_auto. Qed.

Lemma throttled_log_node lv msg n : follows (throttled E node_id) (log_node lv msg n).
Proof. unfold log_node. throttle_auto. Qed.

Lemma throttled_read_time : follows (throttled E node_id) (read_time E).
Proof. intro s. apply throttled_tick. Qed.

Lemma throttled_read_now : follows (throttled E node_id) (read_now E).
Proof. intro s. apply throttled_same; reflexivity. Qed.

Lemma throttled_db_transaction : follows (throttled E node_id) (db_transaction E).
Proof. intro s. apply throttled_same; reflexivity. Qed.

Lemma throttled_radio_write n p : follows (throttled E node_id) (radio_write E n p).
Proof. intro s. apply throttled_same; reflexivity. Qed.

Lemma throttled_select_last : follows (throttled E node_id) (select_last E).
Proof. intro s. apply throttled_same; reflexivity. Qed.

Lemma throttled_sendall c t : follows (throttled E node_id) (sendall E c t).
Proof. intro s. apply throttled_same; reflexivity. Qed.

#[local] Hint Resolve throttled_log throttled_log_node throttled_read_time throttled_read_now
  throttled_db_transaction throttled_radio_write throttled_select_last throttled_sendall
  : throttle.

(** The one place where the node table is written for a message: a
    write for the node itself needs a reading of the clock 30 seconds or
    more after the recorded time; a write for another node leaves the
    record and the rows of this one alone. *)
Lemma throttled_update_node_status n m :
  follows (throttled E node_id) (update_node_status E n m).
Proof.
  intro s. unfold update_node_status, bind, read_time, gets. cbn [state_of].
  cbn [node_status_last_update set_n_time n_time].
  fold (last_status_update s n).
  destruct (time_time E (n_time s) - last_status_update s n <? NODE_STATUS_DB_INTERVAL)
    eqn:Hcmp; cbn.
  - apply throttled_tick.
  - destruct (db_up E (n_db s)); cbn.
    + split; [cbn; lia | ]. intro Hwin.
      destruct (Z.eq_dec n node_id) as [-> | Hne].
      * exfalso. apply Z.ltb_ge in Hcmp.
        assert (H := Hwin (n_time s) (conj (le_n _) (le_n (S (n_time s))))). lia.
      * unfold last_status_update, node_record.
        cbn [node_status_last_update set_node_status_last_update db set_db mesh_nodes
             set_mesh_nodes].
        rewrite (dict_get_set_other_Z _ _ _ _ Hne).
        now rewrite (node_record_touch_other _ _ _ _ _ Hne).
    + apply throttled_tick.
Qed.

Lemma throttled_mark_node_offline n : follows (throttled E node_id) (mark_node_offline E n).
Proof.
  intro s. unfold mark_node_offline, bind, db_transaction, modify, log, emit. cbn.
  destruct (db_up E (n_db s)); cbn.
  - split; [apply le_n | intros _]. split; [reflexivity | ].
    unfold node_record. cbn. apply node_record_offline.
  - apply throttled_same; reflexivity.
Qed.

Lemma throttled_get_last_ac_state : follows (throttled E node_id) (get_last_ac_state E).
Proof. unfold get_last_ac_state. throttle_auto. Qed.

Lemma throttled_get_ac_state : follows (throttled E node_id) (get_ac_state E).
Proof. unfold get_ac_state. throttle_auto. Qed.

#[local] Hint Resolve throttled_update_node_status throttled_mark_node_offline
  throttled_get_last_ac_state throttled_get_ac_state : throttle.

Lemma throttled_database_log b : follows (throttled E node_id) (database_log E b).
Proof. unfold database_log. throttle_auto. Qed.

Lemma throttled_save_temps a b : follows (throttled E node_id) (save_temps E a b).
Proof. unfold save_temps. throttle_auto. Qed.

Lemma throttled_get_temps : follows (throttled E node_id) (get_temps E).
Proof. unfold get_temps. throttle_auto. Qed.

Lemma throttled_save_ac_allowed b : follows (throttled E node_id) (save_ac_allowed E b).
Proof. unfold save_ac_allowed. throttle_auto. Qed.

Lemma throttled_get_ac_allowed : follows (throttled E node_id) (get_ac_allowed E).
Proof. unfold get_ac_allowed. throttle_auto. Qed.

Lemma throttled_get_known_nodes : follows (throttled E node_id) (get_known_nodes E).
Proof. unfold get_known_nodes. throttle_auto. Qed.

Lemma throttled_send_attempts l n m : follows (throttled E node_id) (send_attempts E l n m).
Proof. induction l as [ | a l IH]; simpl; throttle_auto. Qed.

Lemma throttled_send_message_to_node n m :
  follows (throttled E node_id) (send_message_to_node E n m).
Proof. apply throttled_send_attempts. Qed.

#[local] Hint Resolve throttled_database_log throttled_save_temps throttled_get_temps
  throttled_save_ac_allowed throttled_get_ac_allowed throttled_get_known_nodes
  throttled_send_message_to_node : throttle.

Lemma throttled_int_of_float x : follows (throttled E node_id) (int_of_float E x).
Proof. unfold int_of_float. throttle_auto. Qed.

Lemma throttled_send_ n m : follows (throttled E node_id) (send_ E n m).
Proof. unfold send_. throttle_auto. Qed.

Lemma throttled_send_message_to_client c t :
  follows (throttled E node_id) (send_message_to_client E c t).
Proof. unfold send_message_to_client. throttle_auto. Qed.

#[local] Hint Resolve throttled_int_of_float throttled_send_ throttled_send_message_to_client
  : throttle.

Lemma throttled_send_settings_to_node : follows (throttled E node_id) (send_settings_to_node E).
Proof. unfold send_settings_to_node. throttle_auto. Qed.

Lemma throttled_toggle_ac_allowed : follows (throttled E node_id) (toggle_ac_allowed E).
Proof. unfold toggle_ac_allowed. throttle_auto. Qed.

Lemma throttled_start_waiting_for_ack n t :
  follows (throttled E node_id) (start_waiting_for_ack E n t).
Proof. unfold start_waiting_for_ack. throttle_auto. Qed.

Lemma throttled_wait_for_ack : follows (throttled E node_id) (wait_for_ack E).
Proof. unfold wait_for_ack. throttle_auto. Qed.

#[local] Hint Resolve throttled_send_settings_to_node throttled_toggle_ac_allowed
  throttled_start_waiting_for_ack throttled_wait_for_ack : throttle.

Lemma throttled_handle_failed_clients : follows (throttled E node_id) (handle_failed_clients E).
Proof. unfold handle_failed_clients. throttle_auto. Qed.

Lemma throttled_rule_s n p : follows (throttled E node_id) (rule_s E n p).
Proof. unfold rule_s. throttle_auto. Qed.

Lemma throttled_rule_t n p : follows (throttled E node_id) (rule_t E n p).
Proof. unfold rule_t. throttle_auto. Qed.

Lemma throttled_relay_command b : follows (throttled E node_id) (relay_command E b).
Proof. unfold relay_command. throttle_auto. Qed.

#[local] Hint Resolve throttled_handle_failed_clients throttled_rule_s throttled_rule_t
  throttled_relay_command : throttle.

Lemma throttled_rule_a n p : follows (throttled E node_id) (rule_a E n p).
Proof. unfold rule_a. throttle_auto. Qed.

Lemma throttled_rule_g p : follows (throttled E node_id) (rule_g E p).
Proof. unfold rule_g. throttle_auto. Qed.

Lemma throttled_rule_xn p : follows (throttled E node_id) (rule_xn E p).
Proof. unfold rule_xn. throttle_auto. Qed.

Lemma throttled_fresh_state : follows (throttled E node_id) (fresh_state E).
Proof. unfold fresh_state. throttle_auto. Qed.

#[local] Hint Resolve throttled_rule_a throttled_rule_g throttled_rule_xn
  throttled_fresh_state : throttle.

Lemma throttled_rule_q n p : follows (throttled E node_id) (rule_q E n p).
Proof. unfold rule_q. throttle_auto. Qed.

Lemma throttled_cmd_AC_Status c : follows (throttled E node_id) (cmd_AC_Status E c).
Proof. unfold cmd_AC_Status. throttle_auto. Qed.

Lemma throttled_cmd_turn c b : follows (throttled E node_id) (cmd_turn E c b).
Proof. unfold cmd_turn. throttle_auto. Qed.

Lemma throttled_cmd_setBrightness c u : follows (throttled E node_id) (cmd_setBrightness E c u).
Proof. unfold cmd_setBrightness. throttle_auto. Qed.

Lemma throttled_cmd_setTemps c u : follows (throttled E node_id) (cmd_setTemps E c u).
Proof. unfold cmd_setTemps. throttle_auto. Qed.

Lemma throttled_cmd_status c : follows (throttled E node_id) (cmd_status E c).
Proof. unfold cmd_status. throttle_auto. Qed.

#[local] Hint Resolve throttled_rule_q throttled_cmd_AC_Status throttled_cmd_turn
  throttled_cmd_setBrightness throttled_cmd_setTemps throttled_cmd_status : throttle.

Lemma throttled_process_command item : follows (throttled E node_id) (process_command E item).
Proof.
  unfold process_command. destruct item as [c u].
  unfold handle_client_disconnection. throttle_auto.
Qed.

Lemma throttled_dispatch n p : follows (throttled E node_id) (dispatch E n p).
Proof. unfold dispatch. throttle_auto. Qed.

Lemma throttled_track_node n m : follows (throttled E node_id) (track_node E n m).
Proof. unfold track_node. throttle_auto. Qed.

#[local] Hint Resolve throttled_process_command throttled_dispatch throttled_track_node
  : throttle.

Lemma throttled_process_frame frame : follows (throttled E node_id) (process_frame E frame).
Proof. unfold process_frame. destruct frame as [n m]. throttle_auto. Qed.

Lemma throttled_safety_watchdog t : follows (throttled E node_id) (safety_watchdog E t).
Proof. unfold safety_watchdog. throttle_auto. Qed.

Lemma throttled_ping_node n : follows (throttled E node_id) (ping_node E n).
Proof. unfold ping_node. throttle_auto. Qed.

#[local] Hint Resolve throttled_process_frame throttled_safety_watchdog throttled_ping_node
  : throttle.

Lemma throttled_ping_sweep fuel i : follows (throttled E node_id) (ping_sweep E fuel i).
Proof. revert i. induction fuel as [ | fuel IH]; intro i; simpl; throttle_auto. Qed.

#[local] Hint Resolve throttled_ping_sweep : throttle.

Lemma throttled_health_checks t : follows (throttled E node_id) (health_checks E t).
Proof. unfold health_checks. throttle_auto. Qed.

Lemma throttled_ack_poll : follows (throttled E node_id) (ack_poll E).
Proof. unfold ack_poll. throttle_auto. Qed.

Lemma throttled_mesh_updates inbox : follows (throttled E node_id) (mesh_updates E inbox).
Proof. unfold mesh_updates. throttle_auto. Qed.

Lemma throttled_socket_messages queue :
  follows (throttled E node_id) (socket_messages E queue).
Proof. unfold socket_messages. throttle_auto. Qed.

#[local] Hint Resolve throttled_health_checks throttled_ack_poll throttled_mesh_updates
  throttled_socket_messages : throttle.

Lemma throttled_iteration inp : follows (throttled E node_id) (iteration E inp).
Proof. unfold iteration, in_phase. throttle_auto. Qed.

#[local] Hint Resolve throttled_iteration : throttle.

Lemma throttled_run inputs : follows (throttled E node_id) (run E inputs).
Proof. unfold run. throttle_auto. Qed.

End Throttle.

(** X6.  The node table is written for a node at most once per 30
    seconds.  (1) Over any run of the loop, whatever it meets (frames of
    this node and of others, commands, probes, failures, an exception
    that ends it): as long as every reading of the clock comes less than
    30 seconds after the time recorded for the node, that record and the
    rows of the node (when it was last seen, its last message) stay as
    they were.  (2) A message of the node met in that interval is not
    recorded: the call reads the clock and does nothing else.  (3) A
    message met when 30 seconds or more have passed is recorded, if the
    database answers, and the time of the call becomes the recorded
    one. *)
Theorem node_status_write_throttled E node_id inputs s :
  (within_interval E (last_status_update s node_id) s (state_of (run E inputs s)) ->
   last_status_update (state_of (run E inputs s)) node_id = last_status_update s node_id
   /\ node_record node_id (state_of (run E inputs s)) = node_record node_id s)
  /\ (forall message s0,
        time_time E (n_time s0) - last_status_update s0 node_id < NODE_STATUS_DB_INTERVAL ->
        update_node_status E node_id message s0 = Ok tt (set_n_time (S (n_time s0)) s0) [])
  /\ (forall message s0,
        NODE_STATUS_DB_INTERVAL <= time_time E (n_time s0) - last_status_update s0 node_id ->
        db_up E (n_db s0) = true ->
        exists s1,
          update_node_status E node_id message s0 = Ok tt s1 []
          /\ mesh_nodes (db s1)
             = map (touch_node node_id (datetime_now E (n_now s0)) message) (mesh_nodes (db s0))
          /\ last_status_update s1 node_id = time_time E (n_time s0)).
Proof.
  split; [ | split].
  - apply (throttled_run E node_id inputs s).
  - intros message s0 Hnew. unfold update_node_status, bind, read_time, gets.
    cbn [node_status_last_update set_n_time n_time]. fold (last_status_update s0 node_id).
    apply Z.ltb_lt in Hnew. rewrite Hnew. reflexivity.
  - intros message s0 Hold Hup. unfold update_node_status, bind, read_time, gets.
    cbn [node_status_last_update set_n_time n_time]. fold (last_status_update s0 node_id).
    apply Z.ltb_ge in Hold. rewrite Hold.
    unfold db_transaction, read_now, modify, ret. cbn. rewrite Hup. cbn.
    eexists. split; [reflexivity | ]. split; [reflexivity | ].
    unfold last_status_update. cbn. now rewrite dict_get_set_Z.
Qed.

Lemma node_status_write_throttled_witness :
  let E := example_env (always true) (always true) (60 * SECOND) in
  let heard := {| inbox := [(2, "t70.1")]; queue := [] |} in
  let later := [ {| inbox := [(2, "t70.2"); (1, "k1")]; queue := [(0%nat, "status")] |};
                 {| inbox := [(2, "t70.3")]; queue := [] |} ] in
  let s := state_of (run E [heard] (boot (one_node_db 2 "Keypad"))) in
  let s' := state_of (run E later s) in
  last_status_update s 2 = 62 * SECOND
  /\ n_time s = 4%nat /\ n_time s' = 14%nat
  /\ within_interval E (last_status_update s 2) s s'
  /\ last_status_update s' 2 = 62 * SECOND
  /\ map mn_last_message (mesh_nodes (db s')) = [Some "t70.1"].
Proof.
  intros E heard later s s'.
  assert (Hrec : last_status_update s 2 = 62 * SECOND) by (vm_compute; reflexivity).
  assert (Hn : n_time s = 4%nat) by (vm_compute; reflexivity).
  assert (Hn' : n_time s' = 14%nat) by (vm_compute; reflexivity).
  assert (Hwin : within_interval E (last_status_update s 2) s s').
  { intros k Hk. rewrite Hrec. rewrite Hn, Hn' in Hk.
    change (time_time E k) with (60 * SECOND + Z.of_nat k * SECOND).
    unfold NODE_STATUS_DB_INTERVAL, SECOND. lia. }
  destruct (node_status_write_throttled E 2 later s) as [Hrun _].
  destruct (Hrun Hwin) as [Hkept Hrows].
  split; [exact Hrec | ]. split; [exact Hn | ]. split; [exact Hn' | ].
  split; [exact Hwin | ]. split; [fold s' in Hkept; rewrite Hkept; exact Hrec | ].
  vm_compute. reflexivity.
Defined.

(* ====================================================================== *)
(** * Further properties of the node health monitor *)
(* ====================================================================== *)

Lemma remove_first_other x m l :
  m <> x -> (In m (Py.remove_first x l) <-> In m l).
Proof.
  intro Hne. induction l as [ | a l IH]; simpl; [tauto | ].
  destruct (Z.eqb_spec a x) as [-> | Ha]; simpl; [ | tauto].
  split; [tauto | ]. intros [H | H]; [congruence | exact H].
Qed.

Lemma track_lists c f n :
  NoDup f ->
  In n (if Py.mem n c then c else (c ++ [n])%list)
  /\ ~ In n (if Py.mem n f then Py.remove_first n f else f)
  /\ forall m, m <> n ->
       (In m (if Py.mem n c then c else (c ++ [n])%list) <-> In m c)
       /\ (In m (if Py.mem n f then Py.remove_first n f else f) <-> In m f).
Proof.
  intro Hf. split; [ | split].
  - destruct (Py.mem n c) eqn:Hm; [now apply mem_In | ].
    apply in_or_app. right. now left.
  - destruct (Py.mem n f) eqn:Hm; [now apply remove_first_gone | now apply mem_not_In].
  - intros m Hm. split.
    + destruct (Py.mem n c); [tauto | ]. rewrite in_app_iff. simpl. intuition congruence.
    + destruct (Py.mem n f); [now apply remove_first_other | tauto].
Qed.

Lemma fail_lists c f n :
  NoDup c ->
  ~ In n (if Py.mem n c then Py.remove_first n c else c)
  /\ In n (f ++ [n])%list
  /\ forall m, m <> n ->
       (In m (if Py.mem n c then Py.remove_first n c else c) <-> In m c)
       /\ (In m (f ++ [n])%list <-> In m f).
Proof.
  intro Hc. split; [ | split].
  - destruct (Py.mem n c) eqn:Hm; [now apply remove_first_gone | now apply mem_not_In].
  - apply in_or_app. right. now left.
  - intros m Hm. split.
    + destruct (Py.mem n c); [now apply remove_first_other | tauto].
    + rewrite in_app_iff. simpl. intuition congruence.
Qed.

Lemma send_sent_is_delivered E node_id message s :
  exists k tr,
    send_message_to_node E node_id message s
    = Ok (delivered E s) (set_n_write (k + n_write s) s) tr
    /\ Forall (fun e => exists ok, e = MeshWrite node_id message ok) (filter is_write tr).
Proof.
  rewrite send_message_to_node_cases. unfold delivered.
  destruct (mesh_write E (n_write s));
    [ exists 1%nat
    | destruct (mesh_write E (1 + n_write s));
      [ exists 2%nat
      | destruct (mesh_write E (2 + n_write s)); [exists 3%nat | exists 3%nat] ] ];
    eexists; (split; [reflexivity | ]);
    simpl; repeat constructor; eexists; reflexivity.
Qed.

(** X7.  What a probe does to the two lists.  A node heard less than 60
    seconds ago is not probed: the clock is read and nothing else
    happens.  Otherwise the heartbeat [k1] is sent to the node, and to
    no other.  If it is acknowledged, the node is in the connected list
    and not in the failed list afterwards; if not, the node is in the
    failed list and not in the connected list, and its row in the node
    table says offline when the database answers.  Whether any other
    node is in either list is not changed. *)
Theorem ping_node_outcome E node_id s :
  tidy s ->
  let s' := state_of (ping_node E node_id s) in
  (forall m, m <> node_id ->
     (In m (connected_clients s') <-> In m (connected_clients s))
     /\ (In m (connect_fail_clients s') <-> In m (connect_fail_clients s)))
  /\ Forall (fun e => exists ok, e = MeshWrite node_id "k1" ok)
       (filter is_write (trace_of (ping_node E node_id s)))
  /\ if time_time E (n_time s) - last_heard s node_id <? PING_INTERVAL
     then ping_node E node_id s = Ok tt (set_n_time (S (n_time s)) s) []
     else if delivered E s
     then In node_id (connected_clients s') /\ ~ In node_id (connect_fail_clients s')
     else ~ In node_id (connected_clients s') /\ In node_id (connect_fail_clients s')
          /\ (db_up E (n_db s) = true ->
              forall r, In r (mesh_nodes (db s')) ->
                mn_node_id r = node_id -> mn_status r = "offline").
Proof.
  intros (Hc & Hf & _). unfold sets in Hc, Hf. simpl in Hc, Hf.
  unfold last_heard, ping_node, bind, gets, read_time. simpl.
  destruct (_ <? PING_INTERVAL); simpl.
  { split; [intros m _; tauto | ]. split; [constructor | reflexivity]. }
  change (Codec.build_packet [("k", Py.str_int 1)]) with "k1".
  destruct (send_sent_is_delivered E node_id "k1" (set_n_time (S (n_time s)) s))
    as (k & tr & Hsend & Hwrites).
  rewrite Hsend.
  change (delivered E (set_n_time (S (n_time s)) s)) with (delivered E s).
  destruct (delivered E s); simpl; unfold modify; simpl.
  - (* acknowledged *)
    rewrite app_nil_r.
    destruct (track_lists (connected_clients s) (connect_fail_clients s) node_id Hf)
      as (Hin & Hout & Hrest).
    destruct (Py.mem node_id (connected_clients s)); simpl;
      destruct (Py.mem node_id (connect_fail_clients s)); simpl;
      (split; [exact Hrest | ]); (split; [exact Hwrites | ]); split; assumption.
  - (* not acknowledged *)
    destruct (fail_lists (connected_clients s) (connect_fail_clients s) node_id Hc)
      as (Hout & Hin & Hrest).
    assert (Hoff : forall r, In r (map (offline_node node_id) (mesh_nodes (db s))) ->
                     mn_node_id r = node_id -> mn_status r = "offline").
    { intros r Hr Hid. apply in_map_iff in Hr. destruct Hr as (r0 & <- & _).
      unfold offline_node in *. destruct (mn_node_id r0 =? node_id) eqn:Hr0; [reflexivity | ].
      apply Z.eqb_neq in Hr0. contradiction. }
    unfold mark_node_offline, bind, db_transaction, modify, log, emit. simpl.
    destruct (Py.mem node_id (connected_clients s)); simpl;
      destruct (db_up E (n_db s)); simpl;
      (split; [exact Hrest | ]);
      (split; [rewrite ?filter_app; simpl; rewrite ?app_nil_r; exact Hwrites | ]);
      (split; [exact Hout | ]); (split; [exact Hin | ]); intro Hup;
      first [exact Hoff | discriminate Hup].
Qed.

Lemma ping_node_outcome_witness :
  let s := set_connected_clients [1; 2] (boot (one_node_db 1 "Relay")) in
  let s' := state_of (ping_node deaf_late_env 1 s) in
  tidy s
  /\ In 1 (connect_fail_clients s')
  /\ (In 2 (connected_clients s') <-> In 2 (connected_clients s))
  /\ map mn_status (mesh_nodes (db s')) = ["offline"].
Proof.
  intros s s'.
  assert (Ht : tidy s).
  { unfold tidy, tidy_lists, s. simpl. repeat split.
    - repeat constructor; simpl; intuition discriminate.
    - constructor.
    - intros n [_ []]. }
  split; [exact Ht | ].
  destruct (ping_node_outcome deaf_late_env 1 s Ht) as (Hrest & _ & Hcase).
  assert (Hcond : (time_time deaf_late_env (n_time s) - last_heard s 1 <? PING_INTERVAL) = false)
    by reflexivity.
  assert (Hd : delivered deaf_late_env s = false) by reflexivity.
  rewrite Hcond, Hd in Hcase. destruct Hcase as (_ & Hin & _).
  split; [exact Hin | ].
  destruct (Hrest 2) as [H2 _]; [discriminate | ].
  split; [exact H2 | vm_compute; reflexivity].
Defined.

Lemma remove_first_incl x l : incl (Py.remove_first x l) l.
Proof. intros y H. eapply remove_first_In; eauto. Qed.

Lemma ping_node_probe E n s :
  In n (connected_clients s) ->
  incl (connected_clients (state_of (ping_node E n s))) (connected_clients s)
  /\ Forall (probe_of (connected_clients s))
       (filter is_write (trace_of (ping_node E n s))).
Proof.
  intro Hin. assert (Hm : Py.mem n (connected_clients s) = true) by now apply mem_In.
  unfold ping_node, bind, gets, read_time. simpl.
  destruct (_ <? PING_INTERVAL); simpl.
  { split; [apply incl_refl | constructor]. }
  change (Codec.build_packet [("k", Py.str_int 1)]) with "k1".
  destruct (send_sent_is_delivered E n "k1" (set_n_time (S (n_time s)) s))
    as (k & tr & Hsend & Hwrites).
  rewrite Hsend.
  assert (Hprobes : Forall (probe_of (connected_clients s)) (filter is_write tr)).
  { eapply Forall_impl; [ | exact Hwrites]. intros e [ok ->]. exists n, ok. now split. }
  destruct (delivered E _); simpl; unfold modify; simpl; rewrite Hm; simpl.
  - rewrite app_nil_r.
    destruct (Py.mem n (connect_fail_clients s)); simpl;
      (split; [apply incl_refl | exact Hprobes]).
  - unfold mark_node_offline, bind, db_transaction, modify, log, emit. simpl.
    destruct (db_up E (n_db s)); simpl;
      (split; [apply remove_first_incl | ]);
      rewrite ?filter_app; simpl; rewrite ?app_nil_r; exact Hprobes.
Qed.

Lemma ping_sweep_probes E nodes fuel : forall i s,
  incl (connected_clients s) nodes ->
  Forall (probe_of nodes) (filter is_write (trace_of (ping_sweep E fuel i s))).
Proof.
  induction fuel as [ | fuel IH]; intros i s Hincl; simpl; [constructor | ].
  unfold bind at 1, gets. simpl.
  destruct (nth_error (connected_clients s) i) as [client | ] eqn:Hn; simpl; [ | constructor].
  destruct (ping_node_probe E client s (nth_error_In _ _ Hn)) as [Hsub Hpr].
  assert (Hpr' : Forall (probe_of nodes) (filter is_write (trace_of (ping_node E client s)))).
  { eapply Forall_impl; [ | exact Hpr]. intros e (m & ok & -> & Hm).
    exists m, ok. split; [reflexivity | now apply Hincl]. }
  unfold bind. destruct (ping_node E client s) as [a s1 tr1 | e s1 tr1]; simpl in *.
  - specialize (IH (S i) s1 (incl_tran Hsub Hincl)).
    destruct (ping_sweep E fuel (S i) s1); simpl in *;
      rewrite filter_app; apply Forall_app; split; assumption.
  - exact Hpr'.
Qed.

Lemma handle_failed_clients_no_write E s :
  filter is_write (trace_of (handle_failed_clients E s)) = [].
Proof.
  unfold handle_failed_clients, bind at 1, gets. rewrite for_each_start_waits.
  simpl.
  induction (connect_fail_clients s) as [ | x l IH]; simpl; [reflexivity | exact IH].
Qed.

(** X8.  The health sweep writes nothing but heartbeats, and only to
    nodes that are in the connected list when it starts.  As no node is
    in both lists, a node of the failed list is not probed by the
    sweep. *)
Theorem health_checks_probe_connected E current_time s :
  Forall (probe_of (connected_clients s))
    (filter is_write (trace_of (health_checks E current_time s))).
Proof.
  unfold health_checks, bind at 1, gets, when. simpl.
  destruct (PING_INTERVAL <=? current_time - last_ping_time s); simpl; [ | constructor].
  unfold bind at 1, gets. simpl.
  assert (Hsweep := ping_sweep_probes E (connected_clients s)
                      (List.length (connected_clients s)) 0 s (incl_refl _)).
  unfold bind at 1.
  destruct (ping_sweep E (List.length (connected_clients s)) 0 s) as [a s1 tr1 | e s1 tr1];
    simpl in *; [ | exact Hsweep].
  unfold bind, modify, gets. simpl.
  destruct (connect_fail_clients s1) eqn:Hfail; simpl.
  - rewrite app_nil_r. exact Hsweep.
  - assert (Hq := handle_failed_clients_no_write E (set_last_ping_time current_time s1)).
    destruct (handle_failed_clients E (set_last_ping_time current_time s1));
      simpl in *; rewrite filter_app, Hq, app_nil_r; exact Hsweep.
Qed.

Lemma remove_first_app_notin x pre rest :
  ~ In x pre -> Py.remove_first x (pre ++ x :: rest) = (pre ++ rest)%list.
Proof.
  induction pre as [ | a pre IH]; simpl; intro H.
  - now rewrite Z.eqb_refl.
  - destruct (Z.eqb_spec a x) as [-> | Hne]; [tauto | ].
    rewrite IH; [reflexivity | tauto].
Qed.

Lemma probed_cons a l : probed (a :: l) = a :: skipped l.
Proof. destruct l; reflexivity. Qed.

Lemma ping_node_fails E n s :
  (forall k, mesh_write E k = false) ->
  PING_INTERVAL <= time_time E (n_time s) - last_heard s n ->
  exists s1 tr,
    ping_node E n s = Ok tt s1 tr
    /\ connected_clients s1
       = (if Py.mem n (connected_clients s)
          then Py.remove_first n (connected_clients s) else connected_clients s)
    /\ connect_fail_clients s1 = (connect_fail_clients s ++ [n])%list
    /\ node_last_heard s1 = node_last_heard s
    /\ filter is_write tr = failed_writes n "k1".
Proof.
  intros Hdead Hstale. unfold last_heard in Hstale.
  unfold ping_node, bind, gets, read_time. simpl.
  apply Z.ltb_ge in Hstale. rewrite Hstale.
  change (Codec.build_packet [("k", Py.str_int 1)]) with "k1".
  rewrite send_message_to_node_cases. rewrite !Hdead. simpl.
  unfold modify, mark_node_offline, bind, db_transaction, modify, log, emit. simpl.
  destruct (Py.mem n (connected_clients s)); simpl;
    destruct (db_up E (n_db s)); simpl;
    do 2 eexists; (split; [reflexivity | ]); simpl; repeat split; reflexivity.
Qed.

Lemma ping_sweep_all_fail E fuel :
  (forall k, mesh_write E k = false) ->
  forall pre rest s,
    connected_clients s = (pre ++ rest)%list ->
    NoDup (pre ++ rest) ->
    (List.length rest <= fuel)%nat ->
    (forall k n, In n rest -> PING_INTERVAL <= time_time E k - last_heard s n) ->
    exists s' tr,
      ping_sweep E fuel (List.length pre) s = Ok tt s' tr
      /\ connected_clients s' = (pre ++ skipped rest)%list
      /\ connect_fail_clients s' = (connect_fail_clients s ++ probed rest)%list
      /\ filter is_write tr = flat_map (fun n => failed_writes n "k1") (probed rest).
Proof.
  intro Hdead. induction fuel as [ | fuel IH]; intros pre rest s Hc Hnd Hlen Hstale.
  - destruct rest; [ | simpl in Hlen; lia].
    exists s, []. simpl. rewrite !app_nil_r in *. repeat split; auto.
  - simpl. unfold bind at 1, gets. simpl. rewrite Hc.
    destruct rest as [ | a rest1].
    + assert (Hn : nth_error (pre ++ []) (List.length pre) = None)
        by (apply nth_error_None; rewrite app_nil_r; lia).
      rewrite Hn. exists s, []. simpl. rewrite !app_nil_r in *. repeat split; auto.
    + assert (Hn : nth_error (pre ++ a :: rest1) (List.length pre) = Some a).
      { rewrite nth_error_app2 by lia. now rewrite Nat.sub_diag. }
      rewrite Hn.
      destruct (ping_node_fails E a s Hdead (Hstale _ a (or_introl eq_refl)))
        as (s1 & tr1 & Hping & Hc1 & Hf1 & Hh1 & Hw1).
      assert (Ha : ~ In a pre).
      { intro Hin. apply NoDup_remove_2 in Hnd. apply Hnd. apply in_or_app. now left. }
      assert (Hm : Py.mem a (connected_clients s) = true).
      { apply mem_In. rewrite Hc. apply in_or_app. right. now left. }
      rewrite Hm, Hc, remove_first_app_notin in Hc1 by exact Ha.
      rewrite (bind_Ok _ _ _ _ _ _ Hping).
      destruct rest1 as [ | b rest2].
      * (* the list ends here *)
        assert (Hend : ping_sweep E fuel (S (List.length pre)) s1 = Ok tt s1 []).
        { assert (Hn1 : nth_error (connected_clients s1) (S (List.length pre)) = None)
            by (apply nth_error_None; rewrite Hc1, app_nil_r; lia).
          destruct fuel; [reflexivity | ]. cbn [ping_sweep]. unfold bind, gets.
          cbv beta iota. rewrite Hn1. reflexivity. }
        rewrite Hend. do 2 eexists. split; [reflexivity | ].
        simpl. rewrite !app_nil_r. rewrite app_nil_r in Hc1. repeat split; assumption.
      * (* the next entry takes the place of the one removed *)
        assert (Hpre : S (List.length pre) = List.length (pre ++ [b]))
          by (rewrite length_app; simpl; lia).
        rewrite Hpre.
        destruct (IH (pre ++ [b])%list rest2 s1) as (s' & tr & Hrun & Hc' & Hf' & Hw').
        -- rewrite Hc1, <- app_assoc. reflexivity.
        -- rewrite <- app_assoc. simpl. apply NoDup_remove_1 in Hnd. exact Hnd.
        -- simpl in Hlen. lia.
        -- intros k n Hin. unfold last_heard. rewrite Hh1.
           apply Hstale. right. now right.
        -- rewrite Hrun. do 2 eexists. split; [reflexivity | ].
           rewrite Hc', Hf', Hf1, filter_app, Hw1, Hw', <- !app_assoc.
           change (skipped (a :: b :: rest2)) with (probed (b :: rest2)).
           rewrite probed_cons. repeat split; reflexivity.
Qed.

(** X9.  The sweep goes through the connected list by position while a
    failed probe takes its node out of that list, so that the node after
    a failed one is not probed in that sweep.  With a radio that
    acknowledges nothing and no node heard in the last 60 seconds, the
    sweep probes the first, third, fifth ... node of the list, moves these
    to the failed list and leaves the others connected without a
    probe. *)
Theorem sweep_skips_every_other E s :
  NoDup (connected_clients s) ->
  (forall k, mesh_write E k = false) ->
  (forall k n, In n (connected_clients s) ->
     PING_INTERVAL <= time_time E k - last_heard s n) ->
  exists s' tr,
    ping_sweep E (List.length (connected_clients s)) 0 s = Ok tt s' tr
    /\ connected_clients s' = skipped (connected_clients s)
    /\ connect_fail_clients s'
       = (connect_fail_clients s ++ probed (connected_clients s))%list
    /\ filter is_write tr
       = flat_map (fun n => failed_writes n "k1") (probed (connected_clients s)).
Proof.
  intros Hnd Hdead Hstale.
  apply (ping_sweep_all_fail E _ Hdead [] (connected_clients s) s); auto.
Qed.

Lemma sweep_skips_every_other_witness :
  let s := set_connected_clients [1; 2; 3; 4] (boot empty_db) in
  exists s' tr,
    ping_sweep deaf_late_env 4 0 s = Ok tt s' tr
    /\ connected_clients s' = [2; 4]
    /\ connect_fail_clients s' = [1; 3]
    /\ filter is_write tr = (failed_writes 1 "k1" ++ failed_writes 3 "k1")%list.
Proof.
  intro s.
  apply (sweep_skips_every_other deaf_late_env s).
  - repeat constructor; simpl; intuition discriminate.
  - reflexivity.
  - intros k n _.
    change (60 * SECOND <= 41 * 60 * SECOND + Z.of_nat k * SECOND - 0).
    unfold SECOND. lia.
Defined.

(* ====================================================================== *)
(** * What each operation leaves alone *)
(* ====================================================================== *)

Lemma in_memory_db {X} (f : State -> X) : in_memory f -> ignores set_db f.
Proof. intro H. apply H. Qed.
Lemma in_memory_n_write {X} (f : State -> X) : in_memory f -> ignores set_n_write f.
Proof. intro H. apply H. Qed.
Lemma in_memory_n_db {X} (f : State -> X) : in_memory f -> ignores set_n_db f.
Proof. intro H. apply H. Qed.
Lemma in_memory_n_send {X} (f : State -> X) : in_memory f -> ignores set_n_send f.
Proof. intro H. apply H. Qed.
Lemma in_memory_n_time {X} (f : State -> X) : in_memory f -> ignores set_n_time f.
Proof. intro H. apply H. Qed.
Lemma in_memory_n_now {X} (f : State -> X) : in_memory f -> ignores set_n_now f.
Proof. intro H. apply H. Qed.

Ltac frame_rewrite :=
  match goal with
  | H : ignores _ _ |- _ => rewrite (H _ _)
  | H : in_memory _ |- _ =>
      first [ rewrite (in_memory_db _ H _ _) | rewrite (in_memory_n_write _ H _ _)
            | rewrite (in_memory_n_db _ H _ _) | rewrite (in_memory_n_send _ H _ _)
            | rewrite (in_memory_n_time _ H _ _) | rewrite (in_memory_n_now _ H _ _) ]
  | H : ignores_temperature _ |- _ =>
      first [ rewrite (proj1 H _ _) | rewrite (proj1 (proj2 H) _ _)
            | rewrite (proj1 (proj2 (proj2 H)) _ _)
            | rewrite (proj2 (proj2 (proj2 H)) _ _) ]
  | H : ignores_tracking _ |- _ =>
      first [ rewrite (proj1 H _ _) | rewrite (proj1 (proj2 H) _ _)
            | rewrite (proj1 (proj2 (proj2 H)) _ _)
            | rewrite (proj2 (proj2 (proj2 H)) _ _) ]
  end.

Ltac frame_eq :=
  repeat match goal with |- context [if ?b then _ else _] => destruct b end;
  repeat first [ reflexivity | frame_rewrite ].

Create HintDb frame.

Ltac frame_step :=
  lazymatch goal with
  | |- keeps _ (bind _ _) => apply keeps_bind; [ | intros ]
  | |- keeps _ (ret _) => apply keeps_ret
  | |- keeps _ (gets _) => apply keeps_gets
  | |- keeps _ (emit _) => apply keeps_emit
  | |- keeps _ (raise _) => apply keeps_raise
  | |- keeps _ (when _ _) => apply keeps_when
  | |- keeps _ (for_each _ _) => apply keeps_for_each; intros
  | |- keeps _ (try_except _ _ _) => apply keeps_try_except
  | |- keeps _ (relabel _ _) => apply keeps_relabel
  | |- keeps _ (modify _) => apply keeps_modify; intros; solve [frame_eq]
  | |- keeps _ (match ?x with _ => _ end) => destruct x
  | |- keeps _ (let (_, _) := ?x in _) => destruct x
  | |- keeps _ _ => solve [auto 4 with frame]
  end.

Ltac frame_auto := repeat frame_step.

Section Frame.
Context {X : Type} (f : State -> X).

Lemma frame_log lv msg : keeps f (log lv msg).
Proof. unfold log. frame_auto. Qed.

Lemma frame_log_node lv msg n : keeps f (log_node lv msg n).
Proof. unfold log_node. frame_auto. Qed.

Lemma frame_read_time E : in_memory f -> keeps f (read_time E).
Proof. intros H s. apply H. Qed.

Lemma frame_read_now E : in_memory f -> keeps f (read_now E).
Proof. intros H s. apply H. Qed.

Lemma frame_db_transaction E : in_memory f -> keeps f (db_transaction E).
Proof. intros H s. apply H. Qed.

Lemma frame_radio_write E n p : in_memory f -> keeps f (radio_write E n p).
Proof. intros H s. apply H. Qed.

Lemma frame_select_last E : in_memory f -> keeps f (select_last E).
Proof. intros H s. apply H. Qed.

Lemma frame_sendall E c t : in_memory f -> keeps f (sendall E c t).
Proof. intros H s. apply H. Qed.

End Frame.

#[local] Hint Resolve frame_log frame_log_node
  frame_read_time frame_read_now frame_db_transaction frame_radio_write
  frame_select_last frame_sendall : frame.

Section FrameGateway.
Context {X : Type} (f : State -> X) (Hf : in_memory f).

Lemma frame_get_last_ac_state E : keeps f (get_last_ac_state E).
Proof. unfold get_last_ac_state. frame_auto. Qed.

Lemma frame_get_ac_state E : keeps f (get_ac_state E).
Proof. unfold get_ac_state. frame_auto. Qed.

Lemma frame_database_log E b : keeps f (database_log E b).
Proof.
  pose proof (frame_get_last_ac_state E).
  unfold database_log. frame_auto.
Qed.

Lemma frame_save_temps E a b : keeps f (save_temps E a b).
Proof. unfold save_temps. frame_auto. Qed.

Lemma frame_get_temps E : keeps f (get_temps E).
Proof. unfold get_temps. frame_auto. Qed.

Lemma frame_save_ac_allowed E b : keeps f (save_ac_allowed E b).
Proof. unfold save_ac_allowed. frame_auto. Qed.

Lemma frame_get_ac_allowed E : keeps f (get_ac_allowed E).
Proof. unfold get_ac_allowed. frame_auto. Qed.

Lemma frame_mark_node_offline E n : keeps f (mark_node_offline E n).
Proof. unfold mark_node_offline. frame_auto. Qed.

Lemma frame_get_known_nodes E : keeps f (get_known_nodes E).
Proof. unfold get_known_nodes. frame_auto. Qed.

Lemma frame_send_attempts E l n m : keeps f (send_attempts E l n m).
Proof. induction l as [ | a l IH]; simpl; frame_auto. Qed.

Lemma frame_send_message_to_node E n m : keeps f (send_message_to_node E n m).
Proof. apply frame_send_attempts. Qed.

Lemma frame_int_of_float E x : keeps f (int_of_float E x).
Proof. unfold int_of_float. frame_auto. Qed.

Lemma frame_send_message_to_client E c t : keeps f (send_message_to_client E c t).
Proof. unfold send_message_to_client. frame_auto. Qed.

End FrameGateway.

#[local] Hint Resolve frame_get_last_ac_state frame_get_ac_state frame_database_log
  frame_save_temps frame_get_temps frame_save_ac_allowed frame_get_ac_allowed
  frame_mark_node_offline frame_get_known_nodes frame_send_message_to_node
  frame_int_of_float frame_send_message_to_client : frame.

Section FrameRules.
Context {X : Type} (f : State -> X) (Hf : in_memory f).

Lemma frame_send_ E n m : keeps f (send_ E n m).
Proof. unfold send_. frame_auto. Qed.

Lemma frame_send_settings_to_node E : keeps f (send_settings_to_node E).
Proof. unfold send_settings_to_node. frame_auto. Qed.

Lemma frame_fresh_state E : keeps f (fresh_state E).
Proof. unfold fresh_state. frame_auto. Qed.

Lemma frame_rule_s E n p : keeps f (rule_s E n p).
Proof. pose proof frame_send_. unfold rule_s. frame_auto. Qed.

Lemma frame_relay_command E b : keeps f (relay_command E b).
Proof. pose proof frame_send_. unfold relay_command. frame_auto. Qed.

Lemma frame_rule_a E n p : keeps f (rule_a E n p).
Proof. pose proof frame_relay_command. unfold rule_a. frame_auto. Qed.

Lemma frame_rule_xn E p : keeps f (rule_xn E p).
Proof. unfold rule_xn. frame_auto. Qed.

Lemma frame_rule_q E n p : keeps f (rule_q E n p).
Proof. pose proof frame_send_. pose proof frame_fresh_state. unfold rule_q. frame_auto. Qed.

Lemma frame_cmd_AC_Status E c : keeps f (cmd_AC_Status E c).
Proof. pose proof frame_fresh_state. unfold cmd_AC_Status. frame_auto. Qed.

Lemma frame_cmd_turn E c b : keeps f (cmd_turn E c b).
Proof. pose proof frame_send_. unfold cmd_turn. frame_auto. Qed.

Lemma frame_cmd_setBrightness E c u : keeps f (cmd_setBrightness E c u).
Proof. pose proof frame_send_. unfold cmd_setBrightness. frame_auto. Qed.

Lemma frame_cmd_setTemps E c u : keeps f (cmd_setTemps E c u).
Proof. pose proof frame_send_settings_to_node. unfold cmd_setTemps. frame_auto. Qed.

Lemma frame_cmd_status E c : keeps f (cmd_status E c).
Proof. unfold cmd_status. frame_auto. Qed.

Lemma frame_toggle_ac_allowed E :
  ignores set_ac_allowed f -> keeps f (toggle_ac_allowed E).
Proof. intro Ha. unfold toggle_ac_allowed. frame_auto. Qed.

Lemma frame_rule_g E p :
  (Codec.has "g" p = true -> ignores set_ac_allowed f) -> keeps f (rule_g E p).
Proof.
  intro Ha. pose proof frame_send_. unfold rule_g.
  destruct (Codec.has "g" p); [ | apply keeps_ret].
  specialize (Ha eq_refl). pose proof (frame_toggle_ac_allowed E Ha).
  simpl. frame_auto.
Qed.

Lemma frame_rule_t E n p :
  ignores_temperature f -> keeps f (rule_t E n p).
Proof. intro Ht. pose proof frame_send_. unfold rule_t. frame_auto. Qed.

Lemma frame_dispatch E n p :
  ignores_temperature f ->
  (Codec.has "g" p = true -> ignores set_ac_allowed f) ->
  keeps f (dispatch E n p).
Proof.
  intros Ht Ha.
  pose proof (frame_rule_s E n p). pose proof (frame_rule_t E n p Ht).
  pose proof (frame_rule_a E n p). pose proof (frame_rule_g E p Ha).
  pose proof (frame_rule_xn E p). pose proof (frame_rule_q E n p).
  unfold dispatch. frame_auto.
Qed.

Lemma frame_update_node_status E n m :
  ignores set_node_status_last_update f -> keeps f (update_node_status E n m).
Proof. intro Hu. unfold update_node_status. frame_auto. Qed.

Lemma frame_track_node E n m :
  ignores_tracking f -> keeps f (track_node E n m).
Proof.
  intro Ht. assert (Hu : ignores set_node_status_last_update f) by apply Ht.
  pose proof (frame_update_node_status E n (Some m) Hu).
  unfold track_node. frame_auto.
Qed.

Lemma frame_process_frame E frame :
  ignores_temperature f -> ignores_tracking f ->
  (forall p, Codec.parse_packet (snd frame) = Some p -> Codec.has "g" p = true ->
     ignores set_ac_allowed f) ->
  keeps f (process_frame E frame).
Proof.
  intros Ht Hk Ha. destruct frame as [n message]. simpl in Ha.
  pose proof (frame_track_node E n message Hk).
  unfold process_frame.
  destruct (Codec.parse_packet message) as [p | ] eqn:Hp.
  - pose proof (frame_dispatch E n p Ht (Ha p eq_refl)). frame_auto.
  - frame_auto.
Qed.

Lemma frame_process_command E item :
  (snd item = "ToggleAC" -> ignores set_ac_allowed f) ->
  keeps f (process_command E item).
Proof.
  intro Ha. destruct item as [c u]. simpl in Ha.
  pose proof (frame_cmd_AC_Status E c). pose proof (frame_cmd_turn E c).
  pose proof (frame_cmd_setBrightness E c u). pose proof (frame_cmd_setTemps E c u).
  pose proof (frame_cmd_status E c).
  unfold process_command, handle_client_disconnection.
  destruct (String.eqb_spec u "ToggleAC") as [Hu | Hu].
  - pose proof (frame_toggle_ac_allowed E (Ha Hu)). frame_auto.
  - frame_auto.
Qed.

Lemma frame_safety_watchdog E t :
  ignores_temperature f -> keeps f (safety_watchdog E t).
Proof. intro Ht. pose proof frame_send_. unfold safety_watchdog. frame_auto. Qed.

Lemma frame_ping_node E n :
  ignores_tracking f -> keeps f (ping_node E n).
Proof. intro Hk. unfold ping_node. frame_auto. Qed.

Lemma frame_ping_sweep E fuel i :
  ignores_tracking f -> keeps f (ping_sweep E fuel i).
Proof.
  intro Hk. pose proof (fun n => frame_ping_node E n Hk).
  revert i. induction fuel as [ | fuel IH]; intro i; simpl; frame_auto.
Qed.

Lemma frame_start_waiting_for_ack E n t :
  ignores set_waiting_for_ack_state f -> keeps f (start_waiting_for_ack E n t).
Proof. intro Hw. unfold start_waiting_for_ack. frame_auto. Qed.

Lemma frame_handle_failed_clients E :
  ignores set_waiting_for_ack_state f -> keeps f (handle_failed_clients E).
Proof.
  intro Hw. pose proof (fun n t => frame_start_waiting_for_ack E n t Hw).
  unfold handle_failed_clients. frame_auto.
Qed.

Lemma frame_health_checks E t :
  ignores_tracking f -> ignores set_last_ping_time f ->
  ignores set_waiting_for_ack_state f ->
  keeps f (health_checks E t).
Proof.
  intros Hk Hp Hw. pose proof (fun fuel i => frame_ping_sweep E fuel i Hk).
  pose proof (frame_handle_failed_clients E Hw).
  unfold health_checks. frame_auto.
Qed.

Lemma frame_ack_poll E :
  ignores set_waiting_for_ack_state f -> keeps f (ack_poll E).
Proof. intro Hw. unfold ack_poll, wait_for_ack. frame_auto. Qed.

End FrameRules.

Lemma keeps_for_each_Forall {T X Y} (f : State -> X) (P : Y -> Prop)
    (xs : list Y) (body : Y -> M T unit) :
  (forall x, P x -> keeps f (body x)) -> Forall P xs -> keeps f (for_each xs body).
Proof.
  intros H Hall. induction Hall as [ | x xs Hx Hxs IH]; simpl.
  - apply keeps_ret.
  - apply keeps_bind; [now apply H | intros _; exact IH].
Qed.

Ltac blind := repeat split; intros ? ?; reflexivity.

Lemma frame_iteration {X} (f : State -> X) E inp :
  in_memory f -> ignores_temperature f -> ignores_tracking f ->
  ignores set_last_ping_time f -> ignores set_waiting_for_ack_state f ->
  no_toggle inp ->
  keeps f (iteration E inp).
Proof.
  intros Hf Ht Hk Hp Hw [Hin Hq].
  pose proof (frame_read_time f E Hf).
  pose proof (fun t => frame_safety_watchdog f Hf E t Ht).
  pose proof (fun t => frame_health_checks f Hf E t Hk Hp Hw).
  pose proof (frame_ack_poll f Hf E Hw).
  assert (Hmesh : keeps f (mesh_updates E (inbox inp))).
  { unfold mesh_updates. apply keeps_bind; [apply keeps_emit | intros _].
    apply keeps_bind; [apply keeps_when, keeps_emit | intros _].
    apply (keeps_for_each_Forall f no_toggle_frame); [ | exact Hin].
    intros frame Hfr. apply frame_process_frame; try assumption.
    intros p Hp' Hg. unfold no_toggle_frame in Hfr. rewrite Hp' in Hfr. congruence. }
  assert (Hsock : keeps f (socket_messages E (queue inp))).
  { unfold socket_messages.
    apply (keeps_for_each_Forall f no_toggle_command); [ | exact Hq].
    intros item Hitem. apply frame_process_command; [assumption | ].
    intro Htoggle. contradiction. }
  unfold iteration, in_phase. frame_auto.
Qed.

(** X10.  The permission flag changes in two ways only: by a frame
    that holds key [g] and by the command [ToggleAC].  Whatever else
    the loop meets (other frames and commands, the watchdog, the health
    sweep, the ACK-wait, failures of the radio or of the database, an
    exception that ends the loop) leaves the flag as it was. *)
Theorem permission_changes_only_by_toggle E inputs s :
  Forall no_toggle inputs ->
  ac_allowed (state_of (run E inputs s)) = ac_allowed s.
Proof.
  intro Hall. revert s.
  change (keeps ac_allowed (run E inputs)). unfold run.
  apply (keeps_for_each_Forall ac_allowed no_toggle); [ | exact Hall].
  intros inp Hinp. apply frame_iteration; try assumption; blind.
Qed.

Lemma permission_changes_only_by_toggle_witness :
  let inputs :=
    [ {| inbox := [(2, "t71.5,h40.0"); (2, "a1")]; queue := [(0%nat, "TurnOnAC")] |};
      {| inbox := [(1, "q1")]; queue := [(0%nat, "setTemps:80,70"); (0%nat, "status")] |} ] in
  Forall no_toggle inputs
  /\ ac_allowed (state_of (run late_env inputs (boot empty_db))) = false.
Proof.
  intro inputs.
  assert (H : Forall no_toggle inputs).
  { repeat constructor; simpl; discriminate. }
  split; [exact H | ].
  exact (permission_changes_only_by_toggle late_env inputs (boot empty_db) H).
Defined.

(** X11.  A command of a socket client changes nothing of what the
    controller remembers about the nodes and the temperature: the two
    lists, the ACK-wait, the times of the last frames and probes, the
    last temperature and the two latches of the watchdog are, after any
    queue of commands, what they were.  (Of the memory only the
    permission flag can change, by [ToggleAC].) *)
Theorem socket_messages_keep_monitor E queue s :
  monitor (state_of (socket_messages E queue s)) = monitor s.
Proof.
  revert s. change (keeps monitor (socket_messages E queue)).
  unfold socket_messages. apply keeps_for_each. intro item.
  apply frame_process_command; [blind | intros _; blind].
Qed.

Lemma track_node_sets E n m s :
  exists s1 tr,
    track_node E n m s = Ok tt s1 tr
    /\ sets s1
       = (if Py.mem n (connected_clients s)
          then connected_clients s else (connected_clients s ++ [n])%list,
          if Py.mem n (connect_fail_clients s)
          then Py.remove_first n (connect_fail_clients s) else connect_fail_clients s).
Proof.
  unfold track_node, update_node_status, bind, read_time, modify, gets, when, log, emit, ret,
    db_transaction, read_now.
  simpl.
  destruct (Py.mem n (connected_clients s)); simpl;
    destruct (Py.mem n (connect_fail_clients s)); simpl;
    destruct (_ <? NODE_STATUS_DB_INTERVAL); simpl;
    try (destruct (db_up E (n_db s)); simpl);
    do 2 eexists; split; reflexivity.
Qed.

Lemma process_frame_sets E n m s :
  sets (state_of (process_frame E (n, m) s))
  = (if Py.mem n (connected_clients s)
     then connected_clients s else (connected_clients s ++ [n])%list,
     if Py.mem n (connect_fail_clients s)
     then Py.remove_first n (connect_fail_clients s) else connect_fail_clients s).
Proof.
  unfold process_frame. rewrite state_of_bind. unfold log_node at 1, emit at 1.
  rewrite state_of_bind.
  destruct (track_node_sets E n m s) as (s1 & tr & Hrun & Hsets). rewrite Hrun.
  rewrite <- Hsets.
  assert (Hk : keeps sets
                 (when (Codec.is_packet m)
                    match Codec.parse_packet m with
                    | Some packet => when (Codec.truthy packet) (dispatch E n packet)
                    | None => ret tt
                    end)).
  { apply keeps_when. destruct (Codec.parse_packet m); [ | apply keeps_ret].
    apply keeps_when. apply keeps_sets_dispatch. }
  apply Hk.
Qed.



(* ====================================================================== *)
(** * Further properties of the rules and the commands *)
(* ====================================================================== *)

Lemma send_facts E node_id message s :
  exists k tr,
    send_message_to_node E node_id message s
    = Ok (delivered E s) (set_n_write (k + n_write s) s) tr
    /\ writes_of node_id message (filter is_write tr)
    /\ filter is_insert tr = []
    /\ filter is_client_send tr = [].
Proof.
  rewrite send_message_to_node_cases. unfold delivered, writes_of, write_of.
  destruct (mesh_write E (n_write s));
    [ exists 1%nat
    | destruct (mesh_write E (1 + n_write s));
      [ exists 2%nat
      | destruct (mesh_write E (2 + n_write s)); [exists 3%nat | exists 3%nat] ] ];
    eexists; (split; [reflexivity | ]); cbn;
    (split; [split; [discriminate | repeat constructor; eexists; reflexivity] | ]);
    split; reflexivity.
Qed.

Lemma read_trace_facts E s :
  filter is_write (read_trace E s) = [] /\ filter is_client_send (read_trace E s) = [].
Proof.
  unfold read_trace. destruct (db_up E (n_db s)); [ | split; reflexivity].
  destruct (last_row E s) as [[ts st] | ]; [ | split; reflexivity].
  destruct (strptime ts); split; reflexivity.
Qed.

Lemma database_log_facts E b s :
  exists s1 tr,
    database_log E b s = Ok tt s1 tr
    /\ filter is_write tr = []
    /\ filter is_client_send tr = []
    /\ ac_allowed s1 = ac_allowed s
    /\ n_write s1 = n_write s
    /\ n_send s1 = n_send s.
Proof.
  destruct (read_trace_facts E s) as [Hw Hc].
  rewrite database_log_run.
  destruct (opt_bool_eqb (reported E s) b);
    [ | destruct (db_up E (S (n_db s))) ];
    do 2 eexists; (split; [reflexivity | ]);
    rewrite ?filter_app, Hw, Hc; repeat split; reflexivity.
Qed.

Lemma client_facts E client text s :
  exists tr,
    send_message_to_client E client text s = Ok tt (set_n_send (S (n_send s)) s) tr
    /\ filter is_client_send tr = [ClientSend client text]
    /\ filter is_write tr = []
    /\ filter is_insert tr = []
    /\ forall node_id, filter (is_write_to node_id) tr = [].
Proof.
  rewrite send_message_to_client_run. eexists. split; [reflexivity | ].
  unfold client_trace. destruct (client_write E (n_send s)); repeat split; reflexivity.
Qed.

Lemma writes_elsewhere node_id message other tr :
  node_id <> other ->
  Forall (write_of node_id message) (filter is_write tr) ->
  filter (is_write_to other) tr = [].
Proof.
  intro Hne. induction tr as [ | e tr IH]; simpl; [reflexivity | ].
  destruct e; simpl; auto.
  intro H. inversion H as [ | ? ? [ok' Heq] Hrest]; subst.
  injection Heq as -> _ _. apply Z.eqb_neq in Hne. rewrite Hne. auto.
Qed.

Lemma writes_here node_id message tr :
  Forall (write_of node_id message) (filter is_write tr) ->
  filter (is_write_to node_id) tr = filter is_write tr.
Proof.
  induction tr as [ | e tr IH]; simpl; [reflexivity | ].
  destruct e; simpl; auto.
  intro H. inversion H as [ | ? ? [ok' Heq] Hrest]; subst.
  injection Heq as -> _ _. rewrite Z.eqb_refl. f_equal. auto.
Qed.

Lemma no_writes node_id tr :
  filter is_write tr = [] -> filter (is_write_to node_id) tr = [].
Proof.
  intro H. rewrite (writes_here node_id EmptyString); [exact H | ].
  rewrite H. constructor.
Qed.

Lemma toggle_ac_allowed_facts E s :
  exists s1 tr,
    toggle_ac_allowed E s = Ok tt s1 tr
    /\ ac_allowed s1 = negb (ac_allowed s)
    /\ writes_of NODE_TEMP_LCD ("l" ++ bit (negb (ac_allowed s))) (filter is_write tr)
    /\ filter is_insert tr = []
    /\ filter is_client_send tr = [].
Proof.
  unfold toggle_ac_allowed, save_ac_allowed, bind, modify, gets, db_transaction, log, emit, ret.
  simpl.
  change (Codec.build_packet [("l", bit (negb (ac_allowed s)))])
    with ("l" ++ bit (negb (ac_allowed s))).
  destruct (db_up E (n_db s)); simpl;
    match goal with
    | |- context [send_message_to_node E ?n ?msg ?st] =>
        destruct (send_facts E n msg st) as (k & tr & Hsend & Hw & Hi & Hc); rewrite Hsend
    end; simpl; do 2 eexists; (split; [reflexivity | ]); simpl;
    rewrite ?app_nil_r; repeat split; try assumption; apply Hw.
Qed.



(** X14.  The command [ToggleAC] of a socket client flips the
    permission and tells the keypad, and that is all: unlike the frame
    with key [g] it never writes to the relay, so that taking the
    permission away from a socket client leaves a running AC running.
    Nothing is logged as an AC event and no reply goes to the client. *)
Theorem toggle_command_leaves_ac E client s :
  exists s' tr,
    process_command E (client, "ToggleAC") s = Ok tt s' tr
    /\ ac_allowed s' = negb (ac_allowed s)
    /\ writes_of NODE_TEMP_LCD ("l" ++ bit (negb (ac_allowed s))) (filter is_write tr)
    /\ filter (is_write_to NODE_AC_RELAY) tr = []
    /\ filter is_insert tr = []
    /\ filter is_client_send tr = [].
Proof.
  assert (Hcmd : process_command E (client, "ToggleAC") s
                 = bind (emit (Log Lrx "ToggleAC" (Some "Socket")))
                     (fun _ => toggle_ac_allowed E) s) by reflexivity.
  rewrite Hcmd.
  destruct (toggle_ac_allowed_facts E s) as (s1 & tr1 & Hrun & Hflag & Hw & Hi & Hc).
  unfold bind, emit. rewrite Hrun. do 2 eexists. split; [reflexivity | ].
  cbn [app filter is_write is_insert is_client_send is_write_to].
  split; [exact Hflag | ]. split; [exact Hw | ].
  split; [ | split; assumption].
  apply (writes_elsewhere NODE_TEMP_LCD ("l" ++ bit (negb (ac_allowed s))));
    [discriminate | apply Hw].
Qed.

(** X15.  The reply to [TurnOnAC] and [TurnOffAC] tells what happened
    at the relay.  Exactly one reply is sent to the client: [AC is ON] (or
    [AC is OFF]) when one of the three writes to the relay was
    acknowledged, and the failure text when none was; in that case
    nothing is written to the keypad and the database is left as it
    was. *)
Theorem turn_reply_truthful E client on s :
  exists s' tr,
    process_command E (client, turn_command on) s = Ok tt s' tr
    /\ filter is_client_send tr
       = [ClientSend client
            (if delivered E s
             then (if on then "AC is ON" else "AC is OFF")
             else "Failed - AC_Interface not responding")]
    /\ writes_of NODE_AC_RELAY ("a" ++ bit on) (filter (is_write_to NODE_AC_RELAY) tr)
    /\ if delivered E s
       then writes_of NODE_TEMP_LCD ("a" ++ bit on) (filter (is_write_to NODE_TEMP_LCD) tr)
       else filter (is_write_to NODE_TEMP_LCD) tr = []
            /\ filter is_insert tr = [] /\ db s' = db s.
Proof.
  assert (Hcmd : process_command E (client, turn_command on) s
                 = bind (emit (Log Lrx (turn_command on) (Some "Socket")))
                     (fun _ => cmd_turn E client on) s) by (destruct on; reflexivity).
  rewrite Hcmd. unfold bind at 1, emit. unfold cmd_turn.
  change (Codec.build_packet [("a", bit on)]) with ("a" ++ bit on).
  destruct (send_facts E NODE_AC_RELAY ("a" ++ bit on) s) as (k1 & tr1 & Hs1 & Hw1 & Hi1 & Hc1).
  rewrite (bind_Ok _ _ _ _ _ _ Hs1).
  destruct (delivered E s).
  - set (s1 := set_n_write (k1 + n_write s) s) in *.
    destruct (send_facts E NODE_TEMP_LCD ("a" ++ bit on) s1) as (k2 & tr2 & Hs2 & Hw2 & Hi2 & Hc2).
    rewrite (bind_Ok _ _ _ _ _ _ (send__Ok _ _ _ _ _ _ _ Hs2)).
    destruct (database_log_facts E on (set_n_write (k2 + n_write s1) s1))
      as (s3 & tr3 & Hlog & Hw3 & Hc3 & _).
    rewrite (bind_Ok _ _ _ _ _ _ Hlog).
    destruct (client_facts E client (if on then "AC is ON" else "AC is OFF") s3)
      as (tr4 & Hs4 & Hc4 & _ & _ & Hw4).
    rewrite Hs4. do 2 eexists. split; [reflexivity | ].
    cbn [app filter is_client_send is_write_to].
    rewrite !filter_app, Hc1, Hc2, Hc3, Hc4, !Hw4. cbn [app filter is_client_send is_write_to].
    rewrite (writes_here _ _ _ (proj2 Hw1)), (writes_here _ _ _ (proj2 Hw2)).
    rewrite (writes_elsewhere NODE_AC_RELAY _ NODE_TEMP_LCD tr1) by (discriminate || apply Hw1).
    rewrite (writes_elsewhere NODE_TEMP_LCD _ NODE_AC_RELAY tr2) by (discriminate || apply Hw2).
    rewrite !(no_writes _ _ Hw3), !app_nil_r.
    split; [reflexivity | ]. split; assumption.
  - destruct (client_facts E client "Failed - AC_Interface not responding"
                (set_n_write (k1 + n_write s) s)) as (tr4 & Hs4 & Hc4 & _ & Hi4 & Hw4).
    rewrite Hs4. do 2 eexists. split; [reflexivity | ].
    cbn [app filter is_client_send is_write_to is_insert].
    rewrite !filter_app, Hc1, Hi1, Hc4, Hi4, !Hw4.
    cbn [app filter is_client_send is_write_to is_insert].
    rewrite (writes_here _ _ _ (proj2 Hw1)).
    rewrite (writes_elsewhere NODE_AC_RELAY _ NODE_TEMP_LCD tr1) by (discriminate || apply Hw1).
    rewrite !app_nil_r.
    split; [reflexivity | ]. split; [assumption | ]. repeat split; reflexivity.
Qed.

Lemma turn_reply_truthful_witness :
  filter is_client_send (trace_of (process_command deaf_env (0%nat, "TurnOnAC") (boot empty_db)))
  = [ClientSend 0%nat "Failed - AC_Interface not responding"]
  /\ filter is_client_send (trace_of (process_command good_env (0%nat, "TurnOffAC") (boot empty_db)))
     = [ClientSend 0%nat "AC is OFF"].
Proof.
  split.
  - destruct (turn_reply_truthful deaf_env 0%nat true (boot empty_db))
      as (s' & tr & Hrun & Hreply & _).
    change (turn_command true) with "TurnOnAC" in Hrun. rewrite Hrun. exact Hreply.
  - destruct (turn_reply_truthful good_env 0%nat false (boot empty_db))
      as (s' & tr & Hrun & Hreply & _).
    change (turn_command false) with "TurnOffAC" in Hrun. rewrite Hrun. exact Hreply.
Defined.


Lemma watchdog_stands_down E t s :
  shutdown_executed s = false ->
  TEMP_SAFETY_TIMEOUT < t - last_temp_received_time s ->
  db_up E (n_db s) = false \/ stored_state E s <> Some true ->
  exists s1 tr,
    safety_watchdog E t s = Ok tt s1 tr
    /\ latch s1 = (true, true)
    /\ filter is_write tr = [].
Proof.
  intros Hd Ht Hoff.
  assert (Hsafe : (TEMP_SAFETY_TIMEOUT <? t - last_temp_received_time s) = true)
    by now apply Z.ltb_lt.
  assert (Hwarn : (TEMP_WARNING_TIMEOUT <? t - last_temp_received_time s) = true).
  { apply Z.ltb_lt. unfold TEMP_WARNING_TIMEOUT, TEMP_SAFETY_TIMEOUT, SECOND in *. lia. }
  assert (Hstate : forall s0, n_db s0 = n_db s -> db s0 = db s ->
            exists tr, get_ac_state E s0 = Ok false (set_n_db (S (n_db s0)) s0) tr
                       /\ filter is_write tr = []).
  { intros s0 Hn Hdb.
    destruct (db_up E (n_db s0)) eqn:Hup.
    - rewrite (get_ac_state_up E s0 Hup). rewrite Hn in Hup.
      destruct Hoff as [Hoff | Hoff]; [congruence | ].
      unfold stored_state, last_row in *. rewrite Hn, Hdb.
      destruct (latest_row _ (ac_data (db s))) as [[ts [ | ]] | ]; simpl in *;
        try congruence; eexists; split; reflexivity.
    - rewrite (get_ac_state_down E s0 Hup). eexists; split; reflexivity. }
  assert (Hrest :
    forall sa0, shutdown_executed sa0 = false -> warning_printed sa0 = true ->
      last_temp_received_time sa0 = last_temp_received_time s ->
      n_db sa0 = n_db s -> db sa0 = db s ->
      exists s1 tr,
        (done <- gets shutdown_executed ;;
         when (negb done && (TEMP_SAFETY_TIMEOUT <? t - last_temp_received_time s)) (
           log Lerror "No temperature in 120s - safety check" ;;
           on <- get_ac_state E ;;
           when on (
             log Lerror "Turning off AC due to temp timeout" ;;
             send_ E NODE_AC_RELAY (Codec.build_packet [("a", Py.str_int 0)]) ;;
             database_log E false) ;;
           modify (set_shutdown_executed true))) sa0
        = Ok tt s1 tr
        /\ latch s1 = (true, true) /\ filter is_write tr = []).
  { intros sa0 Hd0 Hw0 Hl0 Hn0 Hdb0.
    erewrite bind_Ok; [ | reflexivity]. cbv beta. rewrite Hd0, Hsafe.
    cbn [negb andb when].
    erewrite bind_Ok; [ | reflexivity]. cbv beta.
    destruct (Hstate sa0 Hn0 Hdb0) as (tr & Hget & Hq).
    rewrite (bind_Ok _ _ _ _ _ _ Hget). cbn [when].
    erewrite bind_Ok; [ | reflexivity]. cbv beta.
    unfold modify. do 2 eexists. split; [reflexivity | ].
    split; [unfold latch; cbn; now rewrite Hw0 | ].
    cbn [app filter is_write]. rewrite !app_nil_r. exact Hq. }
  unfold safety_watchdog.
  erewrite bind_Ok; [ | reflexivity]. cbv beta.
  erewrite bind_Ok; [ | reflexivity]. cbv beta.
  rewrite Hwarn.
  destruct (warning_printed s) eqn:Hw; cbn [negb andb when].
  - erewrite bind_Ok; [ | reflexivity]. cbv beta.
    destruct (Hrest s Hd Hw eq_refl eq_refl eq_refl) as (s1 & tr & Hrun & Hl & Hq).
    rewrite Hrun. do 2 eexists. split; [reflexivity | ]. split; [exact Hl | exact Hq].
  - erewrite bind_Ok; [ | reflexivity]. cbv beta.
    destruct (Hrest (set_warning_printed true s) Hd eq_refl eq_refl eq_refl eq_refl)
      as (s1 & tr & Hrun & Hl & Hq).
    rewrite Hrun. do 2 eexists. split; [reflexivity | ]. split; [exact Hl | exact Hq].
Qed.

(** X16.  The watchdog looks at the AC once per outage.  When the
    safety threshold is passed and the watchdog finds the AC off (the
    last logged state is not on), or cannot read the database, it sends
    nothing and sets its latch all the same.  From then on, as long as no
    temperature arrives, the watchdog writes nothing to the radio,
    whatever happens in between: an AC that is switched on later in the
    same outage is not switched off by it. *)
Theorem watchdog_checks_once_per_outage E s inp inputs :
  silent inp -> Forall silent inputs ->
  shutdown_executed s = false ->
  TEMP_SAFETY_TIMEOUT < time_time E (n_time s) - last_temp_received_time s ->
  db_up E (n_db s) = false \/ stored_state E s <> Some true ->
  filter is_write (phase_trace PWatchdog (trace_of (run E (inp :: inputs) s))) = [].
Proof.
  intros Hinp Hall Hd Ht Hoff.
  destruct (watchdog_stands_down E (time_time E (n_time s)) (set_n_time (S (n_time s)) s)
              Hd Ht Hoff) as (s1 & tr & Hw & Hl & Hq).
  rewrite run_cons, trace_of_bind, phase_trace_app, iteration_watchdog_trace, Hw.
  simpl trace_of at 1. rewrite filter_app, Hq. simpl.
  assert (Hl' := iteration_latch E inp s _ _ Hinp Hw).
  destruct (iteration E inp s) as [a s2 tr2 | e s2 tr2]; [ | reflexivity].
  simpl in Hl'. rewrite run_latched; [reflexivity | exact Hall | ].
  rewrite Hl'. exact Hl.
Qed.

Lemma watchdog_checks_once_per_outage_witness :
  let s := boot (one_event_db HALF false) in
  let inp := {| inbox := []; queue := [] |} in
  let o := run late_env (inp :: switched_on_in_outage) s in
  silent inp /\ Forall silent switched_on_in_outage
  /\ stored_state late_env (state_of o) = Some true
  /\ filter is_write (phase_trace PWatchdog (trace_of o)) = [].
Proof.
  intros s inp o.
  assert (H1 : silent inp) by constructor.
  assert (H2 : Forall silent switched_on_in_outage) by (repeat constructor).
  split; [exact H1 | ]. split; [exact H2 | ].
  split; [vm_compute; reflexivity | ].
  apply (watchdog_checks_once_per_outage late_env s inp switched_on_in_outage H1 H2).
  - reflexivity.
  - vm_compute. reflexivity.
  - right. vm_compute. discriminate.
Defined.

Lemma fresh_state_vouched E s :
  exists s1 tr,
    fresh_state E s = Ok (vouched E s) s1 tr
    /\ filter is_client_send tr = [].
Proof.
  rewrite fresh_state_run. do 2 eexists. split; [reflexivity | ].
  apply read_trace_facts.
Qed.

(** X17.  [AC_Status] never reports a state it cannot answer for.  One
    reply is sent to the client, and it is [AC is ON] only when the
    database could be read, its last event is an on-event, the time of
    that event parses (it does not fall on a whole second), and the
    event is at most 40 minutes old when the clock is read.  In every
    other case (no event, a stale one, an off-event, a time that does not
    parse, a database that does not answer) the reply is [AC is OFF]. *)
Theorem ac_status_on_is_fresh E client s :
  (exists s' tr,
     process_command E (client, "AC_Status") s = Ok tt s' tr
     /\ filter is_client_send tr
        = [ClientSend client
             (match vouched E s with Some true => "AC is ON" | _ => "AC is OFF" end)])
  /\ (vouched E s = Some true <->
      db_up E (n_db s) = true
      /\ exists timestamp,
           last_row E s = Some (timestamp, true)
           /\ timestamp mod SECOND <> 0
           /\ datetime_now E (n_now s) - timestamp <= DB_STALE_THRESHOLD).
Proof.
  split.
  - assert (Hcmd : process_command E (client, "AC_Status") s
                   = bind (emit (Log Lrx "AC_Status" (Some "Socket")))
                       (fun _ => cmd_AC_Status E client) s) by reflexivity.
    rewrite Hcmd. unfold bind at 1, emit. unfold cmd_AC_Status.
    destruct (fresh_state_vouched E s) as (s1 & tr1 & Hfresh & Hc1).
    rewrite (bind_Ok _ _ _ _ _ _ Hfresh).
    destruct (vouched E s) as [st | ].
    + destruct (client_facts E client (if st then "AC is ON" else "AC is OFF") s1)
        as (tr3 & Hs3 & Hc3 & _).
      rewrite Hs3. do 2 eexists. split; [reflexivity | ].
      cbn [app filter is_client_send]. rewrite !filter_app, Hc1, Hc3.
      destruct st; reflexivity.
    + destruct (database_log_facts E false s1) as (s2 & tr2 & Hlog & _ & Hc2 & _).
      rewrite (bind_Ok _ _ _ _ _ _ Hlog).
      destruct (client_facts E client "AC is OFF" s2) as (tr3 & Hs3 & Hc3 & _).
      rewrite Hs3. do 2 eexists. split; [reflexivity | ].
      cbn [app filter is_client_send]. rewrite !filter_app, Hc1, Hc2, Hc3. reflexivity.
  - unfold vouched, last_event, strptime. split.
    + intro H. destruct (db_up E (n_db s)); [ | discriminate]. split; [reflexivity | ].
      destruct (last_row E s) as [[ts st] | ]; [ | discriminate].
      destruct (Z.eqb_spec (ts mod SECOND) 0) as [ | Hsec]; [discriminate | ].
      destruct (_ <=? DB_STALE_THRESHOLD) eqn:Hfresh; [ | discriminate].
      injection H as ->. exists ts. split; [reflexivity | ].
      split; [exact Hsec | now apply Z.leb_le].
    + intros (Hup & ts & Hrow & Hsec & Hfresh). rewrite Hup, Hrow.
      apply Z.eqb_neq in Hsec. rewrite Hsec.
      apply Z.leb_le in Hfresh. now rewrite Hfresh.
Qed.

(** An on-event of a second ago is answered for; the same event on a
    whole second is not, and an off-event is logged after it. *)
Example ac_status_whole_second :
  filter is_client_send
    (trace_of (process_command good_env (0%nat, "AC_Status") (boot (one_event_db (- HALF) true))))
  = [ClientSend 0%nat "AC is ON"]
  /\ trace_of (process_command good_env (0%nat, "AC_Status") (boot (one_event_db 0 true)))
     = [Log Lrx "AC_Status" (Some "Socket"); read_error_log; read_error_log;
        DbInsert (SECOND + HALF) false; Log Ldb "AC state logged: OFF" None;
        ClientSend 0%nat "AC is OFF"].
Proof. vm_compute. split; reflexivity. Qed.

Lemma bind_Ok_inv {T A B} (m : M T A) (k : A -> M T B) s b s2 tr :
  bind m k s = Ok b s2 tr ->
  exists a s1 tr1 tr2,
    m s = Ok a s1 tr1 /\ k a s1 = Ok b s2 tr2 /\ tr = (tr1 ++ tr2)%list.
Proof.
  unfold bind. destruct (m s) as [a s1 tr1 | e s1 tr1]; [ | discriminate].
  destruct (k a s1) as [b' s2' tr2 | e s2' tr2] eqn:Hk; [ | discriminate].
  intro H. injection H as -> -> <-. exists a, s1, tr1, tr2. auto.
Qed.

Lemma get_In_pair k v (d : Codec.packet) :
  Codec.get k d = Some v -> In (k, v) d.
Proof.
  unfold Codec.get. induction d as [ | [k0 v0] d IH]; simpl; [discriminate | ].
  destruct (String.eqb_spec k0 k) as [-> | Hne].
  - intro H. injection H as ->. now left.
  - intro H. right. now apply IH.
Qed.

Lemma parsed_value_not_empty message packet k v :
  Codec.parse_packet message = Some packet -> Codec.get k packet = Some v ->
  v <> EmptyString.
Proof.
  unfold Codec.parse_packet. destruct (Codec.is_packet message); [ | discriminate].
  simpl. intro H. injection H as <-. intro Hget.
  assert (Hall : Forall decoded_pair (fold_left Codec.parse_pair (Py.split "," message) []))
    by (apply parsed_pairs; [apply split_all_lack | constructor]).
  apply get_In_pair in Hget.
  apply (proj1 (Forall_forall _ _) Hall) in Hget. apply Hget.
Qed.

Lemma parsed_truthy message packet :
  Codec.parse_packet message = Some packet ->
  Codec.is_packet message = true /\ Codec.truthy packet = true.
Proof.
  unfold Codec.parse_packet. destruct (Codec.is_packet message) eqn:Hpk; [ | discriminate].
  simpl. intro H. injection H as <-. split; [reflexivity | ].
  destruct (is_packet_first_segment _ Hpk) as (c & v0 & v & rest & Hs).
  rewrite Hs. simpl.
  destruct (fold_left Codec.parse_pair rest [(String c EmptyString, String v0 v)]) eqn:Hf;
    [ | reflexivity].
  exfalso. revert Hf. apply parsed_not_nil. discriminate.
Qed.

Lemma process_frame_dispatch E n message packet s :
  Codec.parse_packet message = Some packet ->
  exists s0 tr0,
    track_node E n message s = Ok tt s0 tr0
    /\ process_frame E (n, message) s
       = match dispatch E n packet s0 with
         | Ok a s1 tr1 =>
             Ok a s1 (Log Lrx (Codec.describe_message message) (Some (node_str n))
                        :: tr0 ++ tr1)%list
         | Raised e s1 tr1 =>
             Raised e s1 (Log Lrx (Codec.describe_message message) (Some (node_str n))
                            :: tr0 ++ tr1)%list
         end.
Proof.
  intro Hp. destruct (parsed_truthy _ _ Hp) as [Hpk Htr].
  destruct (track_node_sets E n message s) as (s0 & tr0 & Htrack & _).
  exists s0, tr0. split; [exact Htrack | ].
  unfold process_frame. unfold bind at 1, log_node, emit.
  rewrite (bind_Ok _ _ _ _ _ _ Htrack). rewrite Hpk, Hp, Htr. cbn [when].
  destruct (dispatch E n packet s0); reflexivity.
Qed.

Lemma rule_t_records E n packet v s :
  Codec.get "t" packet = Some v ->
  last_known_temp (state_of (rule_t E n packet s)) = Some v.
Proof.
  intro Ht. unfold rule_t. rewrite Ht. rewrite state_of_bind. unfold modify at 1.
  assert (Hk : keeps last_known_temp
                 (modify (set_warning_printed false) ;;
                  modify (set_shutdown_executed false) ;;
                  now <- read_time E ;;
                  modify (set_last_temp_received_time now) ;;
                  when (negb (Codec.has "s" packet)) (
                    a <- get_ac_state E ;;
                    send_ E n (Codec.build_packet [("a", bit a)])))).
  { assert (Hm : in_memory last_known_temp) by blind.
    pose proof (frame_send_ last_known_temp Hm).
    repeat (apply keeps_bind; [ | intros ]);
      try (apply keeps_modify; intros; reflexivity);
      try apply keeps_when; try (apply keeps_bind; [ | intros ]); auto with frame. }
  apply Hk.
Qed.

(** X18.  The temperature that the clients are told is the one of the
    last temperature frame: when a frame that holds key [t] has been
    processed, the value of [t] is what the controller remembers, as the
    text it came in, and what it replies to [current_temp]; the database
    and the radio have no part in that reply, which leaves the state as
    it is but for the [sendall] consumed, and the trace is the line that
    logs the command and what [send_message_to_client] does with that
    text. *)
Theorem temperature_is_reported E node_id message packet v s s1 tr client :
  Codec.parse_packet message = Some packet ->
  Codec.get "t" packet = Some v ->
  process_frame E (node_id, message) s = Ok tt s1 tr ->
  last_known_temp s1 = Some v
  /\ process_command E (client, "current_temp") s1
     = Ok tt (set_n_send (S (n_send s1)) s1)
         (Log Lrx "current_temp" (Some "Socket") :: client_trace E s1 client v).
Proof.
  intros Hp Ht Hrun.
  assert (Hv := parsed_value_not_empty _ _ _ _ Hp Ht).
  destruct (process_frame_dispatch E node_id message packet s Hp)
    as (s0 & tr0 & _ & Hpf).
  rewrite Hpf in Hrun.
  destruct (dispatch E node_id packet s0) as [a sd trd | e sd trd] eqn:Hd; [ | discriminate].
  injection Hrun as _ -> _.
  assert (Htemp : last_known_temp s1 = Some v).
  { unfold dispatch in Hd.
    apply bind_Ok_inv in Hd. destruct Hd as (_ & sa & tra & trb & _ & Hd & _).
    change s1 with (state_of (Ok (T := effect) a s1 trb)). rewrite <- Hd.
    rewrite state_of_bind.
    assert (Hk2 : keeps last_known_temp
                    (rule_a E node_id packet ;; rule_g E packet ;;
                     rule_xn E packet ;; rule_q E node_id packet)).
    { assert (Hm : in_memory last_known_temp) by blind.
      repeat (apply keeps_bind; [ | intros ]).
      - now apply frame_rule_a.
      - apply frame_rule_g; [exact Hm | intros _; blind].
      - now apply frame_rule_xn.
      - now apply frame_rule_q. }
    assert (Hrec := rule_t_records E node_id packet v sa Ht).
    destruct (rule_t E node_id packet sa) as [u sb trb' | e sb trb']; simpl in Hrec |- *.
    - rewrite Hk2. exact Hrec.
    - exact Hrec. }
  split; [exact Htemp | ].
  assert (Hcmd : process_command E (client, "current_temp") s1
                 = bind (emit (Log Lrx "current_temp" (Some "Socket")))
                     (fun _ => temp <- gets (fun s => or_dashes (last_known_temp s)) ;;
                               send_message_to_client E client temp) s1) by reflexivity.
  rewrite Hcmd. unfold bind, emit, gets. rewrite send_message_to_client_run, Htemp.
  destruct v; [congruence | reflexivity].
Qed.

Lemma temperature_is_reported_witness :
  let o := process_frame good_env (NODE_TEMP_LCD, "t71.5,h40.0") (boot empty_db) in
  Codec.parse_packet "t71.5,h40.0" = Some [("t", "71.5"); ("h", "40.0")]
  /\ trace_of (process_command good_env (0%nat, "current_temp") (state_of o))
     = [Log Lrx "current_temp" (Some "Socket"); ClientSend 0%nat "71.5"].
Proof.
  intro o. split; [reflexivity | ].
  destruct o as [a s1 tr | e s1 tr] eqn:Ho; [ | vm_compute in Ho; discriminate Ho].
  destruct a.
  destruct (temperature_is_reported good_env NODE_TEMP_LCD "t71.5,h40.0"
              [("t", "71.5"); ("h", "40.0")] "71.5" (boot empty_db) s1 tr 0%nat
              eq_refl eq_refl Ho) as [_ Hreply].
  simpl state_of. rewrite Hreply. reflexivity.
Defined.

Lemma get_temps_total E s :
  exists temps s0 tr0,
    get_temps E s = Ok temps s0 tr0
    /\ filter is_write tr0 = [] /\ ac_allowed s0 = ac_allowed s
    /\ n_write s0 = n_write s /\ db s0 = db s.
Proof.
  unfold get_temps, bind, db_transaction, gets, log, emit, ret. simpl.
  destruct (db_up E (n_db s)); simpl;
    repeat match goal with
           | |- context [float_of_row E ?r] => destruct (float_of_row E r) as [[? | ] | ]; simpl
           end;
    do 3 eexists; repeat split; reflexivity.
Qed.

Lemma get_ac_state_total E s :
  exists a s0 tr0,
    get_ac_state E s = Ok a s0 tr0
    /\ filter is_write tr0 = [] /\ ac_allowed s0 = ac_allowed s
    /\ n_write s0 = n_write s /\ db s0 = db s.
Proof.
  destruct (db_up E (n_db s)) eqn:Hup.
  - rewrite (get_ac_state_up E s Hup). do 3 eexists; repeat split; reflexivity.
  - rewrite (get_ac_state_down E s Hup). do 3 eexists; repeat split; reflexivity.
Qed.

Lemma sync_frame_decodes x n allowed on :
  Codec.parse_packet (Codec.build_packet (int_frame (sync_frame x n allowed on)))
  = Some (int_frame (sync_frame x n allowed on)).
Proof.
  apply parse_build_clean.
  - split.
    + apply int_frame_keys. repeat constructor; simpl; intuition discriminate.
    + unfold int_frame. apply Forall_map. apply Forall_forall. intros [c z] _.
      split; simpl; [eexists; reflexivity | ].
      apply str_int_lacks; [reflexivity | discriminate].
  - unfold clean, int_frame, sync_frame. simpl.
    repeat constructor; simpl; try discriminate;
      match goal with
      | |- Py.str_int ?z <> _ => destruct (str_int_head z) as (d & r & -> & _); discriminate
      end.
  - unfold Codec.build_packet, int_frame, sync_frame. simpl map.
    destruct (str_int_head x) as (d & r & Hx & Hd). cbn [Py.join fst snd].
    rewrite Hx. simpl. exact Hd.
Qed.



(** X20.  A frame that holds the two thresholds [x] and [n] and none of
    the keys [s], [t], [a], [g], [q] has one effect: the two values are
    stored, as the text they came in, when the database takes the write.
    Nothing is sent on the radio (the thresholds are not echoed), and
    when the database refuses the write it is left as it was. *)
Theorem thresholds_saved_not_echoed E node_id packet x n s :
  Codec.get "x" packet = Some x -> Codec.get "n" packet = Some n ->
  Forall (fun k => Codec.has k packet = false) ["s"; "t"; "a"; "g"; "q"] ->
  exists s' tr,
    dispatch E node_id packet s = Ok tt s' tr
    /\ filter is_write tr = []
    /\ db s'
       = if db_up E (n_db s)
         then upsert "min_temp" n (upsert "max_temp" x (db s))
         else db s.
Proof.
  intros Hx Hn Hno.
  repeat match goal with
         | H : Forall _ (_ :: _) |- _ => inversion H; subst; clear H
         end.
  assert (Ht : Codec.get "t" packet = None) by now apply has_get_none.
  assert (Ha : Codec.get "a" packet = None) by now apply has_get_none.
  unfold dispatch, rule_s, rule_t, rule_a, rule_g, rule_xn, rule_q.
  repeat match goal with
         | H : Codec.has _ packet = false |- _ => rewrite H; clear H
         end.
  rewrite Hx, Hn, Ht, Ha. cbn [when negb].
  unfold save_temps, bind, db_transaction, modify, log, emit, ret. simpl.
  destruct (db_up E (n_db s)); simpl; do 2 eexists; repeat split; reflexivity.
Qed.

Lemma thresholds_saved_not_echoed_witness :
  Codec.parse_packet "x80,n-" = Some [("x", "80"); ("n", "-")]
  /\ exists s' tr,
       dispatch good_env NODE_TEMP_LCD [("x", "80"); ("n", "-")] (boot empty_db) = Ok tt s' tr
       /\ filter is_write tr = []
       /\ ac_settings (db s') = [("max_temp", "80"); ("min_temp", "-")].
Proof.
  split; [reflexivity | ].
  destruct (thresholds_saved_not_echoed good_env NODE_TEMP_LCD [("x", "80"); ("n", "-")]
              "80" "-" (boot empty_db) eq_refl eq_refl)
    as (s' & tr & Hrun & Hq & Hdb).
  - repeat constructor.
  - exists s', tr. split; [exact Hrun | ]. split; [exact Hq | ].
    rewrite Hdb. reflexivity.
Defined.

(* ====================================================================== *)
(** * The commands as the clients send them *)
(* ====================================================================== *)

Lemma lacks_app c a b : lacks c a -> lacks c b -> lacks c (a ++ b).
Proof.
  unfold lacks, chars. induction a as [ | x a IH]; simpl; intros Ha Hb; [exact Hb | ].
  intros [H | H]; [apply Ha; now left | ].
  revert H. apply IH; [ | exact Hb]. intro H. apply Ha. now right.
Qed.

Lemma rev_string_involutive s : Py.rev_string (Py.rev_string s) = s.
Proof.
  unfold Py.rev_string. rewrite list_ascii_of_string_of_list_ascii, rev_involutive.
  apply string_of_list_ascii_of_string.
Qed.

Lemma drop_while_none p s :
  (forall c, In c (chars s) -> p c = false) -> Py.drop_while p s = s.
Proof.
  unfold chars. destruct s as [ | c r]; simpl; intro H; [reflexivity | ].
  rewrite (H c); [reflexivity | now left].
Qed.

Lemma strip_with_none p s :
  (forall c, In c (chars s) -> p c = false) -> Py.strip_with p s = s.
Proof.
  intro H. unfold Py.strip_with. rewrite (drop_while_none p s H).
  rewrite drop_while_none; [apply rev_string_involutive | ].
  intros c Hc. rewrite chars_rev_string in Hc. apply in_rev in Hc. now apply H.
Qed.

Lemma str_int_no_space n c : In c (chars (Py.str_int n)) -> Py.isspace c = false.
Proof.
  intro H. destruct (str_int_chars n c H) as [Hd | ->]; [ | reflexivity].
  unfold Py.isspace, Py.between in *.
  apply andb_true_iff in Hd. destruct Hd as [H1 H2].
  apply N.leb_le in H1. apply N.leb_le in H2.
  repeat match goal with
         | |- context [(?a <=? ?b)%N] => destruct (N.leb_spec a b)
         | |- context [(?a =? ?b)%N] => destruct (N.eqb_spec a b)
         end; simpl; try reflexivity; lia.
Qed.

Lemma strip_str_int n : Py.strip (Py.str_int n) = Py.str_int n.
Proof. apply strip_with_none. apply str_int_no_space. Qed.

Lemma strip_space_str_int n : Py.strip (" " ++ Py.str_int n) = Py.str_int n.
Proof.
  unfold Py.strip, Py.strip_with. simpl Py.drop_while.
  apply strip_with_none. apply str_int_no_space.
Qed.

Lemma keeps_settings_send_settings_to_node E :
  keeps (fun s => ac_settings (db s)) (send_settings_to_node E).
Proof.
  unfold send_settings_to_node.
  apply keeps_bind; [ | intros temps].
  { intro s. destruct (get_temps_total E s) as (t & s0 & tr0 & -> & _ & _ & _ & Hdb).
    simpl. now rewrite Hdb. }
  apply keeps_bind; [unfold int_of_float; destruct (float_to_int E _);
                     [apply keeps_raise | apply keeps_ret] | intros x].
  apply keeps_bind; [unfold int_of_float; destruct (float_to_int E _);
                     [apply keeps_raise | apply keeps_ret] | intros n].
  apply keeps_bind; [apply keeps_gets | intros l].
  apply keeps_bind; [ | intros a].
  { intro s. destruct (get_ac_state_total E s) as (t & s0 & tr0 & -> & _ & _ & _ & Hdb).
    simpl. now rewrite Hdb. }
  apply keeps_bind; [ | intros; apply keeps_ret].
  intro s. match goal with
           | |- context [send_message_to_node E ?n ?m s] =>
               destruct (send_facts E n m s) as (k & tr & -> & _)
           end. reflexivity.
Qed.

Lemma cmd_setTemps_stores E client a b s :
  lacks ":" a -> lacks "," a -> lacks ":" b -> lacks "," b ->
  db_up E (n_db s) = true ->
  let s' := state_of (process_command E (client, "setTemps:" ++ a ++ "," ++ b) s) in
  setting "max_temp" s' = Some (Py.strip a) /\ setting "min_temp" s' = Some (Py.strip b).
Proof.
  intros Ha1 Ha2 Hb1 Hb2 Hup.
  assert (Hcmd : process_command E (client, "setTemps:" ++ a ++ "," ++ b) s
                 = bind (emit (Log Lrx ("setTemps:" ++ a ++ "," ++ b) (Some "Socket")))
                     (fun _ => cmd_setTemps E client ("setTemps:" ++ a ++ "," ++ b)) s).
  { unfold process_command, Py.startswith.
    cbn -[cmd_setBrightness cmd_setTemps cmd_status String.append].
    cbn -[cmd_setBrightness cmd_setTemps cmd_status].
    replace (prefix "" (a ++ String "," b)) with true
      by (destruct (a ++ String "," b); reflexivity).
    reflexivity. }
  cbv zeta. rewrite Hcmd. rewrite state_of_bind. unfold emit. cbv beta iota.
  assert (Hsplit : Py.split ":" ("setTemps:" ++ a ++ "," ++ b) = ["setTemps"; a ++ "," ++ b]).
  { change ("setTemps:" ++ a ++ "," ++ b) with ("setTemps" ++ String ":" (a ++ "," ++ b)).
    rewrite split_app_sep.
    - rewrite split_lacks; [reflexivity | ].
      apply lacks_app; [exact Ha1 | ].
      change ("," ++ b) with (String "," b). unfold lacks, chars in *. simpl.
      intros [H | H]; [discriminate H | now apply Hb1].
    - unfold lacks. simpl. intuition discriminate. }
  assert (Hsplit2 : Py.split "," (a ++ "," ++ b) = [a; b]).
  { change (a ++ "," ++ b) with (a ++ String "," b).
    rewrite split_app_sep by exact Ha2. now rewrite split_lacks. }
  unfold cmd_setTemps. rewrite Hsplit. cbv beta iota. rewrite Hsplit2. cbv beta iota.
  set (saved := set_db (upsert "min_temp" (Py.strip b) (upsert "max_temp" (Py.strip a) (db s)))
                  (set_n_db (S (n_db s)) s)).
  assert (Hsave : save_temps E (Py.strip a) (Py.strip b) s
                  = Ok true saved
                      [Log Ldb ("Temps saved: max=" ++ Py.strip a ++ ", min=" ++ Py.strip b) None]).
  { unfold save_temps, bind, db_transaction, modify, log, emit, ret. rewrite Hup. reflexivity. }
  assert (Hfinal :
    ac_settings (db (state_of
      (try_except
         (save_temps E (Py.strip a) (Py.strip b) ;; send_settings_to_node E ;; ret tt)
         is_ValueError
         (send_message_to_client E client "Invalid format: use setTemps:max,min") s)))
    = ac_settings (db saved)).
  { assert (Hbody : keeps (fun st => ac_settings (db st))
                      (send_settings_to_node E ;; ret (T := effect) tt)).
    { apply keeps_bind; [apply keeps_settings_send_settings_to_node | intros; apply keeps_ret]. }
    specialize (Hbody saved). cbv beta in Hbody.
    unfold try_except. rewrite (bind_Ok _ _ _ _ _ _ Hsave).
    destruct ((send_settings_to_node E ;; ret tt) saved) as [u s2 tr2 | e s2 tr2];
      cbn [state_of] in Hbody; [exact Hbody | ].
    destruct (is_ValueError e); [rewrite send_message_to_client_run | ]; exact Hbody. }
  unfold setting. rewrite Hfinal. unfold saved, upsert. cbn [db ac_settings set_db set_ac_settings].
  rewrite !dict_get_set. split; reflexivity.
Qed.

(** X21.  The thresholds that a client sets reach the database as the
    client printed them.  Both forms of the command are accepted, that
    of the API ([setTemps:max,min]) and that of the console (with a
    space after the colon): with a database that takes the write, the
    two settings hold [str(max)] and [str(min)] afterwards, whatever
    becomes of the frame for the keypad. *)
Theorem client_thresholds_are_stored E client max_temp min_temp command s :
  command = SocketClient.set_temps max_temp min_temp
  \/ command = MobileConsole.set_temps max_temp min_temp ->
  db_up E (n_db s) = true ->
  let s' := state_of (process_command E (client, command) s) in
  setting "max_temp" s' = Some (Py.str_int max_temp)
  /\ setting "min_temp" s' = Some (Py.str_int min_temp).
Proof.
  intros Hcommand Hup.
  assert (Hcolon : forall n, lacks ":" (Py.str_int n))
    by (intro n; apply str_int_lacks; [reflexivity | discriminate]).
  assert (Hcomma : forall n, lacks "," (Py.str_int n))
    by (intro n; apply str_int_lacks; [reflexivity | discriminate]).
  destruct Hcommand as [-> | ->].
  - pose proof (cmd_setTemps_stores E client (Py.str_int max_temp) (Py.str_int min_temp) s
                  (Hcolon _) (Hcomma _) (Hcolon _) (Hcomma _) Hup) as H.
    cbv zeta in H. rewrite !strip_str_int in H. exact H.
  - assert (Hc1 : lacks ":" (" " ++ Py.str_int max_temp)).
    { change (" " ++ Py.str_int max_temp) with (String " " (Py.str_int max_temp)).
      unfold lacks, chars. simpl. intros [H | H]; [discriminate H | now apply (Hcolon max_temp)]. }
    assert (Hc2 : lacks "," (" " ++ Py.str_int max_temp)).
    { change (" " ++ Py.str_int max_temp) with (String " " (Py.str_int max_temp)).
      unfold lacks, chars. simpl. intros [H | H]; [discriminate H | now apply (Hcomma max_temp)]. }
    pose proof (cmd_setTemps_stores E client (" " ++ Py.str_int max_temp) (Py.str_int min_temp) s
                  Hc1 Hc2 (Hcolon _) (Hcomma _) Hup) as H.
    cbv zeta in H. rewrite strip_space_str_int, strip_str_int in H. exact H.
Qed.

Lemma client_thresholds_are_stored_witness :
  let s' := state_of (process_command good_env (0%nat, "setTemps: 80,70") (boot empty_db)) in
  MobileConsole.set_temps 80 70 = "setTemps: 80,70"
  /\ setting "max_temp" s' = Some "80" /\ setting "min_temp" s' = Some "70".
Proof.
  intro s'. split; [reflexivity | ].
  apply (client_thresholds_are_stored good_env 0%nat 80 70 "setTemps: 80,70" (boot empty_db)).
  - right. reflexivity.
  - reflexivity.
Defined.

Lemma int_str_int_small level :
  0 <= level <= 100 -> Py.int (Py.str_int level) = Some level.
Proof.
  intro H.
  assert (Hall : forallb (fun k => match Py.int (Py.str_int (Z.of_nat k)) with
                                   | Some n => n =? Z.of_nat k
                                   | None => false
                                   end) (seq 0 101) = true) by (vm_compute; reflexivity).
  assert (Hin : In (Z.to_nat level) (seq 0 101)) by (apply in_seq; lia).
  apply (proj1 (forallb_forall _ _) Hall) in Hin.
  rewrite Z2Nat.id in Hin by lia.
  destruct (Py.int (Py.str_int level)) as [n | ]; [ | discriminate].
  apply Z.eqb_eq in Hin. now subst.
Qed.

(** X22.  A brightness that the API lets through reaches the display
    unchanged: for a level from 0 to 100, the command that
    [set_brightness] of the API client sends is accepted, the frame sent
    to the keypad is [b] followed by that same level, and the client gets
    no reply (the API does not wait for one). *)
Theorem client_brightness_is_relayed E client level s :
  0 <= level <= 100 ->
  exists sent s1 tr1,
    send_message_to_node E NODE_TEMP_LCD ("b" ++ Py.str_int level) s = Ok sent s1 tr1
    /\ process_command E (client, SocketClient.set_brightness level) s
       = Ok tt s1
           (Log Lrx (SocketClient.set_brightness level) (Some "Socket")
            :: tr1 ++ [Log Linfo ("LED brightness set to " ++ Py.str_int level ++ "%") None])%list
    /\ filter is_client_send tr1 = [].
Proof.
  intro Hrange.
  destruct (set_brightness_accepts E client (Py.str_int level) level s
              (int_str_int_small level Hrange)) as (sent & s1 & tr1 & Hsend & Hrun).
  replace (Z.max 0 (Z.min 100 level)) with level in * by lia.
  exists sent, s1, tr1. split; [exact Hsend | ]. split; [exact Hrun | ].
  eapply send_no_client_send; eauto.
Qed.

Lemma client_brightness_is_relayed_witness :
  SocketClient.set_brightness 40 = "setBrightness:40"
  /\ filter is_write
       (trace_of (process_command good_env (0%nat, "setBrightness:40") (boot empty_db)))
     = [MeshWrite NODE_TEMP_LCD "b40" true].
Proof.
  split; [reflexivity | ].
  destruct (client_brightness_is_relayed good_env 0%nat 40 (boot empty_db))
    as (sent & s1 & tr1 & Hsend & Hrun & _); [lia | ].
  change (SocketClient.set_brightness 40) with "setBrightness:40" in Hrun.
  rewrite Hrun. vm_compute in Hsend. injection Hsend as _ _ <-. reflexivity.
Defined.
